(** * Schema-to-feature-model generator: a shallow embedding

    This development embeds the two modules of the generator,
    [scripts/model_generation/convert01.py] (the [SchemaProcessor] class,
    the serializer and the driver) and
    [scripts/model_generation/analisisScript01.py] (constraint synthesis),
    and states the properties of the specification about them.

    Conventions.
    - Python [str] values are Rocq [string]s.  The model is exact on ASCII
      text; the character classes of the regular expressions treat bytes
      above 127 as neither digits, letters nor blanks.
    - Python's [re] module is a library, not code of the repository.  It is
      embedded once, as a priority-ordered backtracking matcher ([Re.run]),
      and every pattern of the source is written as a term of [Re.regex].
    - A Python exception that leaves a function is the outcome [Raise].
    - Instance attributes and module globals that the code mutates are
      threaded explicitly (records [proc] and the counter of [Analisis]). *)

From Stdlib Require Import String Ascii List Bool Arith Lia NArith.
From Stdlib Require Import DecimalString.
From stdpp Require Import base gmap strings.
Import ListNotations.
Open Scope string_scope.
Set Warnings "-register-all".

(** ** Python string primitives *)

Module Py.

Definition chars (s : string) : list ascii := list_ascii_of_string s.
Definition str (l : list ascii) : string := string_of_list_ascii l.

Definition len (s : string) : nat := String.length s.

Definition code (c : ascii) : nat := nat_of_ascii c.

Definition in_range (lo hi : nat) (c : ascii) : bool :=
  (lo <=? code c)%nat && (code c <=? hi)%nat.

Definition is_upper (c : ascii) : bool := in_range 65 90 c.
Definition is_lower (c : ascii) : bool := in_range 97 122 c.
Definition is_digit (c : ascii) : bool := in_range 48 57 c.
Definition is_alpha (c : ascii) : bool := is_upper c || is_lower c.

(** [str.isspace] on one ASCII character: TAB..CR, FS..US and the blank. *)
Definition is_space (c : ascii) : bool :=
  in_range 9 13 c || in_range 28 32 c.

(** [\w] on ASCII. *)
Definition is_word (c : ascii) : bool :=
  is_alpha c || is_digit c || Ascii.eqb c "_"%char.

Definition lower_char (c : ascii) : ascii :=
  if is_upper c then ascii_of_nat (code c + 32) else c.
Definition upper_char (c : ascii) : ascii :=
  if is_lower c then ascii_of_nat (code c - 32) else c.

Fixpoint lower (s : string) : string :=
  match s with
  | EmptyString => EmptyString
  | String c r => String (lower_char c) (lower r)
  end.

(** [str.capitalize]: first character upper-cased, the rest lower-cased. *)
Definition capitalize (s : string) : string :=
  match s with
  | EmptyString => EmptyString
  | String c r => String (upper_char c) (lower r)
  end.

Fixpoint startswith (p s : string) : bool :=
  match p, s with
  | EmptyString, _ => true
  | String a p', String b s' => Ascii.eqb a b && startswith p' s'
  | String _ _, EmptyString => false
  end.

(** [needle in hay] *)
Fixpoint contains (needle hay : string) : bool :=
  startswith needle hay ||
  match hay with
  | EmptyString => false
  | String _ r => contains needle r
  end.

Fixpoint drop (n : nat) (s : string) : string :=
  match n, s with
  | O, _ => s
  | S n', String _ r => drop n' r
  | S _, EmptyString => EmptyString
  end.

Definition endswith (suf s : string) : bool :=
  (len suf <=? len s)%nat && String.eqb (drop (len s - len suf) s) suf.

(** [s.replace(old, new)] for a non-empty [old]: occurrences are taken from
    left to right and do not overlap.  [skip] counts the characters of an
    occurrence that are still to be dropped. *)
Fixpoint replace_from (old new : string) (skip : nat) (s : string) : string :=
  match s with
  | EmptyString => EmptyString
  | String c r =>
      match skip with
      | S k => replace_from old new k r
      | O =>
          if startswith old s
          then new ++ replace_from old new (len old - 1) r
          else String c (replace_from old new 0 r)
      end
  end.

Definition replace (old new s : string) : string := replace_from old new 0 s.

Fixpoint lstrip_by (p : ascii -> bool) (s : string) : string :=
  match s with
  | EmptyString => EmptyString
  | String c r => if p c then lstrip_by p r else s
  end.

Definition rev_string (s : string) : string := str (rev (chars s)).

Definition strip_by (p : ascii -> bool) (s : string) : string :=
  rev_string (lstrip_by p (rev_string (lstrip_by p s))).

(** [s.strip()] *)
Definition strip (s : string) : string := strip_by is_space s.

Definition mem_char (set : string) (c : ascii) : bool :=
  existsb (Ascii.eqb c) (chars set).

(** [s.strip(set)] *)
Definition strip_chars (set s : string) : string := strip_by (mem_char set) s.

(** [s.split(sep)] for a non-empty separator: the pieces, in order; an
    occurrence of [sep] closes the current piece.  [skip] as in
    [replace_from]; [cur] is the piece being read, reversed. *)
Fixpoint split_from (sep : string) (skip : nat) (cur : list ascii) (s : string)
  : list string :=
  match s with
  | EmptyString => [str (rev cur)]
  | String c r =>
      match skip with
      | S k => split_from sep k cur r
      | O =>
          if startswith sep s
          then str (rev cur) :: split_from sep (len sep - 1) [] r
          else split_from sep 0 (c :: cur) r
      end
  end.

Definition split (sep s : string) : list string := split_from sep 0 [] s.

(** [s.split(sep)[0]] and [s.split(sep)[-1]] *)
Definition split_first (sep s : string) : string := hd "" (split sep s).
Definition split_last (sep s : string) : string := List.last (split sep s) "".

(** [s.rsplit(sep, 1)[0]] for a one-character separator: what precedes the
    last occurrence of [sep], the whole string when there is none. *)
Definition rsplit1_first (sep : ascii) (s : string) : string :=
  let fix go (l : list ascii) : option (list ascii) :=
    match l with
    | [] => None
    | c :: r =>
        match go r with
        | Some t => Some (c :: t)
        | None => if Ascii.eqb c sep then Some [] else None
        end
    end in
  match go (chars s) with
  | Some t => str t
  | None => s
  end.

(** [' '.join(l)] *)
Fixpoint join (sep : string) (l : list string) : string :=
  match l with
  | [] => ""
  | [x] => x
  | x :: r => x ++ sep ++ join sep r
  end.

(** [''.join(c for c in s if ord(c) < 128)] *)
Fixpoint only_ascii (s : string) : string :=
  match s with
  | EmptyString => EmptyString
  | String c r => if (code c <? 128)%nat then String c (only_ascii r) else only_ascii r
  end.

(** [str.isdigit] (ASCII): non-empty and all digits. *)
Definition isdigit (s : string) : bool :=
  negb (String.eqb s "") && forallb is_digit (chars s).

(** [int(s)] for a string of decimal digits. *)
Definition int_of_digits (s : string) : N :=
  fold_left (fun acc c => (acc * 10 + N.of_nat (code c - 48))%N) (chars s) 0%N.

(** [str(n)] for a non-negative integer. *)
Definition str_of_N (n : N) : string := NilZero.string_of_uint (N.to_uint n).

End Py.

(** ** Python's [re]: a backtracking matcher

    [regex] has the constructs the patterns of the two modules use.  The
    matcher is written in continuation-passing style, so that alternatives
    are tried in Python's order: the left branch of [|] first, a greedy
    repetition as long as possible first, a lazy one as short as possible
    first.  [ic] is the [re.IGNORECASE] flag. *)

Module Re.

Inductive regex : Type :=
| Eps                                   (* empty pattern *)
| Chr (neg : bool) (p : ascii -> bool)  (* one character in (not in) a class *)
| Seq (r1 r2 : regex)                   (* r1 r2 *)
| Alt (r1 r2 : regex)                   (* r1|r2 *)
| Star (greedy : bool) (r : regex)      (* r* and r*? *)
| Grp (i : nat) (r : regex)             (* capturing group number i *)
| Behind (w : nat) (r : regex)          (* (?<=r), r of width w *)
| Ahead (r : regex)                     (* (?=r) *)
| Bol                                   (* ^ *)
| Eol                                   (* $ *)
| Wordb.                                (* \b *)

(** A matching state: the characters already passed (last one first), the
    characters to come, and the text of the groups closed so far. *)
Record state : Type := State {
  pre : list ascii;
  post : list ascii;
  groups : list (nat * list ascii)
}.

Definition pos (s : state) : nat := List.length (pre s).

Definition step_char (s : state) : option (ascii * state) :=
  match post s with
  | [] => None
  | c :: r => Some (c, State (c :: pre s) r (groups s))
  end.

Fixpoint rewind (n : nat) (s : state) : option state :=
  match n with
  | O => Some s
  | S k =>
      match pre s with
      | [] => None
      | c :: p => rewind k (State p (c :: post s) (groups s))
      end
  end.

(** Text passed between state [a] and the later state [b]. *)
Definition consumed (a b : state) : list ascii :=
  rev (firstn (pos b - pos a) (pre b)).

Definition set_group (i : nat) (t : list ascii) (s : state) : state :=
  State (pre s) (post s) ((i, t) :: groups s).

Fixpoint get_group (i : nat) (g : list (nat * list ascii)) : option (list ascii) :=
  match g with
  | [] => None
  | (j, t) :: r => if Nat.eqb i j then Some t else get_group i r
  end.

Definition class_match (ic : bool) (p : ascii -> bool) (c : ascii) : bool :=
  if ic then p c || p (Py.lower_char c) || p (Py.upper_char c) else p c.

Definition at_word_boundary (s : state) : bool :=
  let before := match pre s with c :: _ => Py.is_word c | [] => false end in
  let after := match post s with c :: _ => Py.is_word c | [] => false end in
  xorb before after.

Definition at_eol (s : state) : bool :=
  match post s with
  | [] => true
  | [c] => Ascii.eqb c "010"%char
  | _ => false
  end.

Definition orelse {A} (a : option A) (b : unit -> option A) : option A :=
  match a with
  | Some x => Some x
  | None => b tt
  end.

Fixpoint run {A : Type} (ic : bool) (r : regex) (s : state)
    (k : state -> option A) {struct r} : option A :=
  match r with
  | Eps => k s
  | Chr neg p =>
      match step_char s with
      | Some (c, s') => if xorb neg (class_match ic p c) then k s' else None
      | None => None
      end
  | Seq r1 r2 => run ic r1 s (fun s' => run ic r2 s' k)
  | Alt r1 r2 => orelse (run ic r1 s k) (fun _ => run ic r2 s k)
  | Star greedy r0 =>
      (fix loop (n : nat) (s : state) {struct n} : option A :=
         match n with
         | O => k s
         | S n' =>
             let more (_ : unit) :=
               run ic r0 s (fun s' =>
                 if (List.length (post s') <? List.length (post s))%nat
                 then loop n' s' else None) in
             if greedy then orelse (more tt) (fun _ => k s)
             else orelse (k s) more
         end) (List.length (post s)) s
  | Grp i r0 => run ic r0 s (fun s' => k (set_group i (consumed s s') s'))
  | Behind w r0 =>
      match rewind w s with
      | Some s0 =>
          match run ic r0 s0 (fun s' => if Nat.eqb (pos s') (pos s) then Some tt else None) with
          | Some _ => k s
          | None => None
          end
      | None => None
      end
  | Ahead r0 =>
      match run ic r0 s (fun _ => Some tt) with
      | Some _ => k s
      | None => None
      end
  | Bol => match pre s with [] => k s | _ => None end
  | Eol => if at_eol s then k s else None
  | Wordb => if at_word_boundary s then k s else None
  end.

(** *** Pattern constructors *)

Definition chr (c : ascii) : regex := Chr false (Ascii.eqb c).

Fixpoint lit_chars (l : list ascii) : regex :=
  match l with
  | [] => Eps
  | [c] => chr c
  | c :: r => Seq (chr c) (lit_chars r)
  end.

(** A literal run of characters. *)
Definition lit (s : string) : regex := lit_chars (Py.chars s).

Fixpoint seq (l : list regex) : regex :=
  match l with
  | [] => Eps
  | [r] => r
  | r :: t => Seq r (seq t)
  end.

Fixpoint alt (l : list regex) : regex :=
  match l with
  | [] => Eps
  | [r] => r
  | r :: t => Alt r (alt t)
  end.

Definition star (r : regex) : regex := Star true r.          (* r*  *)
Definition lazy_star (r : regex) : regex := Star false r.    (* r*? *)
Definition plus (r : regex) : regex := Seq r (Star true r).  (* r+  *)
Definition lazy_plus (r : regex) : regex := Seq r (Star false r). (* r+? *)
Definition opt (r : regex) : regex := Alt r Eps.             (* r?  *)

Definition digit : regex := Chr false Py.is_digit.           (* \d *)
Definition nondigit : regex := Chr true Py.is_digit.         (* \D *)
Definition word : regex := Chr false Py.is_word.             (* \w *)
Definition space : regex := Chr false Py.is_space.           (* \s *)
Definition newline : ascii := "010"%char.
Definition dot : regex := Chr true (Ascii.eqb newline).      (* . *)
Definition anychar : regex := Chr false (fun _ => true).     (* [\s\S] *)
Definition letter : regex := Chr false Py.is_alpha.          (* [a-zA-Z] *)
(** [[...]]: one of the characters of [set] or a character of class [p]. *)
Definition oneof (set : string) (p : ascii -> bool) : regex :=
  Chr false (fun c => Py.mem_char set c || p c).
(** [[^...]] *)
Definition noneof (set : string) : regex := Chr true (Py.mem_char set).
Definition no_class (c : ascii) : bool := false.

(** Width of a pattern of fixed width, for look-behind. *)
Fixpoint width (r : regex) : nat :=
  match r with
  | Chr _ _ => 1
  | Seq a b => width a + width b
  | Grp _ a => width a
  | _ => 0
  end.

(** [(?<=r)] *)
Definition behind (r : regex) : regex := Behind (width r) r.

(** *** Searching *)

Definition start_state (s : string) : state := State [] (Py.chars s) [].

Definition clear_groups (s : state) : state := State (pre s) (post s) [].

(** One attempt at the position of [s]; with [must_advance] an empty match
    is refused (used after an empty match by the iterating functions). *)
Definition attempt (ic : bool) (r : regex) (must_advance : bool) (s : state)
  : option state :=
  run ic r (clear_groups s)
      (fun s' => if must_advance && Nat.eqb (pos s') (pos s) then None else Some s').

(** Leftmost match at or after the position of [s]: where it starts and
    the state where it ends. *)
Fixpoint search_from (ic : bool) (r : regex) (fuel : nat) (must_advance : bool)
    (s : state) : option (state * state) :=
  match attempt ic r must_advance s with
  | Some e => Some (s, e)
  | None =>
      match fuel with
      | O => None
      | S f =>
          match step_char s with
          | Some (_, s') => search_from ic r f false s'
          | None => None
          end
      end
  end.

Record mtch : Type := Match {
  m_start : nat;
  m_end : nat;
  m_text : string;
  m_groups : list (nat * list ascii)
}.

Definition mk_match (b e : state) : mtch :=
  Match (pos b) (pos e) (Py.str (consumed b e)) (groups e).

(** [m.group(i)]; a group that took no part in the match gives [None]. *)
Definition group (i : nat) (m : mtch) : option string :=
  option_map Py.str (get_group i (m_groups m)).

(** [m.group(i)] where the group is known to have matched. *)
Definition group_str (i : nat) (m : mtch) : string :=
  match group i m with Some t => t | None => "" end.

(** [pattern.search(s)] *)
Definition search (ic : bool) (r : regex) (s : string) : option mtch :=
  let st := start_state s in
  match search_from ic r (List.length (post st)) false st with
  | Some (b, e) => Some (mk_match b e)
  | None => None
  end.

(** The successive matches of [pattern.finditer(s)]: the scan resumes where
    the previous match ended, and an empty match forces the next one at
    the same position to be non-empty. *)
Fixpoint iter_from (ic : bool) (r : regex) (fuel : nat) (must_advance : bool)
    (s : state) : list mtch :=
  match fuel with
  | O => []
  | S f =>
      match search_from ic r (List.length (post s)) must_advance s with
      | None => []
      | Some (b, e) =>
          mk_match b e :: iter_from ic r f (Nat.eqb (pos b) (pos e)) e
      end
  end.

Definition finditer (ic : bool) (r : regex) (s : string) : list mtch :=
  iter_from ic r (2 * String.length s + 2) false (start_state s).

(** [pattern.findall(s)] for a pattern without group: the matched texts. *)
Definition findall0 (ic : bool) (r : regex) (s : string) : list string :=
  map m_text (finditer ic r s).

(** [pattern.findall(s)] for a pattern with one group: the texts of group 1. *)
Definition findall1 (ic : bool) (r : regex) (s : string) : list string :=
  map (group_str 1) (finditer ic r s).

(** [pattern.findall(s)] for a pattern with two groups: pairs of texts. *)
Definition findall2 (ic : bool) (r : regex) (s : string) : list (string * string) :=
  map (fun m => (group_str 1 m, group_str 2 m)) (finditer ic r s).

Definition slice (b e : nat) (s : string) : string := String.substring b (e - b) s.

(** [re.split(pattern, s)] for a pattern without group. *)
Definition split (ic : bool) (r : regex) (s : string) : list string :=
  let fix go (last : nat) (ms : list mtch) : list string :=
    match ms with
    | [] => [slice last (String.length s) s]
    | m :: t => slice last (m_start m) s :: go (m_end m) t
    end in
  go 0 (finditer ic r s).

(** [re.sub(pattern, repl, s)] for a replacement without back-reference. *)
Definition sub (ic : bool) (r : regex) (repl : string) (s : string) : string :=
  let fix go (last : nat) (ms : list mtch) : string :=
    match ms with
    | [] => slice last (String.length s) s
    | m :: t => slice last (m_start m) s ++ repl ++ go (m_end m) t
    end in
  go 0 (finditer ic r s).

End Re.

(** ** Outcomes

    A function of the source either returns a value or is left by an
    exception; [Raise] carries the name of the exception class. *)

Inductive result (A : Type) : Type :=
| Ok (a : A)
| Raise (exn : string).

Arguments Ok {A} a.
Arguments Raise {A} exn.

Definition bind {A B : Type} (r : result A) (k : A -> result B) : result B :=
  match r with
  | Ok a => k a
  | Raise e => Raise e
  end.

Notation "'let*' x := e 'in' k" := (bind e (fun x => k))
  (at level 10, x name, e at level 200, k at level 200).

(** [l[i]] on a Python list: [IndexError] out of range. *)
Definition index {A : Type} (l : list A) (i : nat) : result A :=
  match nth_error l i with
  | Some x => Ok x
  | None => Raise "IndexError"
  end.

(** [m.group(i)] on the result of a search: [AttributeError] on [None]. *)
Definition group_of (m : option Re.mtch) (i : nat) : result string :=
  match m with
  | Some x => Ok (Re.group_str i x)
  | None => Raise "AttributeError"
  end.

(** The double quote, as a character and as a string.  In the comments
    that quote a pattern of the source it is written <dq>. *)
Definition dq : ascii := ascii_of_nat 34.
Definition q : string := String dq "".
(** The backtick. *)
Definition bt : ascii := "`"%char.

(** ** analisisScript01.py *)

Module Analisis.
Import Re.

(** [word_to_num] *)
Definition word_to_num : list (string * N) := [("zero", 0%N); ("one", 1%N)].

Fixpoint dict_get {V : Type} (d : list (string * V)) (key : string) : option V :=
  match d with
  | [] => None
  | (k0, v) :: r => if String.eqb k0 key then Some v else dict_get r key
  end.

Definition convert_word_to_num (word : string) : option N :=
  dict_get word_to_num (Py.lower word).

(** [feature_key.rsplit('_', 1)[0]] *)
Definition without_lastProperty (feature_key : string) : string :=
  Py.rsplit1_first "_"%char feature_key.

(** [(?<=The only allowed template.spec.restartPolicy value is\s)\<dq>([A-Za-z]+)\<dq>],
    IGNORECASE *)
Definition template_spec_policy_pattern01 : regex :=
  seq [behind (seq [lit "The only allowed template"; dot; lit "spec"; dot;
                    lit "restartPolicy value is"; space]);
       chr dq; Grp 1 (plus letter); chr dq].

(** [\<dq>([A-Za-z]+)\<dq>] *)
Definition quoted_word_pattern : regex :=
  seq [chr dq; Grp 1 (plus letter); chr dq].

Definition extract_constraints_template_onlyAllowed (description feature_key : string)
  : result string :=
  let feature_with_spec := feature_key ++ "_spec_restartPolicy" in
  if Py.contains "value is" description then
    match search true template_spec_policy_pattern01 description with
    | None => Raise "ValueError"
    | Some policy_match =>
        let policy_Always := feature_with_spec ++ "_" ++ group_str 1 policy_match in
        let policy_OnFailure := feature_with_spec ++ "_OnFailure" in
        let policy_Never := feature_with_spec ++ "_Never" in
        Ok ("(" ++ policy_Always ++ " => " ++ feature_key ++ ") & (!" ++ policy_Never
            ++ ") & (!" ++ policy_OnFailure ++ ")")
    end
  else if Py.contains "values are" description then
    let policies_match := findall1 false quoted_word_pattern description in
    let policies_Always := feature_with_spec ++ "_Always" in
    if (List.length policies_match <? 2)%nat then Raise "ValueError"
    else
      let allowed_policies := map (fun policy => feature_with_spec ++ "_" ++ policy) policies_match in
      Ok ("(" ++ Py.join " | " allowed_policies ++ "  => " ++ feature_key ++ ") & (!"
          ++ policies_Always ++ ")")
  else Raise "ValueError".

Definition extract_constraints_string_oneOf (description feature_key : string) : string :=
  let feature_without_lastProperty := without_lastProperty feature_key in
  let uvl_rule :=
    if Py.contains "indicates which one of" description then
      let kind_authentication_group := feature_without_lastProperty ++ "_group" in
      let kind_authentication_serviceAccount := feature_without_lastProperty ++ "_serviceAccount" in
      let kind_authentication_User := feature_without_lastProperty ++ "_user" in
      "(" ++ feature_key ++ " == 'Group' => " ++ kind_authentication_group ++ ")"
      ++ " | (" ++ feature_key ++ " == 'ServiceAccount' => " ++ kind_authentication_serviceAccount ++ ")"
      ++ " | (" ++ feature_key ++ " == 'User' => " ++ kind_authentication_User ++ ")"
      ++ " & !(" ++ kind_authentication_group ++ " & " ++ kind_authentication_serviceAccount ++ ")"
      ++ " & !(" ++ kind_authentication_serviceAccount ++ " & " ++ kind_authentication_User ++ ")"
      ++ " & !(" ++ kind_authentication_group ++ " & " ++ kind_authentication_User ++ ")"
    else "" in
  Py.strip uvl_rule.

(** [\b(Approved|Denied|Failed)\b] *)
Definition conditions_pattern : regex :=
  seq [Wordb; Grp 1 (alt [lit "Approved"; lit "Denied"; lit "Failed"]); Wordb].

(** [(?<=conditions may not be\s)\<dq>([A-Za-z]+)\<dq>\s+or\s+\<dq>([A-Za-z]+)\<dq>] *)
Definition type_notbe_pattern : regex :=
  seq [behind (seq [lit "conditions may not be"; space]);
       chr dq; Grp 1 (plus letter); chr dq; plus space; lit "or"; plus space;
       chr dq; Grp 2 (plus letter); chr dq].

Definition extract_constraints_multiple_conditions (description feature_key : string)
  : result string :=
  let p := without_lastProperty feature_key in
  let* uvl_rule :=
    (if Py.contains "conditions may not be" description then
       let type_match := search false type_notbe_pattern description in
       let* type01 := group_of type_match 1 in
       let* type02 := group_of type_match 2 in
       let types_notbe := "!" ++ feature_key ++ "_" ++ type01 ++ " & !" ++ feature_key ++ "_" ++ type02 in
       let conditions_match := findall1 false conditions_pattern description in
       let* c0 := index conditions_match 0 in
       let* c1 := index conditions_match 1 in
       let* c2 := index conditions_match 2 in
       Ok (p ++ " => (" ++ p ++ "_type_" ++ c0 ++ " | " ++ p ++ "_type_" ++ c1 ++ " | "
           ++ p ++ "_type_" ++ c2 ++ ") => " ++ types_notbe)
     else if Py.contains "Details about a waiting" description then
       let container_state01 := p ++ "_running" in
       let container_state02 := p ++ "_terminated" in
       Ok (p ++ " => (" ++ feature_key ++ " => !" ++ container_state01 ++ " & !" ++ container_state02 ++ ")"
           ++ " & (" ++ container_state01 ++ " => !" ++ feature_key ++ " & !" ++ container_state02 ++ ")"
           ++ " & (" ++ container_state02 ++ " => !" ++ feature_key ++ " & !" ++ container_state01 ++ ")"
           ++ "& (!" ++ container_state01 ++ " & !" ++ container_state02 ++ " => " ++ feature_key ++ ")")
     else if Py.contains "TCPSocket is NOT" description then
       let action_lifecycle_exec := p ++ "_exec" in
       let action_lifecycle_httpGet := p ++ "_httpGet" in
       let action_lifecycle_sleep := p ++ "_sleep" in
       Ok (p ++ " => (" ++ action_lifecycle_exec ++ " | " ++ action_lifecycle_httpGet ++ " | "
           ++ action_lifecycle_sleep ++ ")"
           ++ " & !(" ++ action_lifecycle_exec ++ " & " ++ action_lifecycle_httpGet ++ ")"
           ++ " & !(" ++ action_lifecycle_exec ++ " & " ++ action_lifecycle_sleep ++ ")"
           ++ " & !(" ++ action_lifecycle_httpGet ++ " & " ++ action_lifecycle_sleep ++ ")"
           ++ " & !" ++ feature_key)
     else Ok "") in
  Ok (Py.strip uvl_rule).

Definition xor_rule (p feature_key other : string) : string :=
  p ++ " => (" ++ feature_key ++ " | " ++ other ++ ") & !(" ++ feature_key ++ " & " ++ other ++ ")".

Definition extract_constraints_primary_or (description feature_key : string) : string :=
  let p := without_lastProperty feature_key in
  if Py.contains "non-resource access request" description then
    xor_rule p feature_key (p ++ "_resourceAttributes")
  else if Py.contains "succeededIndexes specifies" description then
    p ++ " => " ++ feature_key ++ " | " ++ (p ++ "_succeededCount")
  else if Py.contains "Represents the requirement on the container" description then
    xor_rule p feature_key (p ++ "_onPodConditions")
  else if Py.contains "ResourceClaim object in the same namespace as this pod" description then
    xor_rule p feature_key (p ++ "_resourceClaimTemplateName")
  else if Py.contains "datasetUUID is" description then
    xor_rule p feature_key (p ++ "_datasetName")
  else "".

(** [(?<=a least one of\s)(\w+)\s+or\s+(\w+)], IGNORECASE *)
Definition least_one_pattern01 : regex :=
  seq [behind (seq [lit "a least one of"; space]);
       Grp 1 (plus word); plus space; lit "or"; plus space; Grp 2 (plus word)].

(** [(?<=Exactly one of\s)`(\w+)`\s+or\s+`(\w+)`], IGNORECASE *)
Definition exactly_least_one_pattern02 : regex :=
  seq [behind (seq [lit "Exactly one of"; space]);
       chr bt; Grp 1 (plus word); chr bt; plus space; lit "or"; plus space;
       chr bt; Grp 2 (plus word); chr bt].

(** [(?<=At least one of\s)`(\w+)`\s+and\s+`(\w+)`], IGNORECASE *)
Definition at_least_one_pattern01 : regex :=
  seq [behind (seq [lit "At least one of"; space]);
       chr bt; Grp 1 (plus word); chr bt; plus space; lit "and"; plus space;
       chr bt; Grp 2 (plus word); chr bt].

Definition extract_constraints_least_one (description feature_key : string) : string :=
  let p := without_lastProperty feature_key in
  let a_least_match01 := search true least_one_pattern01 description in
  let exactly_match01 := search true exactly_least_one_pattern02 description in
  let at_least_match01 := search true at_least_one_pattern01 description in
  match a_least_match01, exactly_match01, at_least_match01 with
  | Some m, _, _ =>
      p ++ " => " ++ p ++ "_" ++ group_str 1 m ++ " | " ++ p ++ "_" ++ group_str 2 m
  | None, Some m, _ =>
      let value01 := group_str 1 m in
      let value02 := group_str 2 m in
      p ++ " => (" ++ p ++ "_" ++ value01 ++ " | " ++ p ++ "_" ++ value02 ++ ") & !("
        ++ p ++ "_" ++ value01 ++ " & " ++ p ++ "_" ++ value02 ++ ")"
  | None, None, Some m =>
      p ++ " => " ++ p ++ "_" ++ group_str 1 m ++ " | " ++ p ++ "_" ++ group_str 2 m
  | None, None, None => ""
  end.

(** [If the operator is\s+(\w+)\s+or\s+(\w+)], IGNORECASE *)
Definition operator_is_pattern01 : regex :=
  seq [lit "If the operator is"; plus space; Grp 1 (plus word); plus space; lit "or";
       plus space; Grp 2 (plus word)].

(** [If the operator is\s+(\w+)] *)
Definition operator_if_pattern02 : regex :=
  seq [lit "If the operator is"; plus space; Grp 1 (plus word)].

Definition extract_constraints_operator (description feature_key : string) : result string :=
  let p := without_lastProperty feature_key in
  let operator_match01 := findall2 true operator_is_pattern01 description in
  if negb (Nat.eqb (List.length operator_match01) 0)
     && negb (Py.contains "is Exists," description) then
    let* type_property01 := index operator_match01 0 in
    let* type_property02 := index operator_match01 1 in
    let uvl_rule :=
      "(" ++ p ++ "_operator_" ++ fst type_property01 ++ " | " ++ p ++ "_operator_"
      ++ snd type_property01 ++ " => " ++ feature_key ++ ") | (" ++ p ++ "_operator_"
      ++ fst type_property02 ++ " |" ++ p ++ "_operator_" ++ snd type_property02
      ++ " => !" ++ feature_key ++ ")" in
    if Py.contains "the operator is Gt or Lt" description then
      let* type_property05 := index operator_match01 2 in
      Ok (uvl_rule ++ "| (" ++ p ++ "_operator_" ++ fst type_property05 ++ " |" ++ p
          ++ "_operator_" ++ snd type_property05 ++ " => " ++ feature_key ++ ")")
    else Ok uvl_rule
  else if Py.contains "is Exists" description then
    let operator_match02 := search false operator_if_pattern02 description in
    let* required_value := group_of operator_match02 1 in
    Ok (p ++ "_operator_" ++ required_value ++ " => !" ++ feature_key)
  else Ok "".

(** [(?<=Note that this field cannot be set when spec.os.name is\s)([a-zA-Z\s,]+)(?=\.)],
    IGNORECASE *)
Definition osName_pattern : regex :=
  seq [behind (seq [lit "Note that this field cannot be set when spec"; dot; lit "os"; dot;
                    lit "name is"; space]);
       Grp 1 (plus (oneof "," (fun c => Py.is_alpha c || Py.is_space c)));
       Ahead (chr "."%char)].

(** [^(.*?marker)] *)
Definition prefix_upto (marker : string) : regex :=
  seq [Bol; Grp 1 (seq [lazy_star dot; lit marker])].

Definition list_anothers : list string :=
  ["_v1_Container_securityContext_"; "_v1_EphemeralContainer_securityContext_";
   "_PodSecurityContext_"; "_v1_SecurityContext_"].

Definition extract_constraints_os_name (description feature_key : string) : result string :=
  let osName_match := search true osName_pattern description in
  let path_osName := "os_name" in
  match osName_match with
  | None => Ok ""
  | Some om =>
      let name_obtained := group_str 1 om in
      let rule (feature_without0 : string) :=
        feature_without0 ++ "_" ++ path_osName ++ "_" ++ name_obtained ++ " => !" ++ feature_key in
      if Py.contains "_template_spec_" feature_key then
        match search false (prefix_upto "_template_spec") feature_key with
        | Some m => Ok (rule (group_str 1 m))
        | None => Raise "UnboundLocalError"
        end
      else if Py.contains "_Pod_spec_" feature_key then
        match search false (prefix_upto "_Pod_spec") feature_key with
        | Some m => Ok (rule (group_str 1 m))
        | None => Raise "UnboundLocalError"
        end
      else if Py.contains "_PodList_items_spec_" feature_key then
        let* feature_without0 := group_of (search false (prefix_upto "_PodList_items_spec") feature_key) 1 in
        Ok (rule feature_without0)
      else if Py.contains "_core_v1_PodSpec_" feature_key then
        let* feature_without0 := group_of (search false (prefix_upto "_core_v1_PodSpec") feature_key) 1 in
        Ok (rule feature_without0)
      else if Py.contains "_PodTemplateSpec_spec_" feature_key then
        let* feature_without0 := group_of (search false (prefix_upto "_PodTemplateSpec_spec") feature_key) 1 in
        Ok (rule feature_without0)
      else if existsb (fun pattern => Py.contains pattern feature_key) list_anothers then
        let predefined_feature_os := "io_k8s_api_core_v1_PodSpec_os_name" in
        Ok (predefined_feature_os ++ "_" ++ name_obtained ++ " => !" ++ feature_key)
      else Ok ""
  end.

(** [\`([A-Za-z]+)\`] *)
Definition exclusive_pattern : regex :=
  seq [chr bt; Grp 1 (plus letter); chr bt].

Definition extract_constraints_mutualy_exclusive (description feature_key : string)
  : result string :=
  let exclusive_match := findall1 false exclusive_pattern description in
  let p := without_lastProperty feature_key in
  match exclusive_match with
  | [] => Ok ""
  | _ =>
      let* type_property01 := index exclusive_match 0 in
      let* type_property02 := index exclusive_match 1 in
      Ok ("(" ++ p ++ "_" ++ type_property01 ++ " => !" ++ p ++ "_" ++ type_property02
          ++ ") & (" ++ p ++ "_" ++ type_property02 ++ " => !" ++ p ++ "_" ++ type_property01 ++ ")")
  end.

Definition extract_constraints_if (description feature_key : string) : result string :=
  let only_if_pattern := quoted_word_pattern in
  let if_match := search false only_if_pattern description in
  let p := without_lastProperty feature_key in
  match if_match, Py.contains "exempt" feature_key with
  | Some m, false =>
      let value_obtained := group_str 1 m in
      if Py.contains "Must be set if type is" description
         || Py.contains "Must be set if and only if type" description
         || Py.contains "may be non-empty only if" description
      then Ok (p ++ "_type_" ++ value_obtained ++ " <=> " ++ feature_key)
      else Ok (p ++ "_type_" ++ value_obtained ++ " => " ++ feature_key)
  | _, true =>
      let exempt_match := findall1 false only_if_pattern description in
      let* type_property01 := index exempt_match 0 in
      let* type_property02 := index exempt_match 1 in
      Ok ("(" ++ p ++ "_type_" ++ type_property01 ++ " => !" ++ feature_key ++ ") | ("
          ++ p ++ "_type_" ++ type_property02 ++ " => " ++ feature_key ++ ")")
  | None, false => Ok ""
  end.

(** [Required when\s+(\w+)\s+is\s+set\s+to\s+<dq>([^<dq>]+)<dq>], IGNORECASE *)
Definition required_when_pattern : regex :=
  seq [lit "Required when"; plus space; Grp 1 (plus word); plus space; lit "is"; plus space;
       lit "set"; plus space; lit "to"; plus space; chr dq; Grp 2 (plus (noneof q)); chr dq].

(** [must be unset when\s+(\w+)\s+is\s+set\s+to\s+<dq>([^<dq>]+)<dq>], IGNORECASE *)
Definition must_be_unset_pattern : regex :=
  seq [lit "must be unset when"; plus space; Grp 1 (plus word); plus space; lit "is";
       plus space; lit "set"; plus space; lit "to"; plus space;
       chr dq; Grp 2 (plus (noneof q)); chr dq].

(** [Required when\s+`(\w+)`\s+is\s+set\s+to\s+`?\<dq>?([^\<dq>`]+)\<dq>?`?], IGNORECASE *)
Definition required_when_pattern_strategy : regex :=
  seq [lit "Required when"; plus space; chr bt; Grp 1 (plus word); chr bt; plus space;
       lit "is"; plus space; lit "set"; plus space; lit "to"; plus space;
       opt (chr bt); opt (chr dq); Grp 2 (plus (noneof (String dq "`")));
       opt (chr dq); opt (chr bt)].

Definition extract_constraints_required_when (description feature_key : string) : string :=
  let feature_without_lastProperty := without_lastProperty feature_key in
  let required_match := search true required_when_pattern description in
  let unset_match := search true must_be_unset_pattern description in
  let when_match := search true required_when_pattern_strategy description in
  match required_match, unset_match, when_match with
  | Some rm, Some um, _ =>
      let required_property := group_str 1 rm in
      let required_value := group_str 2 rm in
      let unset_property := group_str 1 um in
      let unset_value := group_str 2 um in
      (feature_without_lastProperty ++ "_" ++ required_property ++ "_" ++ required_value
         ++ " => " ++ feature_key)
      ++ " & !(" ++ feature_without_lastProperty ++ "_" ++ unset_property ++ "_" ++ unset_value ++ ")"
  | None, None, Some wm =>
      let value_property := group_str 1 wm in
      let value_default := group_str 2 wm in
      feature_without_lastProperty ++ "_" ++ value_property ++ "_" ++ value_default
        ++ " => " ++ feature_key
  | _, _, _ => ""
  end.

(** [(?<=Minimum value is\s)(\d+)] *)
Definition value_minimum_pattern : regex :=
  seq [behind (seq [lit "Minimum value is"; space]); Grp 1 (plus digit)].

(** [(?<=minimum valid value for expirationSeconds is\s)(\d+)] *)
Definition value_text_pattern : regex :=
  seq [behind (seq [lit "minimum valid value for expirationSeconds is"; space]);
       Grp 1 (plus digit)].

(** [(?<=in the range\s)(\d+)-(\d+)] *)
Definition in_the_range_pattern : regex :=
  seq [behind (seq [lit "in the range"; space]);
       Grp 1 (plus digit); chr "-"%char; Grp 2 (plus digit)].

(** The function ends with
    [if uvl_rule is not None: return uvl_rule] followed by a [raise]; as
    [uvl_rule] starts as the empty string and is only ever assigned
    strings, the test always succeeds: the outcome is always [Ok]. *)
Definition extract_minimum_value (description feature_key : string) : result string :=
  let minimum_match := search false value_minimum_pattern description in
  let minimum_text_match := search false value_text_pattern description in
  let range_match := search false in_the_range_pattern description in
  let uvl_rule : option string :=
    Some
      match minimum_match with
      | Some m => feature_key ++ " > " ++ group_str 1 m
      | None =>
          if Py.contains "Value must be non-negative" description then feature_key ++ " > 0"
          else
            match minimum_text_match with
            | Some m => feature_key ++ " > " ++ group_str 1 m
            | None =>
                match range_match with
                | Some m =>
                    feature_key ++ " > " ++ group_str 1 m ++ " & " ++ feature_key ++ " < "
                      ++ group_str 2 m
                | None => ""
                end
            end
      end in
  match uvl_rule with
  | Some r => Ok r
  | None => Raise "ValueError"
  end.

(** [(\d+)\s*<\s*\w+\s*<\s*(\d+)] *)
Definition range_pattern : regex :=
  seq [Grp 1 (plus digit); star space; chr "<"%char; star space; plus word; star space;
       chr "<"%char; star space; Grp 2 (plus digit)].

(** [(\d+)\s*-\s*(\d+)\s*\(inclusive\)] *)
Definition inclusive_range_pattern : regex :=
  seq [Grp 1 (plus digit); star space; chr "-"%char; star space; Grp 2 (plus digit);
       star space; lit "(inclusive)"].

(** [Number\s+must\s+be\s+in\s+the\s+range\s+(\d+)\s+to\s+(\d+)], IGNORECASE *)
Definition range_text_pattern : regex :=
  seq [lit "Number"; plus space; lit "must"; plus space; lit "be"; plus space; lit "in";
       plus space; lit "the"; plus space; lit "range"; plus space; Grp 1 (plus digit);
       plus space; lit "to"; plus space; Grp 2 (plus digit)].

(** [must be greater than(?: or equal to)? (\w+)], IGNORECASE *)
Definition must_be : regex :=
  seq [lit "must be greater than"; opt (lit " or equal to"); chr " "%char; Grp 1 (plus word)].

(** [less than or equal to (\d+)], IGNORECASE *)
Definition less_than_pattern : regex :=
  seq [lit "less than or equal to "; Grp 1 (plus digit)].

(** [must\s+be\s+between\s+(\d+)\s+and\s+(\d+)], IGNORECASE *)
Definition between_text_pattern : regex :=
  seq [lit "must"; plus space; lit "be"; plus space; lit "between"; plus space;
       Grp 1 (plus digit); plus space; lit "and"; plus space; Grp 2 (plus digit)].

(** [int(g) if g.isdigit() else convert_word_to_num(g)] *)
Definition number_of (g : string) : option N :=
  if Py.isdigit g then Some (Py.int_of_digits g) else convert_word_to_num g.

(** [(min_bound, max_bound, is_port_number, is_other_number)] *)
Definition bounds : Type := (option N * option N * bool * bool)%type.

Definition extract_bounds (description : string) : result bounds :=
  let is_port_number := Py.contains "valid port number" (Py.lower description) in
  let description := Py.lower description in
  let description :=
    fold_left (fun d (wn : string * N) => Py.replace (fst wn) (Py.str_of_N (snd wn)) d)
              word_to_num description in
  let two (m : mtch) : option N * option N :=
    (Some (Py.int_of_digits (group_str 1 m)), Some (Py.int_of_digits (group_str 2 m))) in
  match search false range_pattern description with
  | Some m => Ok (two m, is_port_number, false)
  | None =>
  match search false inclusive_range_pattern description with
  | Some m => Ok (two m, is_port_number, false)
  | None =>
  match search true range_text_pattern description with
  | Some m => Ok (two m, is_port_number, false)
  | None =>
  match search true between_text_pattern description with
  | Some m => Ok (two m, is_port_number, true)
  | None =>
      let greater_than_match := search true must_be description in
      let less_than_match := search true less_than_pattern description in
      let '(min_bound, is_other_number) :=
        match greater_than_match with
        | Some m => (number_of (group_str 1 m), true)
        | None => (None, false)
        end in
      match less_than_match with
      | Some m =>
          match number_of (group_str 1 m) with
          | Some max_bound => Ok (min_bound, Some (max_bound + 1)%N, is_port_number, true)
          | None => Raise "TypeError"
          end
      | None => Ok (min_bound, None, is_port_number, is_other_number)
      end
  end end end end.

Definition both_bounds (feature_key : string) (lo hi : N) : string :=
  feature_key ++ " > " ++ Py.str_of_N lo ++ " & " ++ feature_key ++ " < " ++ Py.str_of_N hi.

Definition any_in (phrases : list string) (text : string) : bool :=
  existsb (fun p => Py.contains p text) phrases.

(** The rule for a Boolean record: the first matching test of the chain. *)
Definition boolean_rule (feature_key description : string) : result (option string) :=
  if Py.contains "Number must be in the range" description then
    let feature_without_lastProperty := without_lastProperty feature_key in
    Ok (Some (feature_without_lastProperty ++ " => (" ++ feature_key ++ "_asInteger > 1 & "
              ++ feature_key ++ "_asInteger < 65535) | (" ++ feature_key
              ++ "_asString == 'IANA_SVC_NAME')"))
  else if any_in ["required when"; "Required when"] description then
    Ok (Some (extract_constraints_required_when description feature_key))
  else if any_in ["only if type"; "Must be set if type is"; "must be non-empty if and only if";
                  "field MUST be empty if"; "may be non-empty only if"] description then
    let* first_constraint := extract_constraints_if description feature_key in
    Ok (Some first_constraint)
  else if Py.contains "selector can be used to match multiple param objects based on their labels"
                      description then
    let* constraint := extract_constraints_mutualy_exclusive description feature_key in
    Ok (Some constraint)
  else if Py.contains "Note that this field cannot be" description then
    let* constraint := extract_constraints_os_name description feature_key in
    Ok (Some constraint)
  else if Py.contains "If the operator is" description then
    let* constraint := extract_constraints_operator description feature_key in
    Ok (Some constraint)
  else if any_in ["a least one of"; "Exactly one of"; "At least one of"] description then
    Ok (Some (extract_constraints_least_one description feature_key))
  else if any_in ["resource access request"; "succeededIndexes specifies";
                  "Represents the requirement on the container";
                  "ResourceClaim object in the same namespace as this pod";
                  "datasetUUID is"] description then
    Ok (Some (extract_constraints_primary_or description feature_key))
  else if any_in ["conditions may not be"; "Details about a waiting"; "TCPSocket is NOT"]
                 description then
    let* constraint := extract_constraints_multiple_conditions description feature_key in
    Ok (Some constraint)
  else if Py.contains "template.spec.restartPolicy" description then
    let* r := extract_constraints_template_onlyAllowed description feature_key in
    Ok (Some r)
  else Ok None.

(** The rule for an Integer record. *)
Definition integer_rule (feature_key description : string) (b : bounds)
  : result (option string) :=
  let '(min_bound, max_bound, is_port_number, _) := b in
  if is_port_number then
    let min_bound := match min_bound with None => 1%N | Some v => v end in
    let max_bound := match max_bound with None => 65535%N | Some v => v end in
    Ok (Some (both_bounds feature_key min_bound max_bound))
  else
    match min_bound, max_bound with
    | Some lo, Some hi => Ok (Some (both_bounds feature_key lo hi))
    | Some lo, None => Ok (Some (feature_key ++ " > " ++ Py.str_of_N lo))
    | None, Some hi => Ok (Some (feature_key ++ " < " ++ Py.str_of_N hi))
    | None, None =>
        if any_in ["Minimum value is"; "Value must be non-negative"; "minimum valid value for";
                   "in the range"] description then
          let* r := extract_minimum_value description feature_key in
          Ok (Some r)
        else Ok None
    end.

(** The rule for a record of type [""] or ["string"]. *)
Definition string_rule (feature_key description : string) : result (option string) :=
  if Py.contains "conditions may not be" description then
    let* constraint := extract_constraints_multiple_conditions description feature_key in
    Ok (Some constraint)
  else if Py.contains "indicates which one of" description then
    Ok (Some (extract_constraints_string_oneOf description feature_key))
  else Ok None.

(** [convert_to_uvl_constraints], for a description that is a string (the
    records written by the generator always are).  The module global
    [count] is passed in and out. *)
Definition convert_to_uvl_constraints (count : nat) (feature_key description type_data : string)
  : result (option string * nat) :=
  let* b := extract_bounds description in
  let* uvl_rule :=
    (if String.eqb type_data "Boolean" || String.eqb type_data "boolean" then
       boolean_rule feature_key description
     else if String.eqb type_data "Integer" || String.eqb type_data "integer" then
       integer_rule feature_key description b
     else if String.eqb type_data "" || String.eqb type_data "string" then
       string_rule feature_key description
     else Ok None) in
  match uvl_rule with
  | None => Ok (None, S count)
  | Some r => Ok (Some r, count)
  end.

(** One element of the list [features['restrictions']]. *)
Record restriction : Type := Restriction {
  feature_name : string;
  description : string;
  type_data : string
}.

(** The loop of [generar_constraintsDef]: [if uvl_rule: uvl_rules.append(uvl_rule)];
    a rule that is [None] or the empty string is not appended. *)
Fixpoint constraints_loop (count : nat) (uvl_rules : list string) (l : list restriction)
  : result (list string * nat) :=
  match l with
  | [] => Ok (uvl_rules, count)
  | restriction :: rest =>
      let* rc := convert_to_uvl_constraints count (feature_name restriction)
                   (description restriction) (type_data restriction) in
      let '(uvl_rule, count) := rc in
      match uvl_rule with
      | Some r =>
          if String.eqb r "" then constraints_loop count uvl_rules rest
          else constraints_loop count (uvl_rules ++ [r]) rest
      | None => constraints_loop count uvl_rules rest
      end
  end.

(** [generar_constraintsDef] on the parsed file: the rules and the final
    value of [count], which the function prints. *)
Definition generar_constraintsDef (count : nat) (restrictions : list restriction)
  : result (list string * nat) :=
  constraints_loop count [] restrictions.

End Analisis.

(** ** convert01.py *)

Module Convert.
Import Re.

(** *** The schema document

    The input is the parsed JSON document.  Its objects are typed here by
    the keys the generator reads (section 6 of the specification): a field
    is [None] when the key is absent.  A Python dictionary is the list of
    its items in insertion order. *)

Inductive jvalue : Type :=
| JString (s : string)
| JNumber (n : N)
| JBool (b : bool)
| JNull.

Inductive schema : Type := Schema {
  s_description : option string;
  s_type : option string;
  s_ref : option string;                                (* "$ref" *)
  s_items : option schema;
  s_additionalProperties : option schema;
  s_properties : option (list (string * schema));
  s_required : option (list string);
  s_enum : option (list jvalue);
  s_oneOf : option (list schema)
}.

Definition properties : Type := list (string * schema).

(** [str(v)], as an f-string renders a value. *)
Definition py_str (v : jvalue) : string :=
  match v with
  | JString s => s
  | JNumber n => Py.str_of_N n
  | JBool true => "True"
  | JBool false => "False"
  | JNull => "None"
  end.

Definition is_some {A : Type} (o : option A) : bool :=
  match o with Some _ => true | None => false end.

Definition is_nil {A : Type} (l : list A) : bool :=
  match l with [] => true | _ => false end.

(** [d.get(key, default)] *)
Definition get_or {A : Type} (o : option A) (default : A) : A :=
  match o with Some v => v | None => default end.

(** Truth value of a schema object: only the empty dictionary is false. *)
Definition schema_truthy (s : schema) : bool :=
  is_some (s_description s) || is_some (s_type s) || is_some (s_ref s)
  || is_some (s_items s) || is_some (s_additionalProperties s)
  || is_some (s_properties s) || is_some (s_required s) || is_some (s_enum s)
  || is_some (s_oneOf s).

Definition in_list (x : string) (l : list string) : bool := existsb (String.eqb x) l.

(** A value of the document, as a pointer or an iteration reaches it.  The
    generator treats these values dynamically: it tests [key in v], reads
    [v[key]] and [v.get(key, default)], iterates [v.items()], whatever [v]
    is. *)
Inductive jnode : Type :=
| NDocument                        (* the document itself *)
| NSchema (s : schema)             (* a schema object *)
| NProperties (ps : properties)    (* a dictionary of schema objects: the value of a key
                                      'properties', or of the key 'definitions' *)
| NText (t : string)               (* the value of 'description', 'type' or '$ref' *)
| NNames (l : list string)         (* the value of 'required' *)
| NValues (l : list jvalue)        (* the value of 'enum' *)
| NSchemas (l : list schema).      (* the value of 'oneOf' *)

(** Truth value: an empty dictionary, string or list is false. *)
Definition node_truthy (n : jnode) : bool :=
  match n with
  | NDocument => true
  | NSchema s => schema_truthy s
  | NProperties ps => negb (is_nil ps)
  | NText t => negb (String.eqb t "")
  | NNames l => negb (is_nil l)
  | NValues l => negb (is_nil l)
  | NSchemas l => negb (is_nil l)
  end.

(** [str] methods ([strip], [replace], [capitalize]) on a value:
    [AttributeError] when the value is not a string. *)
Definition as_text (v : jnode) : result string :=
  match v with
  | NText t => Ok t
  | _ => Raise "AttributeError"
  end.

(** *** The feature dictionaries *)

Inductive kind : Type := mandatory | optional | alternative.

Definition kind_eqb (a b : kind) : bool :=
  match a, b with
  | mandatory, mandatory | optional, optional | alternative, alternative => true
  | _, _ => false
  end.

(** ['type_data'] holds a string, except when the generator has read the
    type in a dictionary of schema objects: it then holds the schema object
    found under the name [type]. *)
Inductive feature : Type := Feature {
  f_name : string;                 (* 'name' *)
  f_type : kind;                   (* 'type' *)
  f_description : string;          (* 'description' *)
  f_sub_features : list feature;   (* 'sub_features' *)
  f_type_data : jnode              (* 'type_data' *)
}.

Definition leaf (name : string) (k : kind) (description type_data : string) : feature :=
  Feature name k description [] (NText type_data).

Definition add_sub_features (f : feature) (l : list feature) : feature :=
  Feature (f_name f) (f_type f) (f_description f) (f_sub_features f ++ l) (f_type_data f).

Definition set_type_data (f : feature) (t : string) : feature :=
  Feature (f_name f) (f_type f) (f_description f) (f_sub_features f) (NText t).

(** One entry of [self.descriptions]. *)
Record description_entry : Type := Entry {
  e_feature_name : string;
  e_description : string;
  e_type_data : string
}.

(** *** The processor

    The attributes of [SchemaProcessor] that the code writes.
    [resolved_references] is left out: it memoizes [resolve_reference],
    whose result depends on the reference and the immutable document
    only. *)

Record proc : Type := Proc {
  processed_features : gset string;
  seen_descriptions : gset string;
  d_values : list description_entry;        (* descriptions['values'] *)
  d_restrictions : list description_entry;  (* descriptions['restrictions'] *)
  d_dependencies : list description_entry;  (* descriptions['dependencies'] *)
  is_cardinality : bool;
  is_deprecated : bool;
  feature_aux_original_type : string
}.

Definition init_proc : proc := Proc ∅ ∅ [] [] [] false false "".

Definition with_processed (p : proc) (s : gset string) : proc :=
  Proc s (seen_descriptions p) (d_values p) (d_restrictions p) (d_dependencies p)
       (is_cardinality p) (is_deprecated p) (feature_aux_original_type p).
Definition with_seen (p : proc) (s : gset string) : proc :=
  Proc (processed_features p) s (d_values p) (d_restrictions p) (d_dependencies p)
       (is_cardinality p) (is_deprecated p) (feature_aux_original_type p).
Definition with_cardinality (p : proc) (b : bool) : proc :=
  Proc (processed_features p) (seen_descriptions p) (d_values p) (d_restrictions p)
       (d_dependencies p) b (is_deprecated p) (feature_aux_original_type p).
Definition with_deprecated (p : proc) (b : bool) : proc :=
  Proc (processed_features p) (seen_descriptions p) (d_values p) (d_restrictions p)
       (d_dependencies p) (is_cardinality p) b (feature_aux_original_type p).
Definition with_aux_type (p : proc) (t : string) : proc :=
  Proc (processed_features p) (seen_descriptions p) (d_values p) (d_restrictions p)
       (d_dependencies p) (is_cardinality p) (is_deprecated p) t.

Inductive category : Type := cat_values | cat_restrictions | cat_dependencies.

Definition add_description (p : proc) (c : category) (e : description_entry) : proc :=
  match c with
  | cat_values =>
      Proc (processed_features p) (seen_descriptions p) (d_values p ++ [e])%list (d_restrictions p)
           (d_dependencies p) (is_cardinality p) (is_deprecated p) (feature_aux_original_type p)
  | cat_restrictions =>
      Proc (processed_features p) (seen_descriptions p) (d_values p) (d_restrictions p ++ [e])%list
           (d_dependencies p) (is_cardinality p) (is_deprecated p) (feature_aux_original_type p)
  | cat_dependencies =>
      Proc (processed_features p) (seen_descriptions p) (d_values p) (d_restrictions p)
           (d_dependencies p ++ [e])%list (is_cardinality p) (is_deprecated p)
           (feature_aux_original_type p)
  end.

Definition mem (x : string) (s : gset string) : bool := bool_decide (x ∈ s).

(** [^\b$] *)
Definition never_pattern : regex := seq [Bol; Wordb; Eol].

(** The pattern of the category 'restrictions', IGNORECASE.  The dots of
    [template.spec.restartPolicy] are not escaped in the source. *)
Definition restrictions_pattern : regex :=
  alt [lit "If the operator is";
       seq [lit "template"; dot; lit "spec"; dot; lit "restartPolicy"];
       lit "conditions may not be"; lit "Details about a waiting"; lit "TCPSocket is NOT";
       lit "must be between"; lit "Note that this field cannot be set when";
       lit "valid port number"; lit "must be in the range"; lit "must be greater than";
       lit "are mutually exclusive properties"; lit "Must be set if type is";
       lit "field MUST be empty if"; lit "must be non-empty if and only if";
       lit "only if type"; lit ". Required when"; lit "required when scope";
       lit ". At least one of"; lit "a least one of"; lit "Exactly one of";
       lit "resource access request"; lit "datasetUUID is"; lit "succeededIndexes specifies";
       lit "Represents the requirement on the container";
       lit "ResourceClaim object in the same namespace as this pod";
       lit "indicates which one of"; lit "may be non-empty only if"; lit "Minimum value is";
       lit "Value must be non-negative"; lit "minimum valid value for"; lit "in the range 1-"].

(** [self.patterns], in the order of the dictionary. *)
Definition patterns : list (category * regex) :=
  [(cat_values, never_pattern); (cat_restrictions, restrictions_pattern);
   (cat_dependencies, never_pattern)].

(** [self.boolean_keywords] *)
Definition boolean_keywords : list string :=
  ["AppArmorProfile_localhostProfile"; "appArmorProfile_localhostProfile";
   "seccompProfile_localhostProfile"; "SeccompProfile_localhostProfile";
   "IngressClassList_items_spec_parameters_namespace";
   "IngressClassParametersReference_namespace"; "IngressClassSpec_parameters_namespace";
   "IngressClass_spec_parameters_namespace"; "_tolerations_value"; "_Toleration_value";
   "_clientConfig_url"; "_WebhookClientConfig_url"; "_succeededIndexes"; "_succeededCount";
   "source_resourceClaimName"; "_ClaimSource_resourceClaimName"; "_resourceClaimTemplateName";
   "_datasetUUID"; "_datasetName"].

(** [.*suffix$] *)
Definition ends_with_pattern (suffix : string) : regex := seq [star dot; lit suffix; Eol].

(** [self.boolean_keywords_regex]: [.*_paramRef_name$] and [.*_ParamRef_name$] *)
Definition boolean_keywords_regex : list regex :=
  [ends_with_pattern "_paramRef_name"; ends_with_pattern "_ParamRef_name"].

(** [self.special_features_config] *)
Definition special_features_config : list string :=
  ["_template_spec_"; "_Pod_spec_"; "_PodList_items_spec_"; "_core_v1_PodSpec_";
   "_PodTemplateSpec_spec_"; "_v1_PodSecurityContext_"; "_v1_Container_securityContext_";
   "_v1_EphemeralContainer_securityContext_"; "_v1_SecurityContext_"].

Definition any_in (phrases : list string) (text : string) : bool :=
  existsb (fun p => Py.contains p text) phrases.

Definition sanitize_name (name : string) : string :=
  Py.replace "$" "" (Py.replace "." "_" (Py.replace "-" "_" name)).

(** [sanitize_type_data]: the type, and the processor with [is_cardinality]
    set for arrays and objects. *)
Definition sanitize_type_data (p : proc) (type_data : string) : string * proc :=
  if in_list type_data ["array"] then ("Boolean", with_cardinality p true)
  else if in_list type_data ["Object"; "object"] then ("Boolean", with_cardinality p true)
  else if in_list type_data ["number"; "Number"] then ("Integer", p)
  else if String.eqb type_data "Boolean" then ("", p)
  else (type_data, p).

(** [is_valid_description(self, feature_name, description)] *)
Definition is_valid_description (p : proc) (feature_name description : string) : bool * proc :=
  if (Py.len description <? 10)%nat then (false, p)
  else
    let description_key := feature_name ++ ":" ++ description in
    if mem description_key (seen_descriptions p) then (false, p)
    else (true, with_seen p ({[description_key]} ∪ seen_descriptions p)).

Fixpoint first_category (l : list (category * regex)) (description : string) : option category :=
  match l with
  | [] => None
  | (c, pattern) :: r =>
      if is_some (search true pattern description) then Some c else first_category r description
  end.

(** [categorize_description(self, description, feature_name, type_data)].
    The call in the source is
    [self.is_valid_description(description, feature_name)]: the description
    is passed for the parameter [feature_name] and the feature name for the
    parameter [description]. *)
Definition categorize_description (p : proc) (description feature_name type_data : string)
  : bool * proc :=
  let '(valid, p) := is_valid_description p description feature_name in
  if negb valid then (false, p)
  else
    let type_data := if String.eqb type_data "" then "Boolean" else type_data in
    let feature_name_descriptions :=
      if Py.contains "cardinality" feature_name then Py.split_first " cardinality" feature_name
      else if Py.contains "{" feature_name then Py.split_first " {" feature_name
      else feature_name in
    let description_entry := Entry feature_name_descriptions description type_data in
    match first_category patterns description with
    | Some c => (true, add_description p c description_entry)
    | None => (false, p)
    end.

Definition is_required_based_on_description (description : string) : bool :=
  Py.endswith "Required." (Py.strip description).

(** *** Enumerated values *)

(** A pattern of the source, with its flag and the number of its groups
    (which decides what [findall] returns). *)
Record pat : Type := Pat {
  p_ic : bool;
  p_groups : nat;
  p_regex : regex
}.

Definition findall (p : pat) (s : string) : list string :=
  match p_groups p with
  | O => findall0 (p_ic p) (p_regex p) s
  | _ => findall1 (p_ic p) (p_regex p) s
  end.

Definition quote : regex := oneof (String dq "'") no_class.            (* [<dq>'] *)
Definition backslash : regex := chr "\"%char.
Definition letters_blanks_commas : regex :=                            (* [a-zA-Z\s,] *)
  oneof "," (fun c => Py.is_alpha c || Py.is_space c).

(** [(?<=intro)([a-zA-Z\s,]+)(?=\.)] *)
Definition listed_after (intro : regex) : regex :=
  seq [behind intro; Grp 1 (plus letters_blanks_commas); Ahead (chr "."%char)].

(** [\b(w1|w2|...)\b] *)
Definition one_word_of (l : list string) : regex :=
  seq [Wordb; Grp 1 (alt (map lit l)); Wordb].

(** [value_patterns], in the order of the list. *)
Definition value_patterns : list pat :=
  [ (* \\?[<dq>\'](.*?)\\?[<dq>\'] *)
    Pat false 1 (seq [opt backslash; quote; Grp 1 (lazy_star dot); opt backslash; quote]);
    (* -\s*[\'<dq>]?([a-zA-Z/.\s]+[a-zA-Z])[\'<dq>]?\s*: , IGNORECASE *)
    Pat true 1 (seq [chr "-"%char; star space; opt quote;
                     Grp 1 (seq [plus (oneof "/." (fun c => Py.is_alpha c || Py.is_space c));
                                 letter]);
                     opt quote; star space; chr ":"%char]);
    (* (?<=Valid values are:)[\s\S]*?(?=\.) *)
    Pat false 0 (seq [behind (lit "Valid values are:"); lazy_star anychar; Ahead (chr "."%char)]);
    (* (?<=Possible values are:)[\s\S]*?(?=\.) *)
    Pat false 0 (seq [behind (lit "Possible values are:"); lazy_star anychar;
                      Ahead (chr "."%char)]);
    (* (?<=Allowed values are)[\s\S]*?(?=\.|\s+Required) , IGNORECASE *)
    Pat true 0 (seq [behind (lit "Allowed values are"); lazy_star anychar;
                     Ahead (alt [chr "."%char; seq [plus space; lit "Required"]])]);
    (* \b(UDP.*?SCTP)\b *)
    Pat false 1 (seq [Wordb; Grp 1 (seq [lit "UDP"; lazy_star dot; lit "SCTP"]); Wordb]);
    (* \n\s*-\s+(\w+)\s*\n , IGNORECASE *)
    Pat true 1 (seq [chr newline; star space; chr "-"%char; plus space; Grp 1 (plus word);
                     star space; chr newline]);
    (* \b(Localhost|RuntimeDefault|Unconfined)\b *)
    Pat false 1 (one_word_of ["Localhost"; "RuntimeDefault"; "Unconfined"]);
    (* \b(Retain|Delete|Recycle)\b *)
    Pat false 1 (one_word_of ["Retain"; "Delete"; "Recycle"]);
    (* (?<=The currently supported values are\s)([a-zA-Z\s,]+)(?=\.) , IGNORECASE *)
    Pat true 1 (listed_after (seq [lit "The currently supported values are"; space]));
    (* (?<=Valid operators are\s)([A-Za-z\s,]+)(?=\.) , IGNORECASE *)
    Pat true 1 (listed_after (seq [lit "Valid operators are"; space]));
    (* \b(Gt|Lt)\b *)
    Pat false 1 (one_word_of ["Gt"; "Lt"]);
    (* (?<=Acceptable values are:)([A-Za-z\s,]+)(?=\() *)
    Pat false 1 (seq [behind (lit "Acceptable values are:"); Grp 1 (plus letters_blanks_commas);
                      Ahead (chr "("%char)]);
    (* (?<=status of the condition, one of\s)([a-zA-Z\s,]+)(?=\.) , IGNORECASE *)
    Pat true 1 (listed_after (seq [lit "status of the condition, one of"; space]));
    (* (?<=Type of job condition,\s)([a-zA-Z\s,]+)(?=\.) *)
    Pat false 1 (listed_after (seq [lit "Type of job condition,"; space]));
    (* (?<=status of the condition. Can be\s)([a-zA-Z\s,]+)(?=\.) *)
    Pat false 1 (listed_after (seq [lit "status of the condition"; dot; lit " Can be"; space]));
    (* (?<=Types include\s)([a-zA-Z\s,]+)(?=\.) *)
    Pat false 1 (listed_after (seq [lit "Types include"; space]));
    (* (?<=status of the condition \()([a-zA-Z\s,]+)(?=\)) *)
    Pat false 1 (seq [behind (lit "status of the condition ("); Grp 1 (plus letters_blanks_commas);
                      Ahead (chr ")"%char)]);
    (* (?<=Node address type, one of\s)([a-zA-Z\s,]+)(?=\.) *)
    Pat false 1 (listed_after (seq [lit "Node address type, one of"; space]));
    (* (?<=. One of\s)([a-zA-Z\s,]+)(?=\.) *)
    Pat false 1 (listed_after (seq [dot; lit " One of"; space]));
    (* (?<=Host Caching mode:\s)([a-zA-Z\s,]+)(?=\.) *)
    Pat false 1 (listed_after (seq [lit "Host Caching mode:"; space]));
    (* (?<=Supported values:\s)([a-zA-Z\s,]+)(?=\.) *)
    Pat false 1 (listed_after (seq [lit "Supported values:"; space]));
    (* \b(Shared|Dedicated|Managed)\b *)
    Pat false 1 (one_word_of ["Shared"; "Dedicated"; "Managed"]);
    (* (?<=a volume should be\s)([a-zA-Z\s,]+)(?=\.) *)
    Pat false 1 (listed_after (seq [lit "a volume should be"; space]));
    (* \b(NonIndexed|Indexed)\b *)
    Pat false 1 (one_word_of ["NonIndexed"; "Indexed"]);
    (* (?<=the metric type is\s)([a-zA-Z\s,]+) *)
    Pat false 1 (seq [behind (seq [lit "the metric type is"; space]);
                      Grp 1 (plus letters_blanks_commas)]);
    (* (?<=Valid policies are\s)([a-zA-Z\s,]+)(?=\.) *)
    Pat false 1 (listed_after (seq [lit "Valid policies are"; space])) ].

(** [,\s*|\s+or\s+|\sor|or\s|\s+and\s+|and\s] *)
Definition separators : regex :=
  alt [seq [chr ","%char; star space]; seq [plus space; lit "or"; plus space];
       seq [space; lit "or"]; seq [lit "or"; space];
       seq [plus space; lit "and"; plus space]; seq [lit "and"; space]].

Definition palabras_patrones_minus : list string :=
  ["values are"; "following states"; ". must be"; "implicitly inferred to be";
   "the currently supported reasons are"; ". can be"; "it can be in any of following states";
   "valid options are"; "a value of `"; "the supported types are"; "valid operators are";
   "status of the condition,"; "status of the condition."; "type of the condition.";
   "status of the condition ("; "node address type"; "should be one of"; "will be one of";
   "means that requests that"; "only valid values"; "a volume should be";
   "the metric type is"; "valid policies are"].

Definition palabras_patrones_may : list string :=
  ["Supports"; "Type of job condition"; "Status of the condition for"; "Type of condition";
   ". One of"; "Host Caching mode"; "This may be set to"; "Supported values:";
   "completions are tracked. It can be"; "Services can be"; "this API group are"].

Definition is_default_char (c : ascii) : bool :=                        (* [\w\s\.\-<dq>\'] *)
  Py.is_word c || Py.is_space c || Py.mem_char (String dq ".-'") c.

(** [default_patterns] of [patterns_process_enum_values_default] *)
Definition default_patterns : list pat :=
  [ (* (?<=defaults to\s)([<dq>\']?[\w\s\.\-<dq>\']+?)(?=\.) , IGNORECASE *)
    Pat true 1 (seq [behind (seq [lit "defaults to"; space]);
                     Grp 1 (seq [opt quote; lazy_plus (Chr false is_default_char)]);
                     Ahead (chr "."%char)]);
    (* (?<=Defaults to\s)([<dq>\']?[\w\s\.\-<dq>\']+[<dq>\']?) *)
    Pat false 1 (seq [behind (seq [lit "Defaults to"; space]);
                      Grp 1 (seq [opt quote; plus (Chr false is_default_char); opt quote])]);
    (* Implicitly inferred to be\s[<dq>\'](.*?)[<dq>\'] , IGNORECASE *)
    Pat true 1 (seq [lit "Implicitly inferred to be"; space; quote; Grp 1 (lazy_star dot); quote]);
    (* default to use\s[<dq>\'](.*?)[<dq>\'](?=\.) , IGNORECASE *)
    Pat true 1 (seq [lit "default to use"; space; quote; Grp 1 (lazy_star dot); quote;
                     Ahead (chr "."%char)]);
    (* \. Default is\s[<dq>\']?(.*?)[<dq>\']?(?=\.) , IGNORECASE *)
    Pat true 1 (seq [lit ". Default is"; space; opt quote; Grp 1 (lazy_star dot); opt quote;
                     Ahead (chr "."%char)]) ].

Definition patterns_process_enum_values_default (description : string) : option string :=
  let patterns_default_values :=
    ["defaults to"; ". implicitly inferred to be"; "the currently supported reasons are";
     ". default is"] in
  if negb (any_in patterns_default_values (Py.lower description)) then None
  else
    let default_value :=
      fold_left (fun acc pattern =>
        fold_left (fun acc mtch =>
          let first_part := Py.split_first "." mtch in
          let v := Py.strip (Py.replace "." "" (Py.replace "'" "" (Py.replace q ""
                     (Py.strip first_part)))) in
          let v := if String.eqb v "*" then "estrella" else v in
          if negb (String.eqb v "") && (Py.len v <=? 50)%nat then v else acc)
          (findall pattern description) acc)
        default_patterns "" in
    if String.eqb default_value "" then None else Some default_value.

(** The body of the innermost loop of [extract_values]: what one piece of a
    match contributes to the list [values]. *)
Definition normalize_value (default_value : option string) (v : string) : list string :=
  let v := Py.strip v in
  let v := Py.replace "*" "estrella" v in
  let v := Py.replace "`" "" (Py.replace "'" "" (Py.replace q "" v)) in
  let v := Py.replace "/" "_" (Py.replace " " "_" v) in
  if negb (String.eqb v "") && (Py.len v <=? 24)%nat
     && negb (any_in ["."; "{"; "}"; "["; "]"; ";"; ":"; "prefixed_keys"] v) then
    if (20 <=? Py.len v)%nat && Py.contains "_" v then []
    else
      match default_value with
      | Some d => if String.eqb v d then [v ++ " {default}"] else [v]
      | None => [v]
      end
  else [].

(** The list [values] before it is turned into a set. *)
Definition candidate_values (description : string) : list string :=
  let default_value := patterns_process_enum_values_default description in
  flat_map (fun pattern =>
    flat_map (fun mtch =>
      flat_map (normalize_value default_value) (Re.split false separators mtch))
      (findall pattern description))
    value_patterns.

Definition case_not_none : gset string :=
  list_to_set ["NodePort"; "ClusterIP {default}"; "None"; "LoadBalancer"; "ExternalName"].
Definition case_not_policies : gset string :=
  list_to_set ["IfHealthyBudget"; "AlwaysAllow"; "Ready"; "True"; "Running"].
Definition list_policies_to_delete : gset string :=
  list_to_set ["Ready"; "True"; "Running"].

(** What [extract_values] does with the set of the candidate values. *)
Definition select_values (values : gset string) : option (gset string) :=
  if bool_decide (values = ∅) || Nat.eqb (size values) 1 then None
  else if bool_decide (case_not_none = values) then Some (values ∖ {["None"]})
  else if bool_decide (case_not_policies = values)
       then Some (case_not_policies ∖ list_policies_to_delete)
  else Some values.

(** The set [values = set(values)] that [extract_values] builds, when the
    description passes the test on the introducing phrases. *)
Definition extracted_set (description : string) : option (gset string) :=
  if negb (any_in palabras_patrones_minus (Py.lower description))
     && negb (any_in palabras_patrones_may description) then None
  else Some (list_to_set (candidate_values description)).

Definition extract_values (description : string) : option (gset string) :=
  match extracted_set description with
  | None => None
  | Some values => select_values values
  end.

(** *** Names and annotations *)

(** The chain of replacements that every description goes through before
    it is put in a [doc] attribute, followed by the removal of the
    characters above 127.  The acute accent of the source is the two-byte
    sequence 194, 180 in UTF-8. *)
Definition acute : string := String (ascii_of_nat 194) (String (ascii_of_nat 180) "").

Definition clean_description (description : string) : string :=
  let d := Py.replace (String newline "") "" description in
  let d := Py.replace "`" "" d in
  let d := Py.replace acute "" d in
  let d := Py.replace "'" "_" d in
  let d := Py.replace "{" "" d in
  let d := Py.replace "}" "" d in
  let d := Py.replace q "" d in
  let d := Py.replace "\" "_" d in
  let d := Py.replace "." "" d in
  let d := Py.replace "//" "_" d in
  Py.only_ascii d.

(** [\s*\{.*?\}] *)
Definition annotation_pattern : regex :=
  seq [star space; chr "{"%char; lazy_star dot; chr "}"%char].

(** [re.sub(r'\s*\{.*?\}', '', name)] *)
Definition strip_annotations (name : string) : string := Re.sub false annotation_pattern "" name.

Definition card1 : string := " cardinality [1..*]".
Definition card0 : string := " cardinality [0..*]".

Definition doc (text : string) : string := " {doc '" ++ text ++ "'}".

Definition process_oneOf (p : proc) (oneOf : list schema) (full_name : string) (type_feature : kind)
  : feature * proc :=
  let '(subs, p) :=
    fold_left (fun (acc : list feature * proc) (option_ : schema) =>
      let '(subs, p) := acc in
      match s_type option_ with
      | Some t =>
          let option_type_data := Py.capitalize t in
          let sanitized_name := Py.replace card1 "" full_name in
          let sanitized_name :=
            if Py.contains " {default " sanitized_name then strip_annotations sanitized_name
            else sanitized_name in
          let aux_description_sub_feature := "Sub-feature added of type " ++ option_type_data in
          let '(td, p) := sanitize_type_data p option_type_data in
          ((subs ++ [leaf (sanitized_name ++ "_as" ++ option_type_data
                             ++ doc aux_description_sub_feature)
                          alternative aux_description_sub_feature td])%list, p)
      | None => (subs, p)
      end) oneOf ([], p) in
  (Feature full_name type_feature ("Feature based on oneOf in " ++ full_name) subs
           (NText "Boolean"), p).

(** [(?<=intro\s)(\d+)(?=\D|$)] *)
Definition number_after (intro : string) : regex :=
  seq [behind (seq [lit intro; space]); Grp 1 (plus digit); Ahead (alt [nondigit; Eol])].

(** [default_patterns] of [process_enum_defaultInte], with their flags. *)
Definition default_number_patterns : list (bool * regex) :=
  [ (true, number_after "Defaults to");
    (true, number_after "Default value is");
    (false, number_after "Default to");
    (* (?<=Default to\s)([\w\s\.])(?=\.) *)
    (false, seq [behind (seq [lit "Default to"; space]);
                 Grp 1 (Chr false (fun c => Py.is_word c || Py.is_space c || Ascii.eqb c "."%char));
                 Ahead (chr "."%char)]) ].

(** [Default is\s+\\?<dq>(true|false)\\?<dq>] *)
Definition pattern_defaults : regex :=
  seq [lit "Default is"; plus space; opt backslash; chr dq;
       Grp 1 (alt [lit "true"; lit "false"]); opt backslash; chr dq].

Definition process_enum_defaultInte (property : schema) (full_name description : string)
  : string * bool :=
  let patterns_default_values_numbers :=
    ["defaults to"; "default value is"; "default to"; "default false"; "Default is false";
     "is " ++ q ++ "false"; "is " ++ q ++ "true"] in
  let cleaned_description := clean_description description in
  match s_enum property with
  | Some (default_value :: _) =>
      (full_name ++ " {default '" ++ py_str default_value ++ "', doc '" ++ cleaned_description
         ++ "'}", true)
  | _ =>
      if any_in patterns_default_values_numbers (Py.lower description) then
        let with_default (v : string) :=
          full_name ++ " {default " ++ v ++ ", doc '" ++ cleaned_description ++ "'}" in
        let '(default_full_name, default_bool) :=
          fold_left (fun (acc : string * bool) (pattern : bool * regex) =>
            match search (fst pattern) (snd pattern) description with
            | Some matches =>
                let default := group_str 1 matches in
                let default_integer := if String.eqb default "0644" then "644" else default in
                (with_default default_integer, true)
            | None => acc
            end) default_number_patterns ("", false) in
        let '(default_full_name, default_bool) :=
          match search false pattern_defaults description with
          | Some mtch => (with_default (group_str 1 mtch), true)
          | None => (default_full_name, default_bool)
          end in
        let '(default_full_name, default_bool) :=
          if Py.contains "Default to false" description
             || Py.contains "defaults to false" (Py.lower description)
             || Py.contains "default false" (Py.lower description)
             || Py.contains "Default is false" description then
            if Py.contains "defaults to false" (Py.lower description)
               && Py.contains "deprecated." (Py.lower description)
            then (full_name ++ " {default false, deprecated, doc '" ++ cleaned_description ++ "'}",
                  true)
            else (with_default "false", true)
          else if Py.contains "Default to true" description
                  || Py.contains "defaults to true" (Py.lower description) then
            (with_default "true", true)
          else (default_full_name, default_bool) in
        if negb (String.eqb default_full_name "") then (default_full_name, default_bool)
        else (full_name, default_bool)
      else (full_name, false)
  end.

Definition not_synthetic (full_name : string) : bool :=
  negb (Py.endswith "nameStr" full_name) && negb (Py.endswith "valueInt" full_name).

Definition cannot_be_set : string := "Note that this field cannot be set when".

(** [update_type_data]: the type, [abstract_bool], and the processor with
    [feature_aux_original_type] rewritten. *)
Definition update_type_data (p : proc) (full_name feature_type_data description : string)
  : string * bool * proc :=
  let abstract_bool := false in
  let aux := "" in
  let '(aux, feature_type_data, abstract_bool) :=
    if any_in boolean_keywords full_name && not_synthetic full_name
    then (feature_type_data, "Boolean", true)
    else (aux, feature_type_data, abstract_bool) in
  let '(aux, feature_type_data, abstract_bool) :=
    if any_in special_features_config full_name && Py.contains cannot_be_set description
       && not_synthetic full_name
    then
      let aux := feature_type_data in
      let feature_type_data := "Boolean" in
      if negb (String.eqb aux "boolean") && negb (String.eqb aux feature_type_data)
         && negb (String.eqb aux "")
      then (aux, feature_type_data, true)
      else (aux, feature_type_data, abstract_bool)
    else (aux, feature_type_data, abstract_bool) in
  let '(aux, feature_type_data, abstract_bool) :=
    fold_left (fun (acc : string * string * bool) (pattern : regex) =>
      let '(aux, feature_type_data, abstract_bool) := acc in
      if is_some (search false pattern full_name) && not_synthetic full_name
      then (feature_type_data, "Boolean", true)
      else acc) boolean_keywords_regex (aux, feature_type_data, abstract_bool) in
  (feature_type_data, abstract_bool, with_aux_type p aux).

(** *** Reading the document *)

Definition schema_field (s : schema) (part : string) : option jnode :=
  if String.eqb part "description" then option_map NText (s_description s)
  else if String.eqb part "type" then option_map NText (s_type s)
  else if String.eqb part "$ref" then option_map NText (s_ref s)
  else if String.eqb part "items" then option_map NSchema (s_items s)
  else if String.eqb part "additionalProperties" then option_map NSchema (s_additionalProperties s)
  else if String.eqb part "properties" then option_map NProperties (s_properties s)
  else if String.eqb part "required" then option_map NNames (s_required s)
  else if String.eqb part "enum" then option_map NValues (s_enum s)
  else if String.eqb part "oneOf" then option_map NSchemas (s_oneOf s)
  else None.

(** [sanitize_type_data] on the value found under ['type']: a value that
    is not a string is equal to none of the type names and is returned as
    it is. *)
Definition sanitize_type_value (p : proc) (v : jnode) : jnode * proc :=
  match v with
  | NText t => let '(t, p) := sanitize_type_data p t in (NText t, p)
  | _ => (v, p)
  end.

(** ['' if feature_type_data == 'Boolean' else feature_type_data] *)
Definition stored_type_data (v : jnode) : jnode :=
  match v with
  | NText t => if String.eqb t "Boolean" then NText "" else v
  | _ => v
  end.

(** A schema object without any key. *)
Definition empty_schema : schema := Schema None None None None None None None None None.

Section Builder.

(** The order in which a [for] loop enumerates a Python set of strings.  It
    is not a function of the set in Python (it depends on the hashes of the
    strings, which change from one process to the next), so it is a
    parameter of a run. *)
Variable set_order : gset string -> list string.

(** The order of the keys of a schema object in the file, which is the
    order in which Python enumerates them.  The record [schema] does not
    keep it.  It is read in one place only: when a pointer ends on a
    dictionary of schema objects that has an entry named [properties], the
    schema object of that entry is enumerated as if it were a dictionary of
    properties. *)
Variable key_order : schema -> list string.

(** [self.definitions['definitions']]: the document is
    [{'definitions': definitions}]. *)
Variable definitions : properties.

(** [n.get(part, default)]: [Raise] when the value has no method [get],
    [Ok None] for the default. *)
Definition node_get (n : jnode) (part : string) : result (option jnode) :=
  match n with
  | NDocument => Ok (if String.eqb part "definitions" then Some (NProperties definitions) else None)
  | NSchema s => Ok (schema_field s part)
  | NProperties ps => Ok (option_map NSchema (Analisis.dict_get ps part))
  | _ => Raise "AttributeError"
  end.

(** [key in n]: a key of a dictionary, a substring of a string, an element
    of a list. *)
Definition node_in (key : string) (n : jnode) : bool :=
  match n with
  | NDocument => String.eqb key "definitions"
  | NSchema s => is_some (schema_field s key)
  | NProperties ps => is_some (Analisis.dict_get ps key)
  | NText t => Py.contains key t
  | NNames l => in_list key l
  | NValues l => existsb (fun v => match v with JString x => String.eqb key x | _ => false end) l
  | NSchemas _ => false
  end.

(** [n[key]] for a string [key]: [KeyError] on a dictionary without the
    key, [TypeError] on a string or a list. *)
Definition node_item (n : jnode) (key : string) : result jnode :=
  match n with
  | NText _ | NNames _ | NValues _ | NSchemas _ => Raise "TypeError"
  | _ =>
      match node_get n key with
      | Ok (Some v) => Ok v
      | _ => Raise "KeyError"
      end
  end.

(** The items of a schema object, in the order of its keys. *)
Definition schema_items (x : schema) : list (string * jnode) :=
  flat_map (fun key => match schema_field x key with
                       | Some v => [(key, v)]
                       | None => []
                       end) (key_order x).

(** [n.items()] *)
Definition items_of (n : jnode) : result (list (string * jnode)) :=
  match n with
  | NDocument => Ok [("definitions", NProperties definitions)]
  | NSchema x => Ok (schema_items x)
  | NProperties ps => Ok (map (fun kv => (fst kv, NSchema (snd kv))) ps)
  | _ => Raise "AttributeError"
  end.

(** What [for option in n] enumerates when [n] is not a list of schema
    objects: the keys of a dictionary, the characters of a string, the
    elements of a list; [None] stands for an element that is not a
    string. *)
Definition elements_of (n : jnode) : list (option string) :=
  match n with
  | NDocument => [Some "definitions"]
  | NSchema x => map (fun kv => Some (fst kv)) (schema_items x)
  | NProperties ps => map (fun kv => Some (fst kv)) ps
  | NText t => map (fun c => Some (String c "")) (Py.chars t)
  | NNames l => map Some l
  | NValues l => map (fun v => match v with JString x => Some x | _ => None end) l
  | NSchemas _ => []
  end.

(** [process_oneOf] on the value found under ['oneOf'].  On a list of
    schema objects it is [process_oneOf].  On another value the loop
    enumerates strings (or numbers, booleans, nulls): the test
    ['type' in option] is then a substring test (a [TypeError] on an element
    that is not a string), and [option['type']] on a string is a
    [TypeError]. *)
Definition process_oneOf_value (p : proc) (oneOf : jnode) (full_name : string)
    (type_feature : kind) : result (feature * proc) :=
  match oneOf with
  | NSchemas l => Ok (process_oneOf p l full_name type_feature)
  | _ =>
      if existsb (fun option_ => match option_ with
                                 | Some x => Py.contains "type" x
                                 | None => true
                                 end) (elements_of oneOf)
      then Raise "TypeError"
      else Ok (Feature full_name type_feature ("Feature based on oneOf in " ++ full_name) []
                       (NText "Boolean"), p)
  end.

(** *** Reference resolution *)

(** The loop of [resolve_reference]; an exception in it is caught and
    gives [None]. *)
Fixpoint walk (n : jnode) (parts : list string) : option jnode :=
  match parts with
  | [] => Some n
  | part :: rest =>
      match node_get n part with
      | Ok (Some n') => if node_truthy n' then walk n' rest else None
      | Ok None => None
      | Raise _ => None
      end
  end.

(** [resolve_reference]: [None], or the value on which the pointer ends: a
    schema object, a dictionary of schema objects, a string or a list.  The
    memo [resolved_references] is left out. *)
Definition resolve_reference (ref : string) : option jnode :=
  let parts := Py.split "/" (Py.strip_chars "#/" ref) in
  walk NDocument parts.

(** *** The tree builder *)

(** A computation that may run out of fuel ([None]) or be left by an
    exception. *)
Definition M (A : Type) : Type := option (result A).

Definition ret {A : Type} (a : A) : M A := Some (Ok a).
Definition raise {A : Type} (e : string) : M A := Some (Raise e).

Definition mbind {A B : Type} (m : M A) (k : A -> M B) : M B :=
  match m with
  | None => None
  | Some (Raise e) => Some (Raise e)
  | Some (Ok a) => k a
  end.

(** A step that returns or raises, in a computation. *)
Definition tryM {A B : Type} (r : result A) (k : A -> M B) : M B :=
  match r with
  | Ok a => k a
  | Raise e => raise e
  end.

(** What persists from one property to the next in a call of
    [parse_properties]: the processor, the list [local_stack_refs] (shared
    with the calling and the called invocations), the two result lists and
    the local variables [abstract_bool] and [cleaned_description], which
    are only assigned for a property with a description. *)
Record frame : Type := Frame {
  fr_proc : proc;
  fr_stack : list string;
  fr_mandatory : list feature;
  fr_optional : list feature;
  fr_abstract_bool : bool;
  fr_cleaned_description : option string
}.

Definition with_proc (fr : frame) (p : proc) : frame :=
  Frame p (fr_stack fr) (fr_mandatory fr) (fr_optional fr) (fr_abstract_bool fr)
        (fr_cleaned_description fr).
Definition with_stack (fr : frame) (st : list string) : frame :=
  Frame (fr_proc fr) st (fr_mandatory fr) (fr_optional fr) (fr_abstract_bool fr)
        (fr_cleaned_description fr).

(** The variables of one iteration, once the node has been created. *)
Record locals : Type := Locals {
  l_feature : feature;
  l_full_name : string;
  l_feature_type : kind;
  l_description : string;
  l_extracted_values : option (gset string);
  l_bool_added_value : bool
}.

Definition with_feature (l : locals) (f : feature) : locals :=
  Locals f (l_full_name l) (l_feature_type l) (l_description l) (l_extracted_values l)
         (l_bool_added_value l).
Definition with_full_name (l : locals) (n : string) : locals :=
  Locals (l_feature l) n (l_feature_type l) (l_description l) (l_extracted_values l)
         (l_bool_added_value l).
Definition extend (l : locals) (subs : list feature) : locals :=
  with_feature l (add_sub_features (l_feature l) subs).

Definition qualify (current_parent sanitized_name : string) : string :=
  if String.eqb current_parent "" then sanitized_name
  else current_parent ++ "_" ++ sanitized_name.

Definition unstructured : string := "unstructured key value map".

(** The block that adds or removes the cardinality of the name. *)
Definition name_with_cardinality (p : proc) (full_name description : string) : string * proc :=
  let suffix := if Py.contains unstructured description then card0 else card1 in
  if is_cardinality p && Py.contains "cardinality" full_name then
    (Py.replace card1 "" full_name ++ suffix, p)
  else if is_cardinality p && negb (Py.contains "cardinality" full_name) then
    (full_name ++ suffix, p)
  else (Py.replace card0 "" (Py.replace card1 "" full_name), with_cardinality p false).

Definition is_deprecated_text (cleaned_description : string) : bool :=
  Py.contains "DEPRECATED:" cleaned_description
  || Py.contains "deprecated." (Py.lower cleaned_description)
  || Py.contains "This field is deprecated," cleaned_description
  || Py.contains "deprecated field" cleaned_description.

(** [bool(extracted_values)] *)
Definition truthy_values (v : option (gset string)) : bool :=
  match v with
  | Some s => negb (bool_decide (s = ∅))
  | None => false
  end.

(** The name of the node: the name, or the name with the [abstract]
    annotation, whose text is the variable [cleaned_description]; the
    variable is unbound when no property with a description came before. *)
Definition node_name (full_name : string) (abstract_bool : bool)
    (cleaned_description : option string) : result string :=
  if negb abstract_bool then Ok full_name
  else match cleaned_description with
       | Some c => Ok (full_name ++ " {abstract, doc '" ++ c ++ "'}")
       | None => Raise "UnboundLocalError"
       end.

(** From the reset of the flags to the call of [extract_values], when
    [details] is a schema object: the node of the property and the
    variables of the iteration. *)
Definition begin_property (fr : frame) (current_required : jnode)
    (prop : string) (details : schema) (full_name : string) : result (locals * frame) :=
  let p := with_deprecated (with_cardinality (fr_proc fr) false) false in
  let description := get_or (s_description details) "" in
  let is_required_by_description := is_required_based_on_description description in
  let feature_type :=
    if node_in prop current_required || is_required_by_description then mandatory else optional in
  let feature_type_data := get_or (s_type details) "Boolean" in
  let '(feature_type_data, p) := sanitize_type_data p feature_type_data in
  let '(full_name, default_bool) := process_enum_defaultInte details full_name description in
  let '(full_name, p) := name_with_cardinality p full_name description in
  let '(full_name, feature_type_data, abstract_bool, cleaned_description, p) :=
    if negb (String.eqb description "") then
      let '(feature_type_data, abstract_bool, p) :=
        update_type_data p full_name feature_type_data description in
      let '(_, p) := categorize_description p description full_name feature_type_data in
      let cleaned_description := clean_description description in
      let p := if is_deprecated_text cleaned_description then with_deprecated p true else p in
      let '(full_name, p) :=
        if negb default_bool && negb abstract_bool && negb (is_deprecated p) then
          (full_name ++ doc cleaned_description, with_deprecated p false)
        else if is_deprecated p && negb default_bool then
          (full_name ++ " {deprecated, doc '" ++ cleaned_description ++ "'}",
           with_deprecated p false)
        else (full_name, p) in
      (full_name, feature_type_data, abstract_bool, Some cleaned_description, p)
    else (full_name, feature_type_data, fr_abstract_bool fr, fr_cleaned_description fr, p) in
  let* name := node_name full_name abstract_bool cleaned_description in
  let feature :=
    Feature name feature_type description [] (stored_type_data (NText feature_type_data)) in
  let full_name := strip_annotations full_name in
  let extracted_values := extract_values description in
  Ok (Locals feature full_name feature_type description extracted_values
             (truthy_values extracted_values),
      Frame p (fr_stack fr) (fr_mandatory fr) (fr_optional fr) abstract_bool cleaned_description).

(** The same lines when [details] is a dictionary of schema objects: what
    the generator reads under ['description'], ['type'] and ['enum'] is then
    a schema object.  A description that is a dictionary makes
    [is_required_based_on_description] raise; without the key the
    description is [''], and the block [if description:] is not entered. *)
Definition begin_map_property (fr : frame) (current_required : jnode)
    (prop : string) (details : properties) (full_name : string) : result (locals * frame) :=
  let p := with_deprecated (with_cardinality (fr_proc fr) false) false in
  let* description :=
    as_text (match Analisis.dict_get details "description" with
             | Some d => NSchema d
             | None => NText ""
             end) in
  let is_required_by_description := is_required_based_on_description description in
  let feature_type :=
    if node_in prop current_required || is_required_by_description then mandatory else optional in
  let feature_type_data :=
    match Analisis.dict_get details "type" with
    | Some t => NSchema t
    | None => NText "Boolean"
    end in
  let '(feature_type_data, p) := sanitize_type_value p feature_type_data in
  (* process_enum_defaultInte: [property['enum'][0]] on a dictionary *)
  let* _ :=
    match Analisis.dict_get details "enum" with
    | Some e => if schema_truthy e then Raise "KeyError" else Ok tt
    | None => Ok tt
    end in
  let '(full_name, default_bool) := process_enum_defaultInte empty_schema full_name description in
  let '(full_name, p) := name_with_cardinality p full_name description in
  let abstract_bool := fr_abstract_bool fr in
  let cleaned_description := fr_cleaned_description fr in
  let* name := node_name full_name abstract_bool cleaned_description in
  let feature := Feature name feature_type description [] (stored_type_data feature_type_data) in
  let full_name := strip_annotations full_name in
  let extracted_values := extract_values description in
  Ok (Locals feature full_name feature_type description extracted_values
             (truthy_values extracted_values),
      Frame p (fr_stack fr) (fr_mandatory fr) (fr_optional fr) abstract_bool cleaned_description).

(** The type of the recursive calls:
    [parse_properties(properties, required, parent_name, depth, local_stack_refs)]
    on a processor, giving the two lists, the stack and the processor. *)
Definition parser : Type :=
  jnode -> jnode -> string -> nat -> list string -> proc ->
  M (list feature * list feature * list string * proc).

(** The outcome of the branch on ['$ref'], ['items'] and
    ['additionalProperties']: [continue] (a reference that is on the
    stack), or the iteration goes on. *)
Inductive expansion : Type :=
| Skipped (fr : frame)
| Expanded (l : locals) (fr : frame).

Definition push (fr : frame) (ref : string) : frame :=
  with_stack fr (fr_stack fr ++ [ref])%list.
(** [local_stack_refs.pop()] *)
Definition pop (fr : frame) : frame := with_stack fr (removelast (fr_stack fr)).

(** The recursive call on the properties of a resolved value, and
    [feature['sub_features'].extend(sub_mandatory + sub_optional)]. *)
Definition recurse (rec : parser) (sub_properties sub_required : jnode)
    (parent : string) (current_depth : nat) (l : locals) (fr : frame) : M (locals * frame) :=
  mbind (rec sub_properties sub_required parent (current_depth + 1) (fr_stack fr) (fr_proc fr))
    (fun r =>
       let '(sub_mandatory, sub_optional, stack, p) := r in
       ret (extend l (sub_mandatory ++ sub_optional)%list, with_stack (with_proc fr p) stack)).

(** The frame of the three branches that follow a reference: the test on
    the stack, the push, the resolution, the work on the resolved value
    and the pop. *)
Definition follow (ref : string) (l : locals) (fr : frame)
    (on_value : jnode -> string -> frame -> M (locals * frame)) : M expansion :=
  if in_list ref (fr_stack fr) then ret (Skipped fr)
  else
    let fr := push fr ref in
    match resolve_reference ref with
    | Some ref_schema =>
        if node_truthy ref_schema then
          let ref_name := sanitize_name (Py.split_last "/" ref) in
          mbind (on_value ref_schema ref_name fr)
                (fun r => let '(l, fr) := r in ret (Expanded l (pop fr)))
        else ret (Expanded l (pop fr))
    | None => ret (Expanded l (pop fr))
    end.

Definition empty_braces : string := "{}".

Definition isEmpty_leaf (full_name : string) : feature :=
  let d := "{doc 'Added option to select when emptyDir is empty declared " ++ empty_braces ++ " '}" in
  leaf (full_name ++ "_isEmpty " ++ d) optional d "".

Definition isNull_leaf (full_name : string) : feature :=
  let d := "{doc 'Added option to select when creationTimestamp is empty declared: null'}" in
  leaf (full_name ++ "_isNull " ++ d) optional d "".

Definition isEmpty02_leaf (full_name : string) : feature :=
  let d := "{doc 'Added option to select when fieldsV1 is empty declared: " ++ empty_braces ++ "'}" in
  leaf (full_name ++ "_isEmpty02 " ++ d) optional d "".

(** [ref_schema.get('description', '')], as a string on which [replace] is
    then called. *)
Definition description_of (ref_schema : jnode) : result string :=
  let* d := node_get ref_schema "description" in
  as_text (get_or d (NText "")).

(** The branch [if '$ref' in details]. *)
Definition expand_ref (rec : parser) (current_depth : nat) (ref : string)
    (l : locals) (fr : frame) : M expansion :=
  follow ref l fr (fun ref_schema ref_name fr =>
    let full_name := l_full_name l in
    if node_in "properties" ref_schema then
      tryM (node_item ref_schema "properties") (fun sub_properties =>
      tryM (node_get ref_schema "required") (fun sub_required =>
      mbind (recurse rec sub_properties (get_or sub_required (NNames [])) full_name
                     current_depth l fr)
        (fun r =>
           let '(l, fr) := r in
           if Py.endswith "emptyDir" full_name || Py.endswith "EmptyDirVolumeSource" full_name
           then ret (extend l [isEmpty_leaf full_name], fr)
           else ret (l, fr))))
    else if node_in "oneOf" ref_schema then
      tryM (node_item ref_schema "oneOf") (fun oneOf =>
      tryM (process_oneOf_value (fr_proc fr) oneOf (sanitize_name full_name) (l_feature_type l))
        (fun r =>
           let '(oneOf_feature, p) := r in
           ret (extend l (f_sub_features oneOf_feature), with_proc fr p)))
    else
      let sanitized_ref := sanitize_name (Py.split_last "_" ref_name) in
      tryM (description_of ref_schema) (fun aux_description_simples_schemas =>
      let aux_description_simples_schemas_sanitized :=
        clean_description aux_description_simples_schemas in
      tryM (node_get ref_schema "type") (fun type_value =>
      let '(type_data_schemas_refs_simple, p) :=
        sanitize_type_value (fr_proc fr) (get_or type_value (NText "")) in
      let l := extend l [Feature (full_name ++ "_" ++ sanitized_ref
                                    ++ doc aux_description_simples_schemas_sanitized)
                                 optional aux_description_simples_schemas []
                                 type_data_schemas_refs_simple] in
      let l :=
        if Py.endswith "creationTimestamp" full_name then extend l [isNull_leaf full_name]
        else if Py.endswith "fieldsV1" full_name then extend l [isEmpty02_leaf full_name]
        else l in
      ret (l, with_proc fr p)))).

Definition array_description (what values name : string) : string :=
  "Added " ++ what ++ " mandatory for complete structure Array in the model The modified is not in json but provide represents, Array of "
    ++ values ++ ": " ++ name.

(** The branch [elif 'items' in details]. *)
Definition expand_items (rec : parser) (current_depth : nat) (items : schema)
    (l : locals) (fr : frame) : M expansion :=
  match s_ref items with
  | Some ref =>
      follow ref l fr (fun ref_schema ref_name fr =>
        if node_in "properties" ref_schema then
          tryM (node_item ref_schema "properties") (fun sub_properties =>
          tryM (node_get ref_schema "required") (fun sub_required =>
          recurse rec sub_properties (get_or sub_required (NNames [])) (l_full_name l)
                  current_depth l fr))
        else
          let sanitized_ref := sanitize_name (Py.split_last "_" ref_name) in
          let full_name := Py.replace card1 "" (l_full_name l) in
          tryM (description_of ref_schema) (fun aux_description_items_schemas =>
          let aux_description_items_sanitized := clean_description aux_description_items_schemas in
          ret (extend (with_full_name l full_name)
                      [leaf (full_name ++ "_" ++ sanitized_ref
                               ++ doc aux_description_items_sanitized)
                            optional aux_description_items_sanitized ""],
               fr)))
  | None =>
      match s_type items with
      | Some type_data_items =>
          if is_cardinality (fr_proc fr) then
            let full_name := Py.replace card1 "" (l_full_name l) in
            let l := with_full_name l full_name in
            if String.eqb type_data_items "string" && negb (l_bool_added_value l) then
              let d := array_description "String" "Strings" "StringValue" in
              ret (Expanded (extend l [leaf (full_name ++ "_StringValue" ++ doc d)
                                            mandatory d "String"]) fr)
            else if String.eqb type_data_items "integer" then
              let d := array_description "Integer" "Integers" "IntegerValue" in
              ret (Expanded (extend l [leaf (full_name ++ "_IntegerValue" ++ doc d)
                                            mandatory d "Integer"]) fr)
            else ret (Expanded l fr)
          else ret (Expanded l fr)
      | None => ret (Expanded l fr)
      end
  end.

Definition list_local_features_maps : list string :=
  ["Map of"; "matchLabels is a map of"; "label keys and values"].

(** The branch [elif 'additionalProperties' in details]. *)
Definition expand_additional (rec : parser) (current_depth : nat)
    (additional_properties : schema) (l : locals) (fr : frame) : M expansion :=
  match s_ref additional_properties with
  | Some ref =>
      follow ref l fr (fun ref_schema ref_name fr =>
        if node_in "properties" ref_schema then
          tryM (node_item ref_schema "properties") (fun sub_properties =>
          recurse rec sub_properties (NNames []) (l_full_name l) current_depth l fr)
        else if node_in "oneOf" ref_schema then
          let full_name := Py.replace card1 "" (l_full_name l) in
          tryM (node_item ref_schema "oneOf") (fun oneOf =>
          tryM (process_oneOf_value (fr_proc fr) oneOf (sanitize_name full_name)
                                   (l_feature_type l))
            (fun r =>
               let '(oneOf_feature, p) := r in
               ret (extend (with_full_name l full_name) (f_sub_features oneOf_feature),
                    with_proc fr p)))
        else
          let sanitized_ref := sanitize_name (Py.split_last "_" ref_name) in
          let full_name := Py.replace card1 "" (l_full_name l) in
          tryM (description_of ref_schema) (fun aux_description_additional_schemas =>
          let aux_description_additional_sanitized :=
            clean_description aux_description_additional_schemas in
          ret (extend (with_full_name l full_name)
                      [leaf (full_name ++ "_" ++ sanitized_ref
                               ++ doc aux_description_additional_sanitized)
                            optional aux_description_additional_schemas ""],
               fr)))
  | None =>
      match s_items additional_properties, s_type additional_properties with
      | Some items, _ =>
          if is_cardinality (fr_proc fr) then
            match s_type items with
            | None => raise "KeyError"
            | Some type_data_additional_items =>
                if String.eqb type_data_additional_items "string" && negb (l_bool_added_value l)
                then
                  let full_name := Py.replace card1 "" (l_full_name l) in
                  let d := "Added String mandatory for complete structure Array in the model into AdditionalProperties array Array of Strings: StringValue" in
                  ret (Expanded (extend (with_full_name l full_name)
                                        [leaf (full_name ++ "_StringValueAdditional" ++ doc d)
                                              mandatory d "String"]) fr)
                else ret (Expanded l fr)
            end
          else
            (* the third test of the chain, when the second one fails on [is_cardinality] *)
            ret (Expanded l fr)
      | None, Some type_data_additional_properties =>
          if is_cardinality (fr_proc fr)
             && String.eqb type_data_additional_properties "string"
             && negb (l_bool_added_value l) then
            let full_name := Py.replace card0 "" (Py.replace card1 "" (l_full_name l)) in
            let l := with_full_name l full_name in
            let description := l_description l in
            let aux_description_string_properties :=
              "Added String mandatory for complete structure Object in the model The modified is not in json but provide represents, Array of Strings: StringValue" in
            let aux_description_maps_properties :=
              "Added Map for complete structure Object in the model The modified is not in json but provide represents, Array of pairs key, value: ValueMap, KeyMap" in
            let pair (k : kind) :=
              [leaf (full_name ++ "_KeyMap {doc 'key: " ++ aux_description_maps_properties ++ "'}")
                    k aux_description_maps_properties "String";
               leaf (full_name ++ "_ValueMap {doc 'value: " ++ aux_description_maps_properties ++ "'}")
                    k aux_description_maps_properties "String"] in
            if any_in list_local_features_maps description then
              ret (Expanded (extend l (pair mandatory)) fr)
            else if Py.contains unstructured description then
              ret (Expanded (extend l (pair optional)) fr)
            else
              ret (Expanded (extend l [leaf (full_name ++ "_StringValueAdditional"
                                               ++ doc aux_description_string_properties)
                                            mandatory aux_description_string_properties "String"])
                            fr)
          else ret (Expanded l fr)
      | None, None => ret (Expanded l fr)
      end
  end.

(** One turn of the loop [for value in extracted_values]. *)
Definition value_leaf (full_name value : string) : list feature :=
  let bool_default_value := Py.contains "{default" value in
  let value := if bool_default_value then Py.replace " {default}" "" value else value in
  let full_name_value := full_name ++ "_" ++ value in
  if Py.contains "_Healthy" full_name_value then []
  else
    let aux_description_value := "Specific value: " ++ value in
    [leaf (if bool_default_value
           then full_name_value ++ " {default, doc '" ++ aux_description_value ++ "'}"
           else full_name_value ++ doc aux_description_value)
          alternative aux_description_value ""].

(** The test that guards the synthetic child of a coerced feature. *)
Definition override_test (full_name description : string) : bool :=
  any_in boolean_keywords full_name
  || existsb (fun keyword => is_some (search false keyword full_name)) boolean_keywords_regex
  || (any_in special_features_config full_name && Py.contains cannot_be_set description).

(** [if extracted_values: ... else: ...]: the value leaves, or the
    synthetic child that keeps the original scalar type. *)
Definition add_values_or_scalar (l : locals) (fr : frame) : locals :=
  if l_bool_added_value l then
    let l := with_feature l (set_type_data (l_feature l) "") in
    let full_name := Py.replace card1 "" (l_full_name l) in
    let l := with_full_name l full_name in
    match l_extracted_values l with
    | Some values => extend l (flat_map (value_leaf full_name) (set_order values))
    | None => l
    end
  else if override_test (l_full_name l) (l_description l) then
    let full_name := Py.replace " {abstract}" "" (l_full_name l) in
    let l := with_full_name l full_name in
    let original := feature_aux_original_type (fr_proc fr) in
    let aux_description_mandatory :=
      "Added String mandatory for changing booleans of boolean_keywords: " ++ original
        ++ " *_name" in
    if in_list original ["String"; "string"] then
      extend l [leaf (full_name ++ "_nameStr" ++ doc aux_description_mandatory)
                     mandatory aux_description_mandatory "String"]
    else if in_list original ["Integer"; "integer"] then
      extend l [leaf (full_name ++ "_valueInt" ++ doc aux_description_mandatory)
                     mandatory aux_description_mandatory "Integer"]
    else l
  else l.

(** [if 'properties' in details: ...] *)
Definition nested_properties (rec : parser) (current_depth : nat) (details : schema)
    (l : locals) (fr : frame) : M (locals * frame) :=
  match s_properties details with
  | Some sub_properties =>
      let sub_required := NNames (get_or (s_required details) []) in
      let value_sanitized_name := strip_annotations (l_full_name l) in
      recurse rec (NProperties sub_properties) sub_required value_sanitized_name current_depth l fr
  | None => ret (l, fr)
  end.

(** The same test when [details] is a dictionary of schema objects: the
    value under ['properties'] is a schema object, and so is the value
    under ['required']. *)
Definition nested_map_properties (rec : parser) (current_depth : nat) (details : properties)
    (l : locals) (fr : frame) : M (locals * frame) :=
  match Analisis.dict_get details "properties" with
  | Some sub_properties =>
      let sub_required :=
        match Analisis.dict_get details "required" with
        | Some r => NSchema r
        | None => NNames []
        end in
      let value_sanitized_name := strip_annotations (l_full_name l) in
      recurse rec (NSchema sub_properties) sub_required value_sanitized_name current_depth l fr
  | None => ret (l, fr)
  end.

(** The end of an iteration: the node joins its list and the name is added
    to [processed_features]. *)
Definition finish_property (l : locals) (fr : frame) : frame :=
  let p := fr_proc fr in
  let p := with_processed p ({[l_full_name l]} ∪ processed_features p) in
  match l_feature_type l with
  | mandatory =>
      Frame p (fr_stack fr) (fr_mandatory fr ++ [l_feature l])%list (fr_optional fr)
            (fr_abstract_bool fr) (fr_cleaned_description fr)
  | _ =>
      Frame p (fr_stack fr) (fr_mandatory fr) (fr_optional fr ++ [l_feature l])%list
            (fr_abstract_bool fr) (fr_cleaned_description fr)
  end.

(** The structural branch of an iteration: one of ['$ref'], ['items'],
    ['additionalProperties'], in this order, or none. *)
Definition expand (rec : parser) (current_depth : nat) (details : schema)
    (l : locals) (fr : frame) : M expansion :=
  match s_ref details, s_items details, s_additionalProperties details with
  | Some ref, _, _ => expand_ref rec current_depth ref l fr
  | None, Some items, _ => expand_items rec current_depth items l fr
  | None, None, Some additional_properties =>
      expand_additional rec current_depth additional_properties l fr
  | None, None, None => ret (Expanded l fr)
  end.

(** The same branch when [details] is a dictionary of schema objects.  The
    value under ['$ref'] is then a schema object: it is not on the stack, it
    is pushed, and [resolve_reference] looks it up in the dictionary
    [resolved_references], which raises [TypeError] on a key that cannot be
    hashed. *)
Definition expand_map (rec : parser) (current_depth : nat) (details : properties)
    (l : locals) (fr : frame) : M expansion :=
  match Analisis.dict_get details "$ref", Analisis.dict_get details "items",
        Analisis.dict_get details "additionalProperties" with
  | Some _, _, _ => raise "TypeError"
  | None, Some items, _ => expand_items rec current_depth items l fr
  | None, None, Some additional_properties =>
      expand_additional rec current_depth additional_properties l fr
  | None, None, None => ret (Expanded l fr)
  end.

(** An iteration from the creation of the node on: the structural branch,
    the values or the synthetic child, the nested properties, the end. *)
Definition iteration (begun : result (locals * frame))
    (branch : locals -> frame -> M expansion)
    (nested : locals -> frame -> M (locals * frame)) : M frame :=
  tryM begun (fun lf =>
    let '(l, fr) := lf in
    mbind (branch l fr) (fun e =>
      match e with
      | Skipped fr => ret fr
      | Expanded l fr =>
          let l := add_values_or_scalar l fr in
          mbind (nested l fr) (fun r => let '(l, fr) := r in ret (finish_property l fr))
      end)).

(** The body of [for prop, details in current_properties.items()].
    [details] is a schema object when the properties are those of a schema;
    it can be another value when the properties are a schema object that is
    enumerated as a dictionary.  On a string or a list,
    [details.get('description', '')] raises [AttributeError].  (The document
    itself has the one key ['definitions'], which the body does not read.) *)
Definition property_step (rec : parser) (current_required : jnode)
    (current_parent : string) (current_depth : nat) (prop : string) (details : jnode)
    (fr : frame) : M frame :=
  let sanitized_name := sanitize_name prop in
  let full_name := qualify current_parent sanitized_name in
  if mem full_name (processed_features (fr_proc fr)) then ret fr
  else
    match details with
    | NSchema details =>
        iteration (begin_property fr current_required prop details full_name)
                  (expand rec current_depth details)
                  (nested_properties rec current_depth details)
    | NProperties details =>
        iteration (begin_map_property fr current_required prop details full_name)
                  (expand_map rec current_depth details)
                  (nested_map_properties rec current_depth details)
    | NDocument =>
        iteration (begin_map_property fr current_required prop [] full_name)
                  (expand_map rec current_depth [])
                  (nested_map_properties rec current_depth [])
    | _ => raise "AttributeError"
    end.

Fixpoint properties_loop (rec : parser) (current_required : jnode)
    (current_parent : string) (current_depth : nat) (current_properties : list (string * jnode))
    (fr : frame) : M frame :=
  match current_properties with
  | [] => ret fr
  | (prop, details) :: rest =>
      mbind (property_step rec current_required current_parent current_depth prop details fr)
            (properties_loop rec current_required current_parent current_depth rest)
  end.

(** [parse_properties].  The queue of the source receives one element and
    nothing is ever added to it: the [while] loop runs its body once.
    [fuel] bounds the depth of the recursive calls; [None] is "out of
    fuel". *)
Fixpoint parse_properties (fuel : nat) : parser :=
  fun properties required parent_name depth local_stack_refs p =>
    match fuel with
    | O => None
    | S fuel' =>
        tryM (items_of properties) (fun current_properties =>
        mbind (properties_loop (parse_properties fuel') required parent_name depth
                 current_properties (Frame p local_stack_refs [] [] false None))
              (fun fr => ret (fr_mandatory fr, fr_optional fr, fr_stack fr, fr_proc fr)))
    end.

End Builder.

(** *** The serializer *)

Definition tab : string := String (ascii_of_nat 9) "".
Definition nl : string := String newline "".

Fixpoint tabs (n : nat) : string :=
  match n with
  | O => ""
  | S k => tab ++ tabs k
  end.

(** The list [boolean_keywords] local to [properties_to_uvl]. *)
Definition uvl_boolean_keywords : list string :=
  ["AppArmorProfile_localhostProfile"; "appArmorProfile_localhostProfile";
   "seccompProfile_localhostProfile"; "SeccompProfile_localhostProfile";
   "IngressClassList_items_spec_parameters_namespace";
   "IngressClassParametersReference_namespace"; "IngressClass_spec_parameters_namespace";
   "IngressClassSpec_parameters_namespace"].

(** The type prefix of a line.  [capitalize] is called on ['type_data']
    when it is true: it raises on a dictionary. *)
Definition type_str (f : feature) : result string :=
  let* t :=
    (if node_truthy (f_type_data f) then
       let* type_data := as_text (f_type_data f) in
       Ok (Py.capitalize type_data ++ " ")
     else Ok "Boolean ") in
  let t := if String.eqb t "Boolean " then "" else t in
  Ok (if any_in uvl_boolean_keywords (f_name f) && negb (Py.endswith "nameStr" (f_name f))
      then "" else t).

(** The lines of one feature; [properties_to_uvl] on a list is the
    concatenation.  A group is the sub-features of one kind, in the order
    of [sub_features]. *)
Fixpoint feature_to_uvl (indent : nat) (f : feature) : result string :=
  let indent_str := tabs indent in
  let members (k : kind) : result string :=
    (fix go (l : list feature) : result string :=
       match l with
       | [] => Ok ""
       | x :: r =>
           let* lines := (if kind_eqb (f_type x) k then feature_to_uvl (indent + 2) x else Ok "") in
           let* more := go r in
           Ok (lines ++ more)
       end) (f_sub_features f) in
  let group (k : kind) (header : string) : result string :=
    if existsb (fun x => kind_eqb (f_type x) k) (f_sub_features f)
    then let* lines := members k in Ok (indent_str ++ tab ++ header ++ nl ++ lines)
    else Ok "" in
  let* type_prefix := type_str f in
  let* sub_mandatory := group mandatory "mandatory" in
  let* sub_optional := group optional "optional" in
  let* sub_alternative := group alternative "alternative" in
  Ok (indent_str ++ type_prefix ++ f_name f ++ nl
      ++ sub_mandatory ++ sub_optional ++ sub_alternative).

Fixpoint properties_to_uvl (feature_list : list feature) (indent : nat) : result string :=
  match feature_list with
  | [] => Ok ""
  | f :: rest =>
      let* lines := feature_to_uvl indent f in
      let* more := properties_to_uvl rest indent in
      Ok (lines ++ more)
  end.

(** *** The driver *)

Section Driver.

Variable set_order : gset string -> list string.
Variable key_order : schema -> list string.
Variable fuel : nat.

(** The body of the loop of [generate_uvl_from_definitions] over the
    definitions of the document. *)
Definition schema_step (definitions : properties) (acc : string * proc)
    (schema_name : string) (schema : schema) : M (string * proc) :=
  let '(uvl_output, processor) := acc in
  let root_schema := get_or (s_properties schema) [] in
  let required := get_or (s_required schema) [] in
  mbind (parse_properties set_order key_order definitions fuel (NProperties root_schema)
           (NNames required) (sanitize_name schema_name) 0 [] processor)
    (fun r =>
       let '(mandatory_features, optional_features, _, processor) := r in
       let schema_description_aux := get_or (s_description schema) "" in
       let cleaned_description :=
         if negb (String.eqb schema_description_aux "")
         then clean_description schema_description_aux
         else "Auto doc generate for not add empty Strings No descripcion in schemas JSON" in
       let head := tabs 3 ++ sanitize_name schema_name ++ doc cleaned_description ++ nl in
       tryM (if negb (is_nil mandatory_features) then
              let* sub_mandatory := properties_to_uvl mandatory_features 5 in
              let* sub_optional :=
                (if negb (is_nil optional_features)
                 then let* lines := properties_to_uvl optional_features 5 in
                      Ok (tabs 4 ++ "optional" ++ nl ++ lines)
                 else Ok "") in
              Ok (uvl_output ++ head ++ tabs 4 ++ "mandatory" ++ nl ++ sub_mandatory
                    ++ sub_optional)
            else if negb (is_nil optional_features) then
              let* sub_optional := properties_to_uvl optional_features 5 in
              Ok (uvl_output ++ head ++ tabs 4 ++ "optional" ++ nl ++ sub_optional)
            else Ok uvl_output)
         (fun uvl_output =>
            if is_nil root_schema then
              match s_oneOf schema with
              | Some oneOf =>
                  let '(oneOf_feature, processor) :=
                    process_oneOf processor oneOf (sanitize_name schema_name) optional in
                  tryM (properties_to_uvl [oneOf_feature] 3) (fun lines =>
                  ret (uvl_output ++ lines, processor))
              | None => ret (uvl_output ++ head, processor)
              end
            else ret (uvl_output, processor))).

Fixpoint schemas_loop (definitions : properties) (todo : properties) (acc : string * proc)
  : M (string * proc) :=
  match todo with
  | [] => ret acc
  | (schema_name, schema) :: rest =>
      mbind (schema_step definitions acc schema_name schema) (schemas_loop definitions rest)
  end.

Definition header : string :=
  "namespace KubernetesTest1" ++ nl ++ "features" ++ nl ++ tab ++ "Kubernetes {abstract}" ++ nl
    ++ tabs 2 ++ "optional" ++ nl.

(** [generate_uvl_from_definitions]: the text written to the output file
    and the processor, whose descriptions are written to the side file. *)
Definition generate_uvl_from_definitions (definitions : properties) : M (string * proc) :=
  schemas_loop definitions definitions (header, init_proc).

Definition to_restriction (e : description_entry) : Analisis.restriction :=
  Analisis.Restriction (e_feature_name e) (e_description e) (e_type_data e).

(** The script: the model, then the constraints computed from the side
    file and appended to the output.  The result is the final content of
    the output file, the list of the constraints and the number that
    [generar_constraintsDef] reports. *)
Definition run (definitions : properties) : M (string * list string * nat) :=
  mbind (generate_uvl_from_definitions definitions) (fun r =>
    let '(uvl_output, processor) := r in
    match Analisis.generar_constraintsDef 0 (map to_restriction (d_restrictions processor)) with
    | Raise e => raise e
    | Ok (restrictions, count) =>
        ret (uvl_output ++ "constraints" ++ nl
               ++ String.concat "" (map (fun restrict => tab ++ restrict ++ nl) restrictions),
             restrictions, count)
    end).

End Driver.

End Convert.

(** ** Measures on documents

    The recursion of [parse_properties] is bounded by two quantities: the
    nesting depth of the values of the document, and the number of
    references of the document that are not on the stack. *)

Module Measure.
Import Convert.

Definition omax {A : Type} (f : A -> nat) (o : option A) : nat :=
  match o with Some a => f a | None => 0 end.

(** Nesting depth of a schema object. *)
Fixpoint depth (s : schema) : nat :=
  match s with
  | Schema _ _ _ items additional props _ _ oneOf =>
      S (Nat.max (omax depth items)
        (Nat.max (omax depth additional)
        (Nat.max
           (omax (fix go (l : list (string * schema)) : nat :=
                    match l with
                    | [] => 0
                    | x :: r => Nat.max (depth (snd x)) (go r)
                    end) props)
           (omax (fix go (l : list schema) : nat :=
                    match l with
                    | [] => 0
                    | x :: r => Nat.max (depth x) (go r)
                    end) oneOf))))
  end.

(** Depth of a property map: the largest depth of its values. *)
Fixpoint pdepth (ps : properties) : nat :=
  match ps with
  | [] => 0
  | x :: r => Nat.max (depth (snd x)) (pdepth r)
  end.

Definition olist {A B : Type} (f : A -> list B) (o : option A) : list B :=
  match o with Some a => f a | None => [] end.

(** The references that occur in a schema object. *)
Fixpoint refs (s : schema) : list string :=
  match s with
  | Schema _ _ ref items additional props _ _ oneOf =>
      (olist (fun r => [r]) ref
       ++ olist refs items
       ++ olist refs additional
       ++ olist (fix go (l : list (string * schema)) : list string :=
                   match l with
                   | [] => []
                   | x :: r => refs (snd x) ++ go r
                   end) props
       ++ olist (fix go (l : list schema) : list string :=
                   match l with
                   | [] => []
                   | x :: r => refs x ++ go r
                   end) oneOf)%list
  end.

Fixpoint prefs (ps : properties) : list string :=
  match ps with
  | [] => []
  | x :: r => (refs (snd x) ++ prefs r)%list
  end.

Section Document.

Variable definitions : properties.

(** The references that occur in a value. *)
Definition nrefs (n : jnode) : list string :=
  match n with
  | NDocument => prefs definitions
  | NSchema s => refs s
  | NProperties ps => prefs ps
  | _ => []
  end.

(** The weight of a value that is the [details] of an iteration. *)
Definition weight (n : jnode) : nat :=
  match n with
  | NSchema s => 2 * depth s
  | NProperties ps => 2 * pdepth ps + 1
  | _ => 0
  end.

(** The largest weight of the items of a value that is enumerated. *)
Definition span (n : jnode) : nat :=
  match n with
  | NDocument => 2 * pdepth definitions + 1
  | NSchema s => 2 * depth s - 1
  | NProperties ps => 2 * pdepth ps
  | _ => 0
  end.

(** The references of a run: those of the properties of the first call
    and those of the document, without repetition. *)
Definition universe (props : jnode) : list string :=
  nodup string_dec (nrefs props ++ prefs definitions)%list.

Definition height (props : jnode) : nat :=
  Nat.max (span props) (2 * pdepth definitions + 1).

Definition enough_fuel (props : jnode) : nat :=
  S (List.length (universe props) * S (height props) + height props).

(** The values that a pointer can reach are parts of the document. *)
Definition node_bounded (n : jnode) : Prop :=
  match n with
  | NSchema s => (depth s <= pdepth definitions)%nat /\ incl (refs s) (prefs definitions)
  | NProperties ps => (pdepth ps <= pdepth definitions)%nat /\ incl (prefs ps) (prefs definitions)
  | _ => True
  end.

End Document.

(** How many references of [u] are not on the stack. *)
Definition fresh (u stack : list string) : nat :=
  List.length (List.filter (fun r => negb (in_list r stack)) u).

(** The fuel that a call needs at most. *)
Definition need (definitions : properties) (u : list string) (h : nat) (stack : list string)
    (props : jnode) : nat :=
  fresh u stack * S h + span definitions props.

(** The reference that the structural branch of an iteration follows, if
    it follows one: ['$ref'], else the ['$ref'] of ['items'], else the
    ['$ref'] of ['additionalProperties']. *)
Definition followed_reference (details : schema) : option string :=
  match s_ref details, s_items details, s_additionalProperties details with
  | Some ref, _, _ => Some ref
  | None, Some items, _ => s_ref items
  | None, None, Some additional => s_ref additional
  | None, None, None => None
  end.

(** [keeps get stack m]: the computation [m] gives an outcome, and when the
    outcome is a value its stack is [stack]. *)
Definition keeps {A : Type} (get : A -> list string) (stack : list string) (m : M A) : Prop :=
  exists r, m = Some r /\ forall a, r = Ok a -> get a = stack.

Definition result_stack (r : list feature * list feature * list string * proc) : list string :=
  snd (fst r).

Definition pair_stack (x : locals * frame) : list string := fr_stack (snd x).

Definition expansion_stack (e : expansion) : list string :=
  match e with
  | Skipped fr => fr_stack fr
  | Expanded _ fr => fr_stack fr
  end.

(** A parser is good for a budget when it answers, and gives the stack
    back, on every call whose need is below the budget. *)
Definition good (definitions : properties) (u : list string) (h : nat) (rec : parser)
    (budget : nat) : Prop :=
  forall ps req parent depth stack p,
    incl (nrefs definitions ps) u -> (need definitions u h stack ps < budget)%nat ->
    keeps result_stack stack (rec ps req parent depth stack p).

(** The list of required names that the branch passes to the recursive
    call on the properties of the schema object [s]: those of [s] after
    ['$ref'] and after the ['$ref'] of ['items'], none after the ['$ref'] of
    ['additionalProperties']. *)
Definition passed_required (details s : schema) : jnode :=
  match s_ref details, s_items details with
  | None, None => NNames []
  | _, _ => NNames (get_or (s_required s) [])
  end.

(** What the branch leaves when the recursive call has returned the lists
    [m] and [o], the stack [stack] and the processor [p]: the iteration goes
    on, the last element of the stack is removed, and the sub-features of
    the node are extended by [m], [o] and possibly more. *)
Definition expanded_with (l : locals) (fr : frame) (m o : list feature) (stack : list string)
    (p : proc) (e : M expansion) : Prop :=
  exists (l' : locals) (tail : list feature),
    e = ret (Expanded l' (Frame p (removelast stack) (fr_mandatory fr) (fr_optional fr)
                                (fr_abstract_bool fr) (fr_cleaned_description fr)))
    /\ f_sub_features (l_feature l')
       = (f_sub_features (l_feature l) ++ m ++ o ++ tail)%list
    /\ l_full_name l' = l_full_name l.






(** A token of [extract_values]: not empty, at most 24 characters, none of
    the excluded characters or words. *)
Definition token (w : string) : Prop :=
  (negb (String.eqb w "") && (Py.len w <=? 24)%nat
   && negb (any_in ["."; "{"; "}"; "["; "]"; ";"; ":"; "prefixed_keys"] w)) = true.

(** The schema objects of a document: the definitions, and the objects
    under the keys ['items'], ['additionalProperties'] and ['properties']
    of a schema object of the document. *)
Inductive inside (definitions : properties) : schema -> Prop :=
| inside_definition (name : string) (s : schema) :
    In (name, s) definitions -> inside definitions s
| inside_items (s i : schema) :
    inside definitions s -> s_items s = Some i -> inside definitions i
| inside_additional (s a : schema) :
    inside definitions s -> s_additionalProperties s = Some a -> inside definitions a
| inside_property (s : schema) (ps : properties) (name : string) (x : schema) :
    inside definitions s -> s_properties s = Some ps -> In (name, x) ps ->
    inside definitions x.

(** A value of the document: a schema object of the document, the
    dictionary of the definitions or of the properties of such an object,
    or a string or a list. *)
Definition node_inside (definitions : properties) (n : jnode) : Prop :=
  match n with
  | NSchema s => inside definitions s
  | NProperties ps =>
      ps = definitions \/ exists s, inside definitions s /\ s_properties s = Some ps
  | _ => True
  end.

(** A name that can stand at the end of a pointer [#/definitions/Name]:
    not empty, without [/], and not ending in [#]. *)
Definition pointer_name (name : string) : Prop :=
  name <> "" /\ ~ In "/"%char (Py.chars name)
  /\ List.last (Py.chars name) "a"%char <> "#"%char.

End Measure.

(** ** Notions used by the statements about patterns *)

(** The outcome [o] is a value that satisfies [Q]. *)
Definition gives {A : Type} (o : option A) (Q : A -> Prop) : Prop :=
  exists v, o = Some v /\ Q v.

(** The character [x] is in the class [Chr neg p]. *)
Definition in_class (ic neg : bool) (p : ascii -> bool) (x : ascii) : bool :=
  xorb neg (Re.class_match ic p x).

(** A repetition of the class stops in front of [post]. *)
Definition stops (ic neg : bool) (p : ascii -> bool) (post : list ascii) : Prop :=
  match post with
  | [] => True
  | x :: _ => in_class ic neg p x = false
  end.

(** The state of a search at position [i] of [text]. *)
Definition state_at (text : list ascii) (i : nat) : Re.state :=
  Re.State (rev (firstn i text)) (skipn i text) [].

Module Phrase.

(** The first occurrence of [phrase] in [text] starts at position [n]
    (whatever the case of the letters when [ic] is set). *)
Definition first_at (ic : bool) (phrase text : string) (n : nat) : Prop :=
  exists m, Re.search ic (Re.lit phrase) text = Some m /\ Re.m_start m = n.

(** Decimal digits, at least one. *)
Definition number (s : string) : Prop := Py.isdigit s = true.

(** A property name: word characters, at least one. *)
Definition name (s : string) : Prop :=
  s <> "" /\ forallb Py.is_word (Py.chars s) = true.

(** A value: at least one character, none of them a double quote or a
    backtick, the first one not a blank. *)
Definition value (s : string) : Prop :=
  match s with
  | "" => False
  | String c _ => Py.is_space c = false
  end
  /\ forallb (fun c => negb (Py.mem_char (String dq "`") c)) (Py.chars s) = true.

(** The text is over or goes on with a character that satisfies [p]. *)
Definition over_or (p : ascii -> bool) (s : string) : Prop :=
  match s with
  | "" => True
  | String c _ => p c = true
  end.


End Phrase.


(** ** Two runs side by side

    The notions used to compare two runs of the generator that differ by
    the order in which the sets of values are enumerated.  [exact] says
    whether the two orders are known to be the same. *)

Module Agreement.
Import Convert.

(** Equal when the orders are the same, unrelated otherwise: the parts of
    the output that are built from the value sets. *)
Definition same (exact : bool) {A : Type} (x y : A) : Prop := exact = true -> x = y.

(** The outcomes of two computations: two values related by [R], the same
    exception, or no answer twice; when the orders may differ, the two
    outcomes need not be of the same kind. *)
Definition agree (exact : bool) {A B : Type} (R : A -> B -> Prop) (m : M A) (m' : M B) : Prop :=
  match m, m' with
  | Some (Ok a), Some (Ok b) => R a b
  | Some (Raise e), Some (Raise e') => exact = true -> e = e'
  | None, None => True
  | _, _ => exact = false
  end.

(** Two states of the variables of an iteration: they differ by the node
    at most. *)
Definition locals_agree (exact : bool) (l l' : locals) : Prop :=
  exists f', same exact (l_feature l) f' /\ l' = with_feature l f'.

(** Two states of a call: they differ by the two result lists at most. *)
Definition frame_agree (exact : bool) (fr fr' : frame) : Prop :=
  exists m' o',
    same exact (fr_mandatory fr) m' /\ same exact (fr_optional fr) o'
    /\ fr' = Frame (fr_proc fr) (fr_stack fr) m' o' (fr_abstract_bool fr)
                   (fr_cleaned_description fr).

Definition pair_agree (exact : bool) (x y : locals * frame) : Prop :=
  locals_agree exact (fst x) (fst y) /\ frame_agree exact (snd x) (snd y).

Definition expansion_agree (exact : bool) (e e' : expansion) : Prop :=
  match e, e' with
  | Skipped fr, Skipped fr' => frame_agree exact fr fr'
  | Expanded l fr, Expanded l' fr' => locals_agree exact l l' /\ frame_agree exact fr fr'
  | _, _ => False
  end.

(** Two results of [parse_properties]: the same stack and the same
    processor. *)
Definition result_agree (exact : bool)
    (r r' : list feature * list feature * list string * proc) : Prop :=
  same exact (fst (fst (fst r))) (fst (fst (fst r')))
  /\ same exact (snd (fst (fst r))) (snd (fst (fst r')))
  /\ snd (fst r) = snd (fst r') /\ snd r = snd r'.

Definition parser_agree (exact : bool) (rec rec' : parser) : Prop :=
  forall ps req parent d st p,
    agree exact (result_agree exact) (rec ps req parent d st p) (rec' ps req parent d st p).

(** Two states of the driver: the same processor. *)
Definition output_agree (exact : bool) (x y : string * proc) : Prop :=
  same exact (fst x) (fst y) /\ snd x = snd y.

(** Two results of the script: the same constraints and the same count. *)
Definition run_agree (exact : bool) (x y : string * list string * nat) : Prop :=
  same exact (fst (fst x)) (fst (fst y)) /\ snd (fst x) = snd (fst y) /\ snd x = snd y.

(** An enumeration of the sets in the opposite order of [elements]. *)
Definition backwards (s : gset string) : list string := rev (elements s).

End Agreement.

(** ** Examples used by the statements *)

Module Examples.
Import Convert.

Definition no_schema : schema := Schema None None None None None None None None None.

(** [{'type': t}] *)
Definition of_type (t : string) : schema :=
  Schema None (Some t) None None None None None None None.

(** [{'description': d, 'type': t}] *)
Definition described (d t : string) : schema :=
  Schema (Some d) (Some t) None None None None None None None.

(** [{'$ref': r}] *)
Definition ref_to (r : string) : schema :=
  Schema None None (Some r) None None None None None None.

(** [{'type': 'array', 'items': {'$ref': r}}] *)
Definition array_of (r : string) : schema :=
  Schema None (Some "array") None (Some (ref_to r)) None None None None None.

(** [{'type': 'object', 'additionalProperties': {'$ref': r}}] *)
Definition map_of (r : string) : schema :=
  Schema None (Some "object") None None (Some (ref_to r)) None None None None.

(** [{'properties': ps}] *)
Definition object (ps : properties) : schema :=
  Schema None None None None None (Some ps) None None None.

(** The keys of a schema object in the order of the fields of the
    record. *)
Definition record_order (s : schema) : list string :=
  ["description"; "type"; "$ref"; "items"; "additionalProperties"; "properties"; "required";
   "enum"; "oneOf"].

(** The elements of a set of strings in the order of [elements]. *)
Definition listed (s : gset string) : list string := elements s.



(** A definition with two array properties whose names differ only by
    characters that [sanitize_name] maps to the underscore. *)
Definition twin_arrays : properties :=
  [("a-b", of_type "array"); ("a.b", of_type "array")].

(** A definition that refers to itself twice. *)
Definition tree_node : properties :=
  [("Node", object [("left", ref_to "#/definitions/Node");
                    ("right", ref_to "#/definitions/Node");
                    ("val", of_type "string")])].

(** A definition that refers to itself through the items of two arrays and
    through the values of two maps. *)
Definition forest : properties :=
  [("Tree", object [("kids", array_of "#/definitions/Tree");
                    ("more", array_of "#/definitions/Tree");
                    ("byName", map_of "#/definitions/Tree");
                    ("byKind", map_of "#/definitions/Tree");
                    ("val", of_type "string")])].


(** The names of the nodes of a list of features, in preorder. *)
Fixpoint names (f : feature) : list string :=
  f_name f ::
  (fix go (l : list feature) : list string :=
     match l with
     | [] => []
     | x :: r => (names x ++ go r)%list
     end) (f_sub_features f).

Definition all_names (l : list feature) : list string := flat_map names l.

(** The description of the field [type] of a Service, as in the
    Kubernetes schema up to the list of the values. *)
Definition service_type_description : string :=
  "type determines how the Service is exposed. Defaults to ClusterIP. Valid options are ExternalName, ClusterIP, NodePort, and LoadBalancer. "
  ++ q ++ "ClusterIP" ++ q ++ " allocates a cluster-internal IP address. If clusterIP is "
  ++ q ++ "None" ++ q ++ ", no virtual IP is allocated. " ++ q ++ "NodePort" ++ q
  ++ " builds on ClusterIP. " ++ q ++ "LoadBalancer" ++ q ++ " builds on NodePort. "
  ++ q ++ "ExternalName" ++ q ++ " aliases this service to the specified externalName.".

(** The same five values, quoted, without a default. *)
Definition five_values_description : string :=
  "values are " ++ q ++ "NodePort" ++ q ++ ", " ++ q ++ "ClusterIP" ++ q ++ ", " ++ q ++ "None"
  ++ q ++ ", " ++ q ++ "LoadBalancer" ++ q ++ ", " ++ q ++ "ExternalName" ++ q.

(** A definition with one field whose description lists two values. *)
Definition restart_policy : properties :=
  [("Pod", object [("restartPolicy",
                    described ("Valid values are " ++ q ++ "Always" ++ q ++ " and " ++ q
                                 ++ "Never" ++ q) "string")])].



End Examples.


(** * Properties *)

Import Convert Examples.

(** ** The matcher on a text that is known in part

    The descriptions of the statements below are of the form
    [pre ++ phrase ++ post]: the lemmas of this section follow [Re.run]
    through such a text. *)

Lemma chars_append (a b : string) : Py.chars (a ++ b) = (Py.chars a ++ Py.chars b)%list.
Proof.
  unfold Py.chars. induction a as [|c a IH]; simpl; [reflexivity|]. f_equal. exact IH.
Qed.

Lemma str_chars (s : string) : Py.str (Py.chars s) = s.
Proof. apply string_of_list_ascii_of_string. Qed.

Lemma chars_str (l : list ascii) : Py.chars (Py.str l) = l.
Proof. apply list_ascii_of_string_of_list_ascii. Qed.

Lemma length_chars (s : string) : List.length (Py.chars s) = String.length s.
Proof. unfold Py.chars. induction s as [|c s IH]; simpl; [reflexivity|]. f_equal. exact IH. Qed.

(** *** Character classes under [re.IGNORECASE] *)

Lemma class_match_self (ic : bool) (c : ascii) : Re.class_match ic (Ascii.eqb c) c = true.
Proof. unfold Re.class_match. rewrite Ascii.eqb_refl. destruct ic; reflexivity. Qed.

Lemma class_match_true (ic : bool) (p : ascii -> bool) (c : ascii) :
  p c = true -> Re.class_match ic p c = true.
Proof. intros H. unfold Re.class_match. rewrite H. destruct ic; reflexivity. Qed.

Ltac by_cases_on_char x :=
  destruct x as [[|] [|] [|] [|] [|] [|] [|] [|]]; reflexivity.

Lemma class_digit (ic : bool) (x : ascii) :
  Re.class_match ic Py.is_digit x = Py.is_digit x.
Proof. destruct ic; [|reflexivity]. by_cases_on_char x. Qed.






(** *** One pattern at one position *)

Section Matching.
Variable ic : bool.

Lemma run_seq {A : Type} (r1 r2 : Re.regex) (s : Re.state) (k : Re.state -> option A) :
  Re.run ic (Re.Seq r1 r2) s k = Re.run ic r1 s (fun s' => Re.run ic r2 s' k).
Proof. reflexivity. Qed.

Lemma run_chr_hit {A : Type} (neg : bool) (p : ascii -> bool) (x : ascii)
    (pre post : list ascii) (g : list (nat * list ascii)) (k : Re.state -> option A) :
  in_class ic neg p x = true ->
  Re.run ic (Re.Chr neg p) (Re.State pre (x :: post) g) k = k (Re.State (x :: pre) post g).
Proof. unfold in_class. intros H. cbn [Re.run Re.step_char Re.post Re.pre Re.groups]. rewrite H. reflexivity. Qed.


(** A literal in front of the position is passed. *)
Lemma run_lit_chars {A : Type} (L : list ascii) :
  forall (pre post : list ascii) (g : list (nat * list ascii)) (k : Re.state -> option A),
    Re.run ic (Re.lit_chars L) (Re.State pre (L ++ post) g) k
    = k (Re.State (rev L ++ pre) post g).
Proof.
  induction L as [|c L IH]; intros pre post g k; [reflexivity|].
  destruct L as [|c' L].
  - cbn [Re.lit_chars app rev]. unfold Re.chr. apply run_chr_hit.
    unfold in_class. rewrite class_match_self. reflexivity.
  - change (Re.lit_chars (c :: c' :: L)) with (Re.Seq (Re.chr c) (Re.lit_chars (c' :: L))).
    rewrite run_seq. change ((c :: c' :: L) ++ post)%list with (c :: ((c' :: L) ++ post))%list.
    unfold Re.chr at 1. rewrite run_chr_hit
      by (unfold in_class; rewrite class_match_self; reflexivity).
    rewrite IH. f_equal. f_equal.
    change (rev (c :: c' :: L)) with (rev (c' :: L) ++ [c])%list.
    rewrite <- app_assoc. reflexivity.
Qed.

Lemma run_lit {A : Type} (L : string) (pre post : list ascii) (g : list (nat * list ascii))
    (k : Re.state -> option A) :
  Re.run ic (Re.lit L) (Re.State pre (Py.chars L ++ post) g) k
  = k (Re.State (rev (Py.chars L) ++ pre) post g).
Proof. apply run_lit_chars. Qed.

(** A literal that is not in front of the position fails whatever
    follows it in the pattern. *)
Lemma run_lit_chars_none {A : Type} (L : list ascii) :
  forall (s : Re.state) (k : Re.state -> option A),
    Re.run ic (Re.lit_chars L) s (fun s' => Some s') = None ->
    Re.run ic (Re.lit_chars L) s k = None.
Proof.
  induction L as [|c L IH]; intros s k; [discriminate|].
  destruct L as [|c' L].
  - cbn [Re.lit_chars Re.run Re.chr]. destruct (Re.step_char s) as [[x s']|]; [|reflexivity].
    destruct (xorb false (Re.class_match ic (Ascii.eqb c) x)); [discriminate|reflexivity].
  - change (Re.lit_chars (c :: c' :: L)) with (Re.Seq (Re.chr c) (Re.lit_chars (c' :: L))).
    rewrite !run_seq. cbn [Re.run Re.chr].
    destruct (Re.step_char s) as [[x s']|]; [|reflexivity].
    destruct (xorb false (Re.class_match ic (Ascii.eqb c) x)); [|reflexivity].
    apply IH.
Qed.


(** *** Greedy repetition of a class *)

Lemma run_star_step {A : Type} (neg : bool) (p : ascii -> bool) (x : ascii)
    (pre post : list ascii) (g : list (nat * list ascii)) (k : Re.state -> option A) :
  in_class ic neg p x = true ->
  Re.run ic (Re.Star true (Re.Chr neg p)) (Re.State pre (x :: post) g) k
  = Re.orelse (Re.run ic (Re.Star true (Re.Chr neg p)) (Re.State (x :: pre) post g) k)
              (fun _ => k (Re.State pre (x :: post) g)).
Proof.
  unfold in_class. intros H.
  cbn [Re.run Re.step_char Re.post Re.pre Re.groups List.length]. rewrite H.
  rewrite (proj2 (Nat.ltb_lt (List.length post) (S (List.length post)))) by lia.
  reflexivity.
Qed.

Lemma run_star_stop {A : Type} (neg : bool) (p : ascii -> bool)
    (pre post : list ascii) (g : list (nat * list ascii)) (k : Re.state -> option A) :
  stops ic neg p post ->
  Re.run ic (Re.Star true (Re.Chr neg p)) (Re.State pre post g) k = k (Re.State pre post g).
Proof.
  unfold stops, in_class. destruct post as [|x r]; [reflexivity|]. intros H.
  cbn [Re.run Re.step_char Re.post Re.pre Re.groups List.length]. rewrite H. reflexivity.
Qed.

(** The repetition takes every character of the class that is in front of
    the position, when the rest of the pattern then succeeds. *)
Lemma gives_star {A : Type} (neg : bool) (p : ascii -> bool) (w : list ascii) :
  forall (pre post : list ascii) (g : list (nat * list ascii)) (k : Re.state -> option A)
         (Q : A -> Prop),
    forallb (in_class ic neg p) w = true ->
    stops ic neg p post ->
    gives (k (Re.State (rev w ++ pre) post g)) Q ->
    gives (Re.run ic (Re.Star true (Re.Chr neg p)) (Re.State pre (w ++ post) g) k) Q.
Proof.
  induction w as [|x w IH]; intros pre post g k Q Hw Hstop Hk.
  - cbn [app]. rewrite run_star_stop by exact Hstop. exact Hk.
  - cbn [forallb] in Hw. apply andb_prop in Hw as [Hx Hw].
    cbn [app]. rewrite run_star_step by exact Hx.
    destruct (IH (x :: pre) post g k Q Hw Hstop) as (v & Hv & HQ).
    { cbn [rev] in Hk. rewrite <- app_assoc in Hk. exact Hk. }
    exists v. rewrite Hv. split; [reflexivity|exact HQ].
Qed.


Lemma gives_plus {A : Type} (neg : bool) (p : ascii -> bool) (w : list ascii)
    (pre post : list ascii) (g : list (nat * list ascii)) (k : Re.state -> option A)
    (Q : A -> Prop) :
  w <> [] ->
  forallb (in_class ic neg p) w = true ->
  stops ic neg p post ->
  gives (k (Re.State (rev w ++ pre) post g)) Q ->
  gives (Re.run ic (Re.plus (Re.Chr neg p)) (Re.State pre (w ++ post) g) k) Q.
Proof.
  intros Hne Hw Hstop Hk. destruct w as [|x w]; [congruence|].
  cbn [forallb] in Hw. apply andb_prop in Hw as [Hx Hw].
  unfold Re.plus. rewrite run_seq. cbn [app]. rewrite run_chr_hit by exact Hx.
  apply gives_star; [exact Hw|exact Hstop|].
  cbn [rev] in Hk. rewrite <- app_assoc in Hk. exact Hk.
Qed.

Lemma consumed_passed (w pre post post' : list ascii) (g g' : list (nat * list ascii)) :
  Re.consumed (Re.State pre post g) (Re.State (rev w ++ pre) post' g') = w.
Proof.
  unfold Re.consumed, Re.pos. cbn [Re.pre]. rewrite length_app, length_rev.
  replace (List.length w + List.length pre - List.length pre)%nat with (List.length w) by lia.
  rewrite <- (length_rev w). rewrite firstn_app, Nat.sub_diag, firstn_all. cbn [firstn].
  rewrite app_nil_r. apply rev_involutive.
Qed.

(** A group around such a repetition holds the characters passed. *)
Lemma gives_group_plus {A : Type} (i : nat) (neg : bool) (p : ascii -> bool) (w : list ascii)
    (pre post : list ascii) (g : list (nat * list ascii)) (k : Re.state -> option A)
    (Q : A -> Prop) :
  w <> [] ->
  forallb (in_class ic neg p) w = true ->
  stops ic neg p post ->
  gives (k (Re.State (rev w ++ pre) post ((i, w) :: g))) Q ->
  gives (Re.run ic (Re.Grp i (Re.plus (Re.Chr neg p))) (Re.State pre (w ++ post) g) k) Q.
Proof.
  intros Hne Hw Hstop Hk.
  change (Re.run ic (Re.Grp i (Re.plus (Re.Chr neg p))) (Re.State pre (w ++ post) g) k)
    with (Re.run ic (Re.plus (Re.Chr neg p)) (Re.State pre (w ++ post) g)
            (fun s' => k (Re.set_group i (Re.consumed (Re.State pre (w ++ post) g) s') s'))).
  apply gives_plus; [exact Hne|exact Hw|exact Hstop|].
  rewrite consumed_passed. exact Hk.
Qed.


(** *** An optional character *)




(** *** Looking behind *)

Lemma rewind_passed (l : list ascii) :
  forall (pre post : list ascii) (g : list (nat * list ascii)),
    Re.rewind (List.length l) (Re.State (l ++ pre) post g)
    = Some (Re.State pre (rev l ++ post) g).
Proof.
  induction l as [|c l IH]; intros pre post g; [reflexivity|].
  cbn [List.length Re.rewind app Re.pre Re.post Re.groups]. rewrite IH.
  cbn [rev]. rewrite <- app_assoc. reflexivity.
Qed.

Lemma rewind_short (n : nat) :
  forall (s : Re.state), (List.length (Re.pre s) < n)%nat -> Re.rewind n s = None.
Proof.
  induction n as [|n IH]; intros [pre post g] H; cbn [Re.pre] in H; [lia|].
  cbn [Re.rewind Re.pre Re.post Re.groups]. destruct pre as [|c pre]; [reflexivity|].
  apply IH. cbn [Re.pre List.length] in *. lia.
Qed.

(** *** Positions of a text *)

Lemma state_at_start (text : string) : Re.start_state text = state_at (Py.chars text) 0.
Proof. reflexivity. Qed.

Lemma state_at_app (a b : list ascii) :
  state_at (a ++ b) (List.length a) = Re.State (rev a) b [].
Proof.
  unfold state_at. rewrite firstn_app, Nat.sub_diag, firstn_all. cbn [firstn].
  rewrite app_nil_r, skipn_app, Nat.sub_diag, skipn_all. reflexivity.
Qed.

Lemma pos_state_at (text : list ascii) (i : nat) :
  (i <= List.length text)%nat -> Re.pos (state_at text i) = i.
Proof.
  intros H. unfold Re.pos, state_at. cbn [Re.pre]. rewrite length_rev, length_firstn. lia.
Qed.

Lemma split_at (text : list ascii) :
  forall i, (i < List.length text)%nat ->
    exists c, skipn i text = c :: skipn (S i) text
              /\ firstn (S i) text = (firstn i text ++ [c])%list.
Proof.
  induction text as [|x text IH]; intros i H; cbn [List.length] in H; [lia|].
  destruct i as [|i].
  - exists x. split; reflexivity.
  - destruct (IH i) as (c & Hs & Hf); [lia|]. exists c. split.
    + exact Hs.
    + change (firstn (S (S i)) (x :: text)) with (x :: firstn (S i) text). rewrite Hf.
      reflexivity.
Qed.

Lemma step_state_at (text : list ascii) (i : nat) :
  (i < List.length text)%nat ->
  exists c, Re.step_char (state_at text i) = Some (c, state_at text (S i)).
Proof.
  intros H. destruct (split_at text i H) as (c & Hs & Hf). exists c.
  unfold Re.step_char, state_at. cbn [Re.post Re.pre Re.groups]. rewrite Hs, Hf.
  rewrite rev_app_distr. reflexivity.
Qed.

Lemma step_state_at_end (text : list ascii) (i : nat) :
  (List.length text <= i)%nat -> Re.step_char (state_at text i) = None.
Proof.
  intros H. unfold Re.step_char, state_at. cbn [Re.post]. rewrite skipn_all2 by exact H.
  reflexivity.
Qed.

Lemma rewind_state_at (text : list ascii) (w : nat) :
  forall i, (w <= i)%nat -> (i <= List.length text)%nat ->
    Re.rewind w (state_at text i) = Some (state_at text (i - w)).
Proof.
  induction w as [|w IH]; intros i Hw Hi.
  - rewrite Nat.sub_0_r. reflexivity.
  - destruct i as [|i]; [lia|].
    destruct (split_at text i) as (c & Hs & Hf); [lia|].
    unfold state_at at 1. rewrite Hf, rev_app_distr.
    cbn [Re.rewind rev app Re.pre Re.post Re.groups]. rewrite <- Hs.
    change (Re.State (rev (firstn i text)) (skipn i text) []) with (state_at text i).
    rewrite IH by lia. reflexivity.
Qed.

Lemma rewind_state_at_short (text : list ascii) (w i : nat) :
  (i < w)%nat -> Re.rewind w (state_at text i) = None.
Proof.
  intros H. apply rewind_short. unfold state_at. cbn [Re.pre].
  rewrite length_rev, length_firstn. lia.
Qed.

(** *** The leftmost match *)

Lemma clear_state_at (text : list ascii) (i : nat) :
  Re.clear_groups (state_at text i) = state_at text i.
Proof. reflexivity. Qed.

(** The search passes the positions where the pattern does not match. *)
Lemma search_from_skip (r : Re.regex) (text : list ascii) (n : nat) :
  forall (d i fuel : nat),
    (i + d = n)%nat -> (n <= List.length text)%nat ->
    (forall j, (i <= j < n)%nat -> Re.attempt ic r false (state_at text j) = None) ->
    Re.search_from ic r (d + fuel) false (state_at text i)
    = Re.search_from ic r fuel false (state_at text n).
Proof.
  induction d as [|d IH]; intros i fuel Hd Hn Hnone.
  - replace i with n by lia. reflexivity.
  - cbn [Nat.add Re.search_from]. rewrite Hnone by lia.
    destruct (step_state_at text i) as (c & ->); [lia|].
    apply IH; [lia|exact Hn|]. intros j Hj. apply Hnone. lia.
Qed.

Lemma search_from_hit (r : Re.regex) (fuel : nat) (ma : bool) (s e : Re.state) :
  Re.attempt ic r ma s = Some e -> Re.search_from ic r fuel ma s = Some (s, e).
Proof. intros H. destruct fuel; cbn [Re.search_from]; rewrite H; reflexivity. Qed.

(** The pattern matches at no position before the one where the search
    stops, and it matches there. *)
Lemma search_from_first (r : Re.regex) (text : list ascii) :
  forall (fuel i : nat) (b e : Re.state),
    (i <= List.length text)%nat ->
    Re.search_from ic r fuel false (state_at text i) = Some (b, e) ->
    exists n, (i <= n <= List.length text)%nat /\ b = state_at text n
              /\ Re.attempt ic r false b = Some e
              /\ forall j, (i <= j < n)%nat ->
                           Re.attempt ic r false (state_at text j) = None.
Proof.
  induction fuel as [|fuel IH]; intros i b e Hi; cbn [Re.search_from].
  - destruct (Re.attempt ic r false (state_at text i)) as [e'|] eqn:E; [|discriminate].
    intros [= <- <-]. exists i. split; [lia|]. split; [reflexivity|]. split; [exact E|].
    intros j Hj. lia.
  - destruct (Re.attempt ic r false (state_at text i)) as [e'|] eqn:E.
    + intros [= <- <-]. exists i. split; [lia|]. split; [reflexivity|]. split; [exact E|].
      intros j Hj. lia.
    + destruct (Nat.lt_ge_cases i (List.length text)) as [Hlt|Hge].
      * destruct (step_state_at text i Hlt) as (c & ->). intros H.
        destruct (IH (S i) b e Hlt H) as (n & Hn & Hb & Ha & Hnone).
        exists n. split; [lia|]. split; [exact Hb|]. split; [exact Ha|].
        intros j Hj. destruct (Nat.eq_dec j i) as [->|Hne]; [exact E|]. apply Hnone. lia.
      * rewrite step_state_at_end by exact Hge. discriminate.
Qed.

End Matching.

Lemma first_at_before (ic : bool) (phrase text : string) (n : nat) :
  Phrase.first_at ic phrase text n ->
  (n <= String.length text)%nat
  /\ forall j, (j < n)%nat ->
       Re.attempt ic (Re.lit phrase) false (state_at (Py.chars text) j) = None.
Proof.
  intros (m & Hm & Hn). unfold Re.search in Hm. rewrite state_at_start in Hm.
  destruct (Re.search_from ic (Re.lit phrase) _ false (state_at (Py.chars text) 0))
    as [[b e]|] eqn:E; [|discriminate].
  injection Hm as <-. cbn [Re.mk_match Re.m_start] in Hn.
  destruct (search_from_first ic _ _ _ _ _ _ (Nat.le_0_l _) E) as (k & Hk & -> & _ & Hnone).
  rewrite pos_state_at in Hn by lia. subst k. rewrite length_chars in Hk. split; [lia|].
  intros j Hj. apply Hnone. lia.
Qed.


(** A pattern that begins with a look behind for the phrase (followed by
    [r1]) does not match where the phrase does not occur [w] characters
    before. *)
Lemma attempt_behind_none (ic : bool) (phrase : string) (r1 r2 : Re.regex) (w : nat)
    (text : list ascii) (i : nat) :
  ((w <= i)%nat ->
   Re.attempt ic (Re.lit phrase) false (state_at text (i - w)) = None) ->
  (i <= List.length text)%nat ->
  Re.attempt ic (Re.Seq (Re.Behind w (Re.Seq (Re.lit phrase) r1)) r2) false (state_at text i)
  = None.
Proof.
  intros H Hi. unfold Re.attempt. rewrite clear_state_at, run_seq. cbn [Re.run].
  destruct (Nat.lt_ge_cases i w) as [Hlt|Hge].
  - rewrite rewind_state_at_short by exact Hlt. reflexivity.
  - rewrite rewind_state_at by assumption.
    specialize (H Hge). unfold Re.attempt in H. cbn [andb] in H. rewrite clear_state_at in H.
    change (Re.lit phrase) with (Re.lit_chars (Py.chars phrase)) in *.
    rewrite (run_lit_chars_none ic _ _ _ H). reflexivity.
Qed.


(** The same for a pattern that begins with a look behind for the phrase:
    [seen] is the text that the look behind passes, [w] characters. *)
Lemma search_at_behind (ic : bool) (phrase : string) (r1 r2 : Re.regex) (w : nat)
    (pre seen rest : string) (e : Re.state) :
  Phrase.first_at ic phrase (pre ++ seen ++ rest) (String.length pre) ->
  String.length seen = w ->
  Re.attempt ic (Re.Seq (Re.Behind w (Re.Seq (Re.lit phrase) r1)) r2) false
             (Re.State (rev (Py.chars (pre ++ seen))) (Py.chars rest) []) = Some e ->
  Re.search ic (Re.Seq (Re.Behind w (Re.Seq (Re.lit phrase) r1)) r2) (pre ++ seen ++ rest)
  = Some (Re.mk_match (Re.State (rev (Py.chars (pre ++ seen))) (Py.chars rest) []) e).
Proof.
  intros Hfirst Hw Hat. destruct (first_at_before _ _ _ _ Hfirst) as [Hle Hnone].
  unfold Re.search. rewrite state_at_start. cbn [Re.post state_at].
  change (skipn 0 (Py.chars (pre ++ seen ++ rest))) with (Py.chars (pre ++ seen ++ rest)).
  change (Re.State (rev (firstn 0 (Py.chars (pre ++ seen ++ rest))))
                   (Py.chars (pre ++ seen ++ rest)) [])
    with (state_at (Py.chars (pre ++ seen ++ rest)) 0).
  assert (Hlen : String.length (pre ++ seen ++ rest)
                 = (String.length pre + w + String.length rest)%nat).
  { rewrite <- !length_chars, !chars_append, !length_app, !length_chars. lia. }
  rewrite length_chars.
  replace (String.length (pre ++ seen ++ rest))
    with (String.length pre + w + String.length rest)%nat by lia.
  rewrite (search_from_skip ic _ (Py.chars (pre ++ seen ++ rest)) (String.length pre + w)).
  - replace (Py.chars (pre ++ seen ++ rest))
      with (Py.chars (pre ++ seen) ++ Py.chars rest)%list
      by (rewrite !chars_append, app_assoc; reflexivity).
    replace (String.length pre + w)%nat with (List.length (Py.chars (pre ++ seen)))
      by (rewrite chars_append, length_app, !length_chars; lia).
    rewrite state_at_app. rewrite (search_from_hit ic _ _ _ _ _ Hat). reflexivity.
  - lia.
  - rewrite length_chars. lia.
  - intros j Hj. apply attempt_behind_none.
    + intros Hge. apply Hnone. lia.
    + rewrite length_chars. lia.
Qed.

(** The text of a group of a match. *)
Lemma group_str_of (i : nat) (b e : Re.state) (t : list ascii) :
  Re.get_group i (Re.groups e) = Some t ->
  Re.group_str i (Re.mk_match b e) = Py.str t.
Proof.
  intros H. unfold Re.group_str, Re.group, Re.mk_match. cbn [Re.m_groups]. rewrite H.
  reflexivity.
Qed.



(** ** Constraint synthesis ([analisisScript01.py]) *)

(** The function for [template.spec.restartPolicy] raises [ValueError] in
    each of the three cases where the text does not have the expected
    form. *)
Lemma template_onlyAllowed_raises (description feature_key : string) :
  (Py.contains "value is" description = true ->
   Re.search true Analisis.template_spec_policy_pattern01 description = None ->
   Analisis.extract_constraints_template_onlyAllowed description feature_key
   = Raise "ValueError")
  /\ (Py.contains "value is" description = false ->
      Py.contains "values are" description = true ->
      (List.length (Re.findall1 false Analisis.quoted_word_pattern description) < 2)%nat ->
      Analisis.extract_constraints_template_onlyAllowed description feature_key
      = Raise "ValueError")
  /\ (Py.contains "value is" description = false ->
      Py.contains "values are" description = false ->
      Analisis.extract_constraints_template_onlyAllowed description feature_key
      = Raise "ValueError").
Proof.
  unfold Analisis.extract_constraints_template_onlyAllowed.
  repeat split.
  - intros -> ->. reflexivity.
  - intros -> -> Hlen. apply Nat.ltb_lt in Hlen. rewrite Hlen. reflexivity.
  - intros -> ->. reflexivity.
Qed.

Lemma extract_minimum_value_total (description feature_key : string) :
  exists rule, Analisis.extract_minimum_value description feature_key = Ok rule.
Proof. unfold Analisis.extract_minimum_value. eexists. reflexivity. Qed.

(** C3, on the code: [extract_minimum_value] never raises.  When its
    trigger phrase is in the text and none of its patterns matches, it
    returns the empty string; the caller then takes the empty string for a
    rule.  ([extract_constraints_template_onlyAllowed] does raise, see
    [template_onlyAllowed_raises].) *)
Theorem extract_minimum_value_returns_empty_rule :
  (forall description feature_key,
      exists rule, Analisis.extract_minimum_value description feature_key = Ok rule)
  /\ Py.contains "Minimum value is" "Minimum value is unknown" = true
  /\ Re.search false Analisis.value_minimum_pattern "Minimum value is unknown" = None
  /\ Analisis.extract_minimum_value "Minimum value is unknown" "f" = Ok ""
  /\ Analisis.convert_to_uvl_constraints 0 "f" "Minimum value is unknown" "Integer"
     = Ok (Some "", 0).
Proof.
  split; [exact extract_minimum_value_total|].
  repeat split; vm_compute; reflexivity.
Qed.

(** C9, on the code: a record whose helper returns the empty string gives
    no constraint and does not move the counter.  Here one record is
    processed, no constraint is emitted, and the reported count is 0. *)
Theorem empty_rule_neither_emitted_nor_counted :
  Analisis.generar_constraintsDef 0
    [Analisis.Restriction "f" "Minimum value is unknown" "Integer"] = Ok ([], 0)
  /\ Analisis.generar_constraintsDef 0
       [Analisis.Restriction "a_b" "Required when" "Boolean"] = Ok ([], 0).
Proof. split; vm_compute; reflexivity. Qed.

(** *** The bounds *)

Lemma in_class_plain (ic : bool) (p : ascii -> bool) (x : ascii) :
  in_class ic false p x = Re.class_match ic p x.
Proof. reflexivity. Qed.

Lemma forallb_same {A : Type} (f g : A -> bool) (l : list A) :
  (forall x, f x = g x) -> forallb f l = forallb g l.
Proof. intros H. induction l as [|x l IH]; cbn [forallb]; [reflexivity|]. rewrite H, IH. reflexivity. Qed.

Lemma digits_in_class (ic : bool) (w : list ascii) :
  forallb (in_class ic false Py.is_digit) w = forallb Py.is_digit w.
Proof. apply forallb_same. intros x. apply class_digit. Qed.




Lemma isdigit_chars (s : string) :
  Py.isdigit s = true -> Py.chars s <> [] /\ forallb Py.is_digit (Py.chars s) = true.
Proof.
  unfold Py.isdigit. intros H. apply andb_prop in H as [Hne Hd]. split; [|exact Hd].
  destruct s; [discriminate|]. discriminate.
Qed.





(** *** Required when *)






(** *** Numeric bounds *)


(** A look behind for a text that has just been passed. *)
Lemma run_behind {A : Type} (ic : bool) (r0 : Re.regex) (seen pre post : list ascii)
    (g : list (nat * list ascii)) (k : Re.state -> option A) :
  Re.run ic r0 (Re.State pre (seen ++ post) g)
         (fun s' => if Nat.eqb (Re.pos s') (List.length (rev seen ++ pre))
                    then Some tt else None) = Some tt ->
  Re.run ic (Re.Behind (List.length seen) r0) (Re.State (rev seen ++ pre) post g) k
  = k (Re.State (rev seen ++ pre) post g).
Proof.
  intros H. cbn [Re.run]. rewrite <- (length_rev seen), rewind_passed, rev_involutive.
  unfold Re.pos at 2. cbn [Re.pre]. rewrite H. reflexivity.
Qed.

(** [(?<=Minimum value is\s)(\d+)] just after the phrase: group 1 is the
    number that follows. *)
Lemma minimum_attempt (pre N post : list ascii) :
  N <> [] -> forallb Py.is_digit N = true ->
  match post with [] => True | c :: _ => negb (Py.is_digit c) = true end ->
  gives (Re.attempt false Analisis.value_minimum_pattern false
           (Re.State (rev (Py.chars "Minimum value is ") ++ pre) (N ++ post) []))
        (fun e => Re.groups e = [(1, N)]%nat).
Proof.
  intros HN Hdigits Hpost.
  unfold Re.attempt, Re.clear_groups. cbn [andb Re.pre Re.post].
  change Analisis.value_minimum_pattern
    with (Re.Seq (Re.Behind (List.length (Py.chars "Minimum value is "))
                            (Re.Seq (Re.lit "Minimum value is") Re.space))
                 (Re.Grp 1 (Re.plus (Re.Chr false Py.is_digit)))).
  rewrite run_seq, run_behind.
  - apply gives_group_plus; [exact HN|rewrite digits_in_class; exact Hdigits| |].
    + unfold stops, in_class. destruct post as [|c r]; [exact I|].
      cbn [xorb]. rewrite class_digit. destruct (Py.is_digit c); [discriminate|reflexivity].
    + eexists. split; reflexivity.
  - change (Py.chars "Minimum value is " ++ N ++ post)%list
      with (Py.chars "Minimum value is" ++ " "%char :: N ++ post)%list.
    rewrite run_seq, run_lit. unfold Re.space. rewrite run_chr_hit by reflexivity.
    replace (Nat.eqb _ _) with true; [reflexivity|].
    symmetry. apply Nat.eqb_eq. unfold Re.pos. cbn [Re.pre].
    rewrite !length_app. reflexivity.
Qed.





(** ** The description classifier and the value extractor *)

(** What the validity test of [categorize_description] looks at: the
    length of the feature name. *)
Lemma categorize_description_short_name (p : proc) (description feature_name type_data : string) :
  (Py.len feature_name < 10)%nat ->
  categorize_description p description feature_name type_data = (false, p).
Proof.
  intros Hlen. unfold categorize_description, is_valid_description.
  apply Nat.ltb_lt in Hlen. rewrite Hlen. reflexivity.
Qed.

(** C4, on the code: the description "Minimum value is 1024" has 21
    characters, is seen for the first time and contains a trigger phrase,
    and yet the classifier rejects it on the feature [spec_port]: the
    length that is compared with 10 is the length of the feature name (9),
    the two arguments of [is_valid_description] being exchanged at the
    call.  With a longer feature name the same description is recorded. *)
Theorem classifier_rejects_long_description_on_short_name :
  Py.len "Minimum value is 1024" = 21%nat
  /\ categorize_description init_proc "Minimum value is 1024" "spec_port" "Integer"
     = (false, init_proc)
  /\ d_restrictions
       (snd (categorize_description init_proc "Minimum value is 1024" "spec_port_x" "Integer"))
     = [Entry "spec_port_x" "Minimum value is 1024" "Integer"].
Proof. repeat split; vm_compute; reflexivity. Qed.

(** C7, counterexample: a description whose extracted set is exactly
    [{NodePort, ClusterIP, None, LoadBalancer, ExternalName}] keeps
    [None]. *)
Lemma plain_five_values_keep_None :
  extracted_set five_values_description
  = Some (list_to_set ["NodePort"; "ClusterIP"; "None"; "LoadBalancer"; "ExternalName"])
  /\ extract_values five_values_description
     = Some (list_to_set ["NodePort"; "ClusterIP"; "None"; "LoadBalancer"; "ExternalName"])
  /\ mem "None" (get_or (extract_values five_values_description) ∅) = true.
Proof. repeat split; vm_compute; reflexivity. Qed.

(** C7, amended: [extract_values] gives no value set when the extracted
    set has 0 or 1 element; and when the extracted set is
    [{NodePort, ClusterIP {default}, None, LoadBalancer, ExternalName}],
    where [ClusterIP] carries the default marker, it gives that set
    without [None]. *)
Theorem extract_values_degenerate_and_none_case :
  forall (description : string) (values : gset string),
    extracted_set description = Some values ->
    ((size values <= 1)%nat -> extract_values description = None)
    /\ (values = case_not_none ->
        extract_values description = Some (case_not_none ∖ {["None"]})).
Proof.
  intros description values Hset. unfold extract_values. rewrite Hset.
  unfold select_values. split.
  - intros Hsize. destruct (size values) as [|[|n]] eqn:E; [| |lia].
    + apply size_empty_inv in E. apply leibniz_equiv in E. subst values.
      rewrite bool_decide_eq_true_2 by reflexivity. reflexivity.
    + rewrite orb_true_r. reflexivity.
  - intros ->.
    replace (bool_decide (case_not_none = ∅)) with false by (vm_compute; reflexivity).
    replace (Nat.eqb (size case_not_none) 1) with false by (vm_compute; reflexivity).
    rewrite bool_decide_eq_true_2 by reflexivity. reflexivity.
Qed.

Lemma extract_values_degenerate_and_none_case_witness :
  extract_values ("values are " ++ q ++ "Always" ++ q) = None
  /\ extract_values service_type_description = Some (case_not_none ∖ {["None"]}).
Proof.
  split.
  - apply (extract_values_degenerate_and_none_case
             ("values are " ++ q ++ "Always" ++ q) {["Always"]}).
    + vm_compute; reflexivity.
    + vm_compute; lia.
  - apply (extract_values_degenerate_and_none_case service_type_description case_not_none).
    + vm_compute; reflexivity.
    + reflexivity.
Defined.

(** ** The tree builder *)

(** C1, on the code: the two properties [a-b] and [a.b] of one definition
    have the same qualified path [D_a_b].  The first is an array: the name
    that is added to [processed_features] is the name with its
    cardinality, [D_a_b cardinality [1..*]], and the path itself is not in
    the set afterwards.  The second property is therefore not skipped, and
    the tree has two nodes with the same path. *)
Theorem array_path_not_marked_and_duplicated :
  forall (set_order : gset string -> list string) (key_order : schema -> list string),
    match parse_properties set_order key_order [("D", object twin_arrays)] 1
                           (NProperties twin_arrays) (NNames []) "D" 0 [] init_proc with
    | Some (Ok (m, o, _, p)) =>
        all_names (m ++ o) = ["D_a_b cardinality [1..*]"; "D_a_b cardinality [1..*]"]
        /\ mem "D_a_b" (processed_features p) = false
        /\ mem "D_a_b cardinality [1..*]" (processed_features p) = true
    | _ => False
    end.
Proof. intros set_order key_order. vm_compute. repeat split; reflexivity. Qed.


(** ** Termination and the stack of references *)

Section Termination.
Import Measure.

Variable set_order : gset string -> list string.
Variable key_order : schema -> list string.
Variable definitions : properties.

Lemma keeps_ret {A : Type} (get : A -> list string) (stack : list string) (a : A) :
  get a = stack -> keeps get stack (ret a).
Proof. intros H. exists (Ok a). split; [reflexivity|]. intros a' [= <-]. exact H. Qed.

Lemma keeps_raise {A : Type} (get : A -> list string) (stack : list string) (e : string) :
  keeps get stack (raise e).
Proof. exists (Raise e). split; [reflexivity|]. intros a [=]. Qed.

Lemma keeps_bind {A B : Type} (ga : A -> list string) (gb : B -> list string)
    (sa sb : list string) (m : M A) (k : A -> M B) :
  keeps ga sa m ->
  (forall a, ga a = sa -> keeps gb sb (k a)) ->
  keeps gb sb (mbind m k).
Proof.
  intros (r & -> & Hr) Hk. destruct r as [a|e]; cbn.
  - apply Hk. apply Hr. reflexivity.
  - apply keeps_raise.
Qed.

Lemma keeps_tryM {A B : Type} (gb : B -> list string) (sb : list string)
    (r : result A) (k : A -> M B) :
  (forall a, r = Ok a -> keeps gb sb (k a)) -> keeps gb sb (tryM r k).
Proof.
  intros Hk. destruct r as [a|e]; cbn [tryM].
  - apply Hk. reflexivity.
  - apply keeps_raise.
Qed.

(** *** Depth and references of the parts of a schema *)

Lemma depth_properties (s : schema) (ps : properties) :
  s_properties s = Some ps -> (pdepth ps < depth s)%nat.
Proof.
  destruct s as [d t r i a p rq e o]; cbn [s_properties]. intros ->.
  cbn [depth omax]. fold pdepth.
  change ((fix go (l : list (string * schema)) : nat :=
             match l with
             | [] => 0%nat
             | x :: r0 => Nat.max (depth (snd x)) (go r0)
             end) ps) with (pdepth ps).
  lia.
Qed.

Lemma depth_items (s i : schema) : s_items s = Some i -> (depth i < depth s)%nat.
Proof.
  destruct s as [d t r i' a p rq e o]; cbn [s_items]. intros ->. cbn [depth omax]. lia.
Qed.

Lemma depth_additional (s a : schema) :
  s_additionalProperties s = Some a -> (depth a < depth s)%nat.
Proof.
  destruct s as [d t r i a' p rq e o]; cbn [s_additionalProperties]. intros ->.
  cbn [depth omax]. lia.
Qed.

Lemma depth_member (ps : properties) (name : string) (s : schema) :
  In (name, s) ps -> (depth s <= pdepth ps)%nat.
Proof.
  induction ps as [|x r IH]; cbn [In pdepth]; [tauto|].
  intros [-> | H]; cbn [snd]; [lia|]. specialize (IH H). lia.
Qed.

Lemma refs_ref (s : schema) (r : string) : s_ref s = Some r -> In r (refs s).
Proof.
  destruct s as [d t r' i a p rq e o]; cbn [s_ref]. intros ->.
  cbn [refs olist]. left. reflexivity.
Qed.

Lemma refs_items (s i : schema) : s_items s = Some i -> incl (refs i) (refs s).
Proof.
  destruct s as [d t r i' a p rq e o]; cbn [s_items]. intros ->.
  cbn [refs olist]. intros x Hx. rewrite !in_app_iff. tauto.
Qed.

Lemma refs_additional (s a : schema) :
  s_additionalProperties s = Some a -> incl (refs a) (refs s).
Proof.
  destruct s as [d t r i a' p rq e o]; cbn [s_additionalProperties]. intros ->.
  cbn [refs olist]. intros x Hx. rewrite !in_app_iff. tauto.
Qed.

Lemma refs_properties (s : schema) (ps : properties) :
  s_properties s = Some ps -> incl (prefs ps) (refs s).
Proof.
  destruct s as [d t r i a p rq e o]; cbn [s_properties]. intros ->.
  cbn [refs olist].
  change ((fix go (l : list (string * schema)) : list string :=
             match l with
             | [] => []
             | x :: r0 => (refs (snd x) ++ go r0)%list
             end) ps) with (prefs ps).
  intros x Hx. rewrite !in_app_iff. tauto.
Qed.

Lemma refs_member (ps : properties) (name : string) (s : schema) :
  In (name, s) ps -> incl (refs s) (prefs ps).
Proof.
  induction ps as [|x r IH]; cbn [In prefs]; [tauto|].
  intros [-> | H] y Hy; rewrite in_app_iff; cbn [snd]; [tauto|].
  right. exact (IH H y Hy).
Qed.

Lemma dict_get_member {V : Type} (d : list (string * V)) (key : string) (v : V) :
  Analisis.dict_get d key = Some v -> exists k, In (k, v) d.
Proof.
  induction d as [|[k0 v0] r IH]; cbn [Analisis.dict_get]; [discriminate|].
  destruct (String.eqb k0 key).
  - intros [= ->]. exists k0. left. reflexivity.
  - intros H. destruct (IH H) as [k Hk]. exists k. right. exact Hk.
Qed.

Lemma depth_positive (s : schema) : (1 <= depth s)%nat.
Proof. destruct s. cbn [depth]. lia. Qed.

(** A value found in a schema object weighs less than the object, and its
    references are references of the object. *)
Lemma schema_field_inner (s : schema) (part : string) (n : jnode) :
  schema_field s part = Some n ->
  (weight n <= 2 * depth s - 1)%nat /\ incl (nrefs definitions n) (refs s).
Proof.
  pose proof (depth_positive s) as Hpos.
  unfold schema_field.
  repeat match goal with
         | |- context [if ?b then _ else _] => destruct b
         end;
    try discriminate;
    try (destruct (s_description s); cbn [option_map]; intros [= <-]; cbn [weight Measure.nrefs];
         split; [lia|intros x []]);
    try (destruct (s_type s); cbn [option_map]; intros [= <-]; cbn [weight Measure.nrefs];
         split; [lia|intros x []]);
    try (destruct (s_ref s); cbn [option_map]; intros [= <-]; cbn [weight Measure.nrefs];
         split; [lia|intros x []]);
    try (destruct (s_required s); cbn [option_map]; intros [= <-]; cbn [weight Measure.nrefs];
         split; [lia|intros x []]);
    try (destruct (s_enum s); cbn [option_map]; intros [= <-]; cbn [weight Measure.nrefs];
         split; [lia|intros x []]);
    try (destruct (s_oneOf s); cbn [option_map]; intros [= <-]; cbn [weight Measure.nrefs];
         split; [lia|intros x []]).
  - destruct (s_items s) as [i|] eqn:E; cbn [option_map]; intros [= <-]. split.
    + pose proof (depth_items _ _ E). cbn [weight]. lia.
    + exact (refs_items _ _ E).
  - destruct (s_additionalProperties s) as [a|] eqn:E; cbn [option_map]; intros [= <-]. split.
    + pose proof (depth_additional _ _ E). cbn [weight]. lia.
    + exact (refs_additional _ _ E).
  - destruct (s_properties s) as [ps|] eqn:E; cbn [option_map]; intros [= <-]. split.
    + pose proof (depth_properties _ _ E). cbn [weight]. lia.
    + exact (refs_properties _ _ E).
Qed.

(** The items of a value that is enumerated weigh at most its span, and
    their references are references of the value. *)
Lemma items_of_inner (props : jnode) (items : list (string * jnode)) :
  items_of key_order definitions props = Ok items ->
  Forall (fun kv => (weight (snd kv) <= span definitions props)%nat
                    /\ incl (nrefs definitions (snd kv)) (nrefs definitions props)) items.
Proof.
  destruct props as [|x|ps|t|l|l|l]; cbn [items_of]; try discriminate; intros [= <-].
  - constructor; [|constructor]. cbn. split; [lia|apply incl_refl].
  - unfold schema_items. apply List.Forall_forall. intros [k v] Hin.
    apply in_flat_map in Hin. destruct Hin as (key & _ & Hin).
    destruct (schema_field x key) as [n|] eqn:E; [|destruct Hin].
    destruct Hin as [[= <- <-]|[]]. cbn [snd span nrefs].
    exact (schema_field_inner _ _ _ E).
  - apply List.Forall_forall. intros [k v] Hin. apply in_map_iff in Hin.
    destruct Hin as ([k' s] & [= <- <-] & Hin). cbn [snd fst span nrefs weight]. split.
    + pose proof (depth_member _ _ _ Hin). lia.
    + exact (refs_member _ _ _ Hin).
Qed.

(** *** What a resolved reference can be *)

Local Abbreviation node_bounded := (Measure.node_bounded definitions).

Lemma schema_field_bounded (s : schema) (part : string) (n : jnode) :
  node_bounded (NSchema s) -> schema_field s part = Some n -> node_bounded n.
Proof.
  intros [Hd Hr]. unfold schema_field.
  repeat match goal with
         | |- context [if ?b then _ else _] => destruct b
         end;
    try discriminate;
    try (destruct (s_description s); cbn; intros [= <-]; exact I);
    try (destruct (s_type s); cbn; intros [= <-]; exact I);
    try (destruct (s_ref s); cbn; intros [= <-]; exact I);
    try (destruct (s_required s); cbn; intros [= <-]; exact I);
    try (destruct (s_enum s); cbn; intros [= <-]; exact I);
    try (destruct (s_oneOf s); cbn; intros [= <-]; exact I).
  - destruct (s_items s) as [i|] eqn:E; cbn; intros [= <-]. split.
    + pose proof (depth_items _ _ E). lia.
    + intros x Hx. apply Hr. exact (refs_items _ _ E x Hx).
  - destruct (s_additionalProperties s) as [a|] eqn:E; cbn; intros [= <-]. split.
    + pose proof (depth_additional _ _ E). lia.
    + intros x Hx. apply Hr. exact (refs_additional _ _ E x Hx).
  - destruct (s_properties s) as [ps|] eqn:E; cbn; intros [= <-]. split.
    + pose proof (depth_properties _ _ E). lia.
    + intros x Hx. apply Hr. exact (refs_properties _ _ E x Hx).
Qed.

Lemma dict_get_bounded (ps : properties) (part : string) (s : schema) :
  node_bounded (NProperties ps) -> Analisis.dict_get ps part = Some s ->
  node_bounded (NSchema s).
Proof.
  intros [Hd Hr] E. destruct (dict_get_member _ _ _ E) as [k Hk]. split.
  - pose proof (depth_member _ _ _ Hk). lia.
  - intros x Hx. apply Hr. exact (refs_member _ _ _ Hk x Hx).
Qed.

Lemma node_get_bounded (n n' : jnode) (part : string) :
  node_bounded n -> node_get definitions n part = Ok (Some n') -> node_bounded n'.
Proof.
  destruct n as [|s|ps|t|l|l|l]; cbn [node_get]; try discriminate.
  - intros _. destruct (String.eqb part "definitions"); intros [= <-].
    split; [apply Nat.le_refl|apply incl_refl].
  - intros Hb [= H]. exact (schema_field_bounded _ _ _ Hb H).
  - intros Hb. destruct (Analisis.dict_get ps part) as [s|] eqn:E; cbn; intros [= <-].
    exact (dict_get_bounded _ _ _ Hb E).
Qed.

Lemma walk_bounded (parts : list string) :
  forall n n', node_bounded n -> walk definitions n parts = Some n' -> node_bounded n'.
Proof.
  induction parts as [|part rest IH]; intros n n' Hn; cbn [walk].
  - intros [= <-]. exact Hn.
  - destruct (node_get definitions n part) as [[m|]|e] eqn:E; try discriminate.
    destruct (node_truthy m); [|discriminate].
    apply IH. exact (node_get_bounded _ _ _ Hn E).
Qed.

Lemma resolve_bounded (ref : string) (n : jnode) :
  resolve_reference definitions ref = Some n -> node_bounded n.
Proof. unfold resolve_reference. apply walk_bounded. exact I. Qed.

(** The value under [properties] of a value of the document: its span
    and its references are within those of the document. *)
Lemma node_item_properties (n sub : jnode) :
  node_bounded n -> node_item definitions n "properties" = Ok sub ->
  (span definitions sub <= 2 * pdepth definitions)%nat
  /\ incl (nrefs definitions sub) (prefs definitions).
Proof.
  destruct n as [|s|ps|t|l|l|l]; cbn [node_item node_get]; try discriminate.
  - intros [Hd Hr]. change (schema_field s "properties") with (option_map NProperties (s_properties s)).
    destruct (s_properties s) as [sub'|] eqn:E; cbn [option_map]; [|discriminate].
    intros [= <-]. cbn [span nrefs]. split.
    + pose proof (depth_properties _ _ E). lia.
    + intros x Hx. apply Hr. exact (refs_properties _ _ E x Hx).
  - intros Hb. destruct (Analisis.dict_get ps "properties") as [x|] eqn:E; cbn [option_map];
      [|discriminate].
    intros [= <-]. destruct (dict_get_bounded _ _ _ Hb E) as [Hd Hr].
    cbn [span nrefs]. split; [lia|exact Hr].
Qed.

(** *** The stack and the fuel *)


Lemma in_list_app (x : string) (a b : list string) :
  in_list x (a ++ b)%list = in_list x a || in_list x b.
Proof. unfold in_list. apply existsb_app. Qed.

Lemma fresh_le_push (u stack : list string) (r : string) :
  (fresh u (stack ++ [r]) <= fresh u stack)%nat.
Proof.
  unfold fresh. induction u as [|x u IH]; cbn [List.filter]; [cbn; lia|].
  rewrite in_list_app. destruct (in_list x stack); cbn [orb negb]; [exact IH|].
  destruct (in_list x [r]); cbn [negb List.length]; lia.
Qed.

Lemma fresh_push (u stack : list string) (r : string) :
  In r u -> in_list r stack = false ->
  (S (fresh u (stack ++ [r])) <= fresh u stack)%nat.
Proof.
  intros Hin Hnot. unfold fresh. induction u as [|x u IH]; [destruct Hin|].
  cbn [List.filter]. rewrite in_list_app.
  destruct (string_dec x r) as [->|Hne].
  - rewrite Hnot. cbn [orb negb in_list existsb]. rewrite String.eqb_refl.
    cbn [orb negb List.length]. pose proof (fresh_le_push u stack r) as H.
    unfold fresh in H. lia.
  - destruct Hin as [E|Hin]; [congruence|]. specialize (IH Hin).
    destruct (in_list x stack); cbn [orb negb]; [exact IH|].
    assert (in_list x [r] = false) as ->.
    { cbn. rewrite orb_false_r. apply String.eqb_neq. exact Hne. }
    cbn [negb List.length]. lia.
Qed.

Lemma fresh_le_length (u stack : list string) : (fresh u stack <= List.length u)%nat.
Proof. unfold fresh. apply filter_length_le. Qed.

Lemma removelast_push (stack : list string) (r : string) :
  removelast (stack ++ [r])%list = stack.
Proof. apply removelast_last. Qed.

(** *** The phases of an iteration keep the stack *)

Variable u : list string.
Variable h : nat.
Hypothesis Hu : incl (prefs definitions) u.
Hypothesis Hh : (2 * pdepth definitions <= h)%nat.

Local Abbreviation good := (Measure.good definitions u h).
Local Abbreviation need := (Measure.need definitions u h).
Local Abbreviation nrefs := (Measure.nrefs definitions).

Section Phases.

Variable rec : parser.
Variable budget : nat.
Hypothesis Hrec : good rec budget.

Lemma recurse_keeps (sub req : jnode) (parent : string) (d : nat)
    (l : locals) (fr : frame) :
  incl (nrefs sub) u -> (need (fr_stack fr) sub < budget)%nat ->
  keeps pair_stack (fr_stack fr) (recurse rec sub req parent d l fr).
Proof.
  intros Hsub Hneed. unfold recurse.
  eapply keeps_bind; [exact (Hrec _ _ _ _ _ _ Hsub Hneed)|].
  intros [[[m o] stack] p] Hst. cbn in Hst. apply keeps_ret. exact Hst.
Qed.

Lemma follow_keeps (ref : string) (l : locals) (fr : frame)
    (on_value : jnode -> string -> frame -> M (locals * frame)) :
  (forall n name fr0,
      resolve_reference definitions ref = Some n ->
      in_list ref (fr_stack fr) = false ->
      fr_stack fr0 = (fr_stack fr ++ [ref])%list ->
      keeps pair_stack (fr_stack fr0) (on_value n name fr0)) ->
  keeps expansion_stack (fr_stack fr) (follow definitions ref l fr on_value).
Proof.
  intros Hon. unfold follow.
  destruct (in_list ref (fr_stack fr)) eqn:Hin.
  - apply keeps_ret. reflexivity.
  - destruct (resolve_reference definitions ref) as [n|] eqn:Hres.
    + destruct (node_truthy n).
      * eapply keeps_bind.
        -- apply (Hon n _ (push fr ref) eq_refl eq_refl). reflexivity.
        -- intros [l' fr'] Hst. unfold pair_stack in Hst. cbn in Hst.
           apply keeps_ret. cbn. rewrite Hst. apply removelast_push.
      * apply keeps_ret. cbn. apply removelast_push.
    + apply keeps_ret. cbn. apply removelast_push.
Qed.

(** The recursive call on the value under [properties] of a resolved
    value, once the reference is on the stack. *)
Lemma recurse_resolved_keeps (ref : string) (stack : list string) (n sub req : jnode)
    (parent : string) (d : nat) (l : locals) (fr0 : frame) :
  In ref u -> in_list ref stack = false ->
  resolve_reference definitions ref = Some n ->
  node_item definitions n "properties" = Ok sub ->
  fr_stack fr0 = (stack ++ [ref])%list ->
  (fresh u stack * S h <= budget)%nat ->
  keeps pair_stack (fr_stack fr0) (recurse rec sub req parent d l fr0).
Proof.
  intros Hin Hnot Hres Hsub Hst Hbudget.
  destruct (node_item_properties _ _ (resolve_bounded _ _ Hres) Hsub) as [Hs Hr].
  apply recurse_keeps.
  - intros x Hx. apply Hu, Hr, Hx.
  - unfold Measure.need. rewrite Hst.
    pose proof (fresh_push u stack ref Hin Hnot) as Hf. nia.
Qed.

Lemma process_oneOf_value_keeps (p : proc) (oneOf : jnode) (name : string) (k : kind)
    (stack : list string) (cont : feature * proc -> M (locals * frame)) :
  (forall f p', keeps pair_stack stack (cont (f, p'))) ->
  keeps pair_stack stack (tryM (process_oneOf_value key_order p oneOf name k) cont).
Proof.
  intros Hcont. apply keeps_tryM. intros [f p'] _. apply Hcont.
Qed.

Lemma expand_ref_keeps (d : nat) (ref : string) (l : locals) (fr : frame) :
  In ref u -> (fresh u (fr_stack fr) * S h <= budget)%nat ->
  keeps expansion_stack (fr_stack fr) (expand_ref key_order definitions rec d ref l fr).
Proof.
  intros Hin Hbudget. unfold expand_ref. apply follow_keeps.
  intros n name fr0 Hres Hnot Hst.
  destruct (node_in "properties" n).
  - apply keeps_tryM. intros sub Hsub. apply keeps_tryM. intros req _.
    eapply keeps_bind.
    + exact (recurse_resolved_keeps _ _ _ _ _ _ _ _ _ Hin Hnot Hres Hsub Hst Hbudget).
    + intros [l' fr'] Hst'. unfold pair_stack in Hst'. cbn in Hst'.
      destruct (Py.endswith "emptyDir" (l_full_name l)
                || Py.endswith "EmptyDirVolumeSource" (l_full_name l));
        apply keeps_ret; exact Hst'.
  - destruct (node_in "oneOf" n).
    + apply keeps_tryM. intros oneOf _. apply process_oneOf_value_keeps.
      intros f p'. apply keeps_ret. reflexivity.
    + apply keeps_tryM. intros text _. apply keeps_tryM. intros t _.
      destruct (sanitize_type_value (fr_proc fr0) (get_or t (NText ""))) as [td p'].
      apply keeps_ret. reflexivity.
Qed.

Lemma expand_items_keeps (d : nat) (items : schema) (l : locals) (fr : frame) :
  incl (refs items) u -> (fresh u (fr_stack fr) * S h <= budget)%nat ->
  keeps expansion_stack (fr_stack fr) (expand_items definitions rec d items l fr).
Proof.
  intros Hitems Hbudget. unfold expand_items.
  destruct (s_ref items) as [ref|] eqn:Href.
  - apply follow_keeps. intros n name fr0 Hres Hnot Hst.
    destruct (node_in "properties" n).
    + apply keeps_tryM. intros sub Hsub. apply keeps_tryM. intros req _.
      exact (recurse_resolved_keeps _ _ _ _ _ _ _ _ _ (Hitems _ (refs_ref _ _ Href))
               Hnot Hres Hsub Hst Hbudget).
    + apply keeps_tryM. intros text _. apply keeps_ret. reflexivity.
  - destruct (s_type items) as [t|]; [|apply keeps_ret; reflexivity].
    destruct (is_cardinality (fr_proc fr)); [|apply keeps_ret; reflexivity].
    destruct (String.eqb t "string" && negb (l_bool_added_value _));
      [apply keeps_ret; reflexivity|].
    destruct (String.eqb t "integer"); apply keeps_ret; reflexivity.
Qed.

Lemma expand_additional_keeps (d : nat) (additional : schema) (l : locals) (fr : frame) :
  incl (refs additional) u -> (fresh u (fr_stack fr) * S h <= budget)%nat ->
  keeps expansion_stack (fr_stack fr)
        (expand_additional key_order definitions rec d additional l fr).
Proof.
  intros Hadd Hbudget. unfold expand_additional.
  destruct (s_ref additional) as [ref|] eqn:Href.
  - apply follow_keeps. intros n name fr0 Hres Hnot Hst.
    destruct (node_in "properties" n).
    + apply keeps_tryM. intros sub Hsub.
      exact (recurse_resolved_keeps _ _ _ _ _ _ _ _ _ (Hadd _ (refs_ref _ _ Href))
               Hnot Hres Hsub Hst Hbudget).
    + destruct (node_in "oneOf" n).
      * apply keeps_tryM. intros oneOf _. apply process_oneOf_value_keeps.
        intros f p'. apply keeps_ret. reflexivity.
      * apply keeps_tryM. intros text _. apply keeps_ret. reflexivity.
  - destruct (s_items additional) as [items|].
    + destruct (is_cardinality (fr_proc fr)); [|apply keeps_ret; reflexivity].
      destruct (s_type items) as [t|]; [|apply keeps_raise].
      destruct (String.eqb t "string" && negb (l_bool_added_value l));
        apply keeps_ret; reflexivity.
    + destruct (s_type additional) as [t|]; [|apply keeps_ret; reflexivity].
      destruct (is_cardinality (fr_proc fr) && String.eqb t "string"
                && negb (l_bool_added_value l)); [|apply keeps_ret; reflexivity].
      destruct (any_in list_local_features_maps (l_description _));
        [apply keeps_ret; reflexivity|].
      destruct (Py.contains unstructured (l_description _)); apply keeps_ret; reflexivity.
Qed.

Lemma expand_keeps (d : nat) (details : schema) (l : locals) (fr : frame) :
  incl (refs details) u -> (fresh u (fr_stack fr) * S h <= budget)%nat ->
  keeps expansion_stack (fr_stack fr) (expand key_order definitions rec d details l fr).
Proof.
  intros Hdet Hbudget. unfold expand.
  destruct (s_ref details) as [ref|] eqn:Href.
  - apply expand_ref_keeps; [|exact Hbudget]. apply Hdet. exact (refs_ref _ _ Href).
  - destruct (s_items details) as [items|] eqn:Hitems.
    + apply expand_items_keeps; [|exact Hbudget].
      intros x Hx. apply Hdet. exact (refs_items _ _ Hitems x Hx).
    + destruct (s_additionalProperties details) as [additional|] eqn:Hadd.
      * apply expand_additional_keeps; [|exact Hbudget].
        intros x Hx. apply Hdet. exact (refs_additional _ _ Hadd x Hx).
      * apply keeps_ret. reflexivity.
Qed.

Lemma expand_map_keeps (d : nat) (details : properties) (l : locals) (fr : frame) :
  incl (prefs details) u -> (fresh u (fr_stack fr) * S h <= budget)%nat ->
  keeps expansion_stack (fr_stack fr) (expand_map key_order definitions rec d details l fr).
Proof.
  intros Hdet Hbudget. unfold expand_map.
  destruct (Analisis.dict_get details "$ref"); [apply keeps_raise|].
  destruct (Analisis.dict_get details "items") as [items|] eqn:Hitems.
  - destruct (dict_get_member _ _ _ Hitems) as [k Hk].
    apply expand_items_keeps; [|exact Hbudget].
    intros x Hx. apply Hdet. exact (refs_member _ _ _ Hk x Hx).
  - destruct (Analisis.dict_get details "additionalProperties") as [additional|] eqn:Hadd.
    + destruct (dict_get_member _ _ _ Hadd) as [k Hk].
      apply expand_additional_keeps; [|exact Hbudget].
      intros x Hx. apply Hdet. exact (refs_member _ _ _ Hk x Hx).
    + apply keeps_ret. reflexivity.
Qed.

Lemma nested_properties_keeps (d : nat) (details : schema) (l : locals) (fr : frame) :
  incl (refs details) u ->
  (fresh u (fr_stack fr) * S h + 2 * depth details <= budget)%nat ->
  keeps pair_stack (fr_stack fr) (nested_properties rec d details l fr).
Proof.
  intros Hdet Hbudget. unfold nested_properties.
  destruct (s_properties details) as [sub|] eqn:Hsub; [|apply keeps_ret; reflexivity].
  apply recurse_keeps.
  - intros x Hx. apply Hdet. exact (refs_properties _ _ Hsub x Hx).
  - unfold Measure.need. cbn [span]. pose proof (depth_properties _ _ Hsub). lia.
Qed.

Lemma nested_map_properties_keeps (d : nat) (details : properties) (l : locals) (fr : frame) :
  incl (prefs details) u ->
  (fresh u (fr_stack fr) * S h + (2 * pdepth details + 1) <= budget)%nat ->
  keeps pair_stack (fr_stack fr) (nested_map_properties rec d details l fr).
Proof.
  intros Hdet Hbudget. unfold nested_map_properties.
  destruct (Analisis.dict_get details "properties") as [sub|] eqn:Hsub;
    [|apply keeps_ret; reflexivity].
  destruct (dict_get_member _ _ _ Hsub) as [k Hk].
  apply recurse_keeps.
  - intros x Hx. apply Hdet. exact (refs_member _ _ _ Hk x Hx).
  - unfold Measure.need. cbn [span]. pose proof (depth_member _ _ _ Hk). lia.
Qed.

Lemma node_name_cases (full_name : string) (a : bool) (c : option string) :
  (exists n, node_name full_name a c = Ok n) \/ (exists e, node_name full_name a c = Raise e).
Proof. destruct (node_name full_name a c); eauto. Qed.

Lemma begin_property_stack (fr fr' : frame) (req : jnode) (prop : string)
    (details : schema) (full_name : string) (l : locals) :
  begin_property fr req prop details full_name = Ok (l, fr') ->
  fr_stack fr' = fr_stack fr.
Proof.
  unfold begin_property.
  repeat match goal with
         | |- context [let '(_, _) := ?x in _] => destruct x
         end.
  match goal with
  | |- context [bind ?x _] => destruct x
  end; cbn [bind]; [|discriminate].
  intros [= <- <-]. reflexivity.
Qed.

Lemma begin_map_property_stack (fr fr' : frame) (req : jnode) (prop : string)
    (details : properties) (full_name : string) (l : locals) :
  begin_map_property fr req prop details full_name = Ok (l, fr') ->
  fr_stack fr' = fr_stack fr.
Proof.
  unfold begin_map_property.
  destruct (as_text _) as [description|e]; cbn [bind]; [|discriminate].
  destruct (sanitize_type_value _ _) as [t p].
  match goal with
  | |- context [bind ?x _] => destruct x
  end; cbn [bind]; [|discriminate].
  repeat match goal with
         | |- context [let '(_, _) := ?x in _] => destruct x
         end.
  match goal with
  | |- context [bind ?x _] => destruct x
  end; cbn [bind]; [|discriminate].
  intros [= <- <-]. reflexivity.
Qed.

Lemma finish_property_stack (l : locals) (fr : frame) :
  fr_stack (finish_property l fr) = fr_stack fr.
Proof. unfold finish_property. destruct (l_feature_type l); reflexivity. Qed.

Lemma iteration_keeps (stack : list string) (begun : result (locals * frame))
    (branch : locals -> frame -> M expansion)
    (nested : locals -> frame -> M (locals * frame)) :
  (forall l fr, begun = Ok (l, fr) -> fr_stack fr = stack) ->
  (forall l fr, fr_stack fr = stack -> keeps expansion_stack stack (branch l fr)) ->
  (forall l fr, fr_stack fr = stack -> keeps pair_stack stack (nested l fr)) ->
  keeps fr_stack stack (iteration set_order begun branch nested).
Proof.
  intros Hbegun Hbranch Hnested. unfold iteration.
  apply keeps_tryM. intros [l fr1] Hb. specialize (Hbegun _ _ Hb).
  eapply keeps_bind; [exact (Hbranch l fr1 Hbegun)|].
  intros [fr2|l2 fr2] Hst2; cbn in Hst2.
  - apply keeps_ret. exact Hst2.
  - eapply keeps_bind; [exact (Hnested _ fr2 Hst2)|].
    intros [l3 fr3] Hst3. unfold pair_stack in Hst3. cbn in Hst3.
    apply keeps_ret. rewrite finish_property_stack. exact Hst3.
Qed.

Lemma property_step_keeps (req : jnode) (parent : string) (d : nat)
    (prop : string) (details : jnode) (fr : frame) :
  incl (nrefs details) u ->
  (fresh u (fr_stack fr) * S h + weight details <= budget)%nat ->
  keeps fr_stack (fr_stack fr)
        (property_step set_order key_order definitions rec req parent d prop details fr).
Proof.
  intros Hdet Hbudget. unfold property_step.
  destruct (mem _ _); [apply keeps_ret; reflexivity|].
  destruct details as [|s|ps|t|l|l|l]; try apply keeps_raise.
  - apply iteration_keeps.
    + intros l fr1 Hb. exact (begin_map_property_stack _ _ _ _ _ _ _ Hb).
    + intros l fr1 Hst. rewrite <- Hst. apply expand_map_keeps; [intros x []|].
      rewrite Hst. lia.
    + intros l fr1 Hst. apply keeps_ret. exact Hst.
  - cbn [Measure.nrefs weight] in Hdet, Hbudget. apply iteration_keeps.
    + intros l fr1 Hb. exact (begin_property_stack _ _ _ _ _ _ _ Hb).
    + intros l fr1 Hst. rewrite <- Hst. apply expand_keeps; [exact Hdet|].
      rewrite Hst. lia.
    + intros l fr1 Hst. rewrite <- Hst. apply nested_properties_keeps; [exact Hdet|].
      rewrite Hst. lia.
  - cbn [Measure.nrefs weight] in Hdet, Hbudget. apply iteration_keeps.
    + intros l fr1 Hb. exact (begin_map_property_stack _ _ _ _ _ _ _ Hb).
    + intros l fr1 Hst. rewrite <- Hst. apply expand_map_keeps; [exact Hdet|].
      rewrite Hst. lia.
    + intros l fr1 Hst. rewrite <- Hst. apply nested_map_properties_keeps; [exact Hdet|].
      rewrite Hst. lia.
Qed.

Lemma properties_loop_keeps (req : jnode) (parent : string) (d : nat) (w : nat)
    (items : list (string * jnode)) :
  forall fr,
    Forall (fun kv => (weight (snd kv) <= w)%nat /\ incl (nrefs (snd kv)) u) items ->
    (fresh u (fr_stack fr) * S h + w <= budget)%nat ->
    keeps fr_stack (fr_stack fr)
          (properties_loop set_order key_order definitions rec req parent d items fr).
Proof.
  induction items as [|[prop details] rest IH]; intros fr Hitems Hneed; cbn [properties_loop].
  - apply keeps_ret. reflexivity.
  - inversion Hitems as [|x r [Hw Hr] Hrest]; subst. cbn [snd] in Hw, Hr.
    eapply keeps_bind.
    + apply property_step_keeps; [exact Hr|lia].
    + intros fr' Hst. rewrite <- Hst. apply IH; [exact Hrest|]. rewrite Hst. exact Hneed.
Qed.

End Phases.

Lemma parse_properties_good (fuel : nat) :
  good (parse_properties set_order key_order definitions fuel) fuel.
Proof.
  induction fuel as [|fuel IH]; intros ps req parent d stack p Hps Hneed; [lia|].
  cbn [parse_properties]. apply keeps_tryM. intros items Hitems.
  eapply keeps_bind.
  - apply (properties_loop_keeps _ _ IH req parent d (span definitions ps) items
             (Frame p stack [] [] false None)).
    + pose proof (items_of_inner _ _ Hitems) as H.
      eapply List.Forall_impl; [|exact H]. intros kv [Hw Hr]. split; [exact Hw|].
      intros x Hx. apply Hps, Hr, Hx.
    + cbn [fr_stack]. unfold Measure.need in Hneed. lia.
  - intros fr Hst. apply keeps_ret. exact Hst.
Qed.

End Termination.


(** *** A reference that is on the stack *)

Lemma sanitize_type_data_processed (p p' : proc) (t t' : string) :
  sanitize_type_data p t = (t', p') -> processed_features p' = processed_features p.
Proof.
  unfold sanitize_type_data.
  repeat match goal with
         | |- context [if ?b then _ else _] => destruct b
         end; intros [= <- <-]; reflexivity.
Qed.

Lemma name_with_cardinality_processed (p p' : proc) (n n' d : string) :
  name_with_cardinality p n d = (n', p') -> processed_features p' = processed_features p.
Proof.
  unfold name_with_cardinality.
  repeat match goal with
         | |- context [if ?b then _ else _] => destruct b
         end; intros [= <- <-]; reflexivity.
Qed.

Lemma update_type_data_processed (p p' : proc) (n t d t' : string) (a : bool) :
  update_type_data p n t d = (t', a, p') -> processed_features p' = processed_features p.
Proof.
  unfold update_type_data.
  repeat match goal with
         | |- context [let '(_, _) := ?x in _] => destruct x
         end.
  intros H. inversion H. reflexivity.
Qed.

Lemma categorize_description_processed (p p' : proc) (d n t : string) (b : bool) :
  categorize_description p d n t = (b, p') -> processed_features p' = processed_features p.
Proof.
  unfold categorize_description, is_valid_description.
  destruct (Py.len n <? 10)%nat; cbn [negb]; [intros H; inversion H; reflexivity|].
  destruct (mem _ _); cbn [negb]; [intros H; inversion H; reflexivity|].
  destruct (first_category patterns d) as [[| |]|]; intros H; inversion H; reflexivity.
Qed.

(** Until the structural branch, an iteration touches neither the result
    lists nor [processed_features]. *)
Lemma begin_property_untouched (fr fr' : frame) (req : jnode) (prop : string)
    (details : schema) (full_name : string) (l : locals) :
  begin_property fr req prop details full_name = Ok (l, fr') ->
  fr_mandatory fr' = fr_mandatory fr
  /\ fr_optional fr' = fr_optional fr
  /\ processed_features (fr_proc fr') = processed_features (fr_proc fr).
Proof.
  unfold begin_property.
  destruct (sanitize_type_data _ _) as [t1 p1] eqn:E1.
  apply sanitize_type_data_processed in E1. cbn in E1.
  destruct (process_enum_defaultInte _ _ _) as [n1 default_bool].
  destruct (name_with_cardinality p1 n1 _) as [n2 p2] eqn:E2.
  apply name_with_cardinality_processed in E2.
  destruct (negb (String.eqb (get_or (s_description details) "") "")).
  - destruct (update_type_data p2 n2 t1 _) as [[t3 a3] p3] eqn:E3.
    apply update_type_data_processed in E3.
    destruct (categorize_description p3 _ n2 t3) as [b4 p4] eqn:E4.
    apply categorize_description_processed in E4.
    unfold node_name.
    repeat match goal with
           | |- context [if ?b then _ else _] => destruct b
           end;
      cbn [bind]; intros H; inversion H; subst;
      cbn [fr_mandatory fr_optional fr_proc processed_features with_deprecated];
      repeat split; congruence.
  - unfold node_name.
    repeat match goal with
           | |- context [if ?b then _ else _] => destruct b
           end;
      try destruct (fr_cleaned_description fr);
      cbn [bind]; intros H; inversion H; subst;
      cbn [fr_mandatory fr_optional fr_proc processed_features with_deprecated];
      repeat split; congruence.
Qed.

Lemma follow_skips (definitions : properties) (ref : string) (l : locals) (fr : frame)
    (on_value : jnode -> string -> frame -> M (locals * frame)) :
  in_list ref (fr_stack fr) = true ->
  follow definitions ref l fr on_value = ret (Skipped fr).
Proof. intros H. unfold follow. rewrite H. reflexivity. Qed.

Lemma expand_skips (key_order : schema -> list string) (definitions : properties)
    (rec : parser) (d : nat) (details : schema) (l : locals) (fr : frame) (ref : string) :
  Measure.followed_reference details = Some ref ->
  in_list ref (fr_stack fr) = true ->
  expand key_order definitions rec d details l fr = ret (Skipped fr).
Proof.
  unfold Measure.followed_reference, expand. intros Href Hin.
  destruct (s_ref details) as [r|].
  - injection Href as ->. unfold expand_ref. apply follow_skips. exact Hin.
  - destruct (s_items details) as [i|].
    + unfold expand_items. rewrite Href. apply follow_skips. exact Hin.
    + destruct (s_additionalProperties details) as [a|]; [|discriminate].
      unfold expand_additional. rewrite Href. apply follow_skips. exact Hin.
Qed.

Lemma mbind_assoc {A B C : Type} (m : M A) (k1 : A -> M B) (k2 : B -> M C) :
  mbind (mbind m k1) k2 = mbind m (fun a => mbind (k1 a) k2).
Proof. destruct m as [[a|e]|]; reflexivity. Qed.

Lemma mbind_ret_r {A : Type} (m : M A) : mbind m (fun x => ret x) = m.
Proof. destruct m as [[a|e]|]; reflexivity. Qed.

(** *** A reference that is not on the stack *)

Lemma schema_field_properties (s : schema) :
  schema_field s "properties" = option_map NProperties (s_properties s).
Proof. reflexivity. Qed.

Lemma schema_field_required (s : schema) :
  schema_field s "required" = option_map NNames (s_required s).
Proof. reflexivity. Qed.

Lemma required_of_schema (s : schema) :
  get_or (option_map NNames (s_required s)) (NNames []) = NNames (get_or (s_required s) []).
Proof. destruct (s_required s); reflexivity. Qed.

Lemma schema_with_properties_truthy (s : schema) (sub : properties) :
  s_properties s = Some sub -> schema_truthy s = true.
Proof.
  intros H. unfold schema_truthy. rewrite H. cbn [is_some].
  rewrite !orb_true_r. reflexivity.
Qed.

(** What [follow] does with a reference that is not on the stack and
    resolves to a schema object with properties, for a handler that makes
    the recursive call on these properties. *)
Lemma follow_recurses (definitions : properties) (rec : parser) (ref : string)
    (l : locals) (fr : frame) (s : schema) (sub : properties) (required : jnode)
    (parent : string) (d : nat)
    (on_value : jnode -> string -> frame -> M (locals * frame))
    (after : locals * frame -> M (locals * frame)) :
  in_list ref (fr_stack fr) = false ->
  resolve_reference definitions ref = Some (NSchema s) ->
  s_properties s = Some sub ->
  (forall name fr0,
      on_value (NSchema s) name fr0
      = mbind (recurse rec (NProperties sub) required parent d l fr0) after) ->
  follow definitions ref l fr on_value
  = mbind (rec (NProperties sub) required parent (d + 1) (fr_stack fr ++ [ref])%list (fr_proc fr))
      (fun r =>
         mbind (let '(m, o, stack, p) := r in
                ret (extend l (m ++ o)%list, with_stack (with_proc (push fr ref) p) stack))
               (fun x => mbind (after x)
                           (fun y => let '(l', fr') := y in ret (Expanded l' (pop fr'))))).
Proof.
  intros Hnot Hres Hsub Hon. unfold follow. rewrite Hnot, Hres.
  cbn [node_truthy]. rewrite (schema_with_properties_truthy _ _ Hsub), Hon.
  unfold recurse. rewrite !mbind_assoc. reflexivity.
Qed.

Lemma expand_recurses (key_order : schema -> list string) (definitions : properties)
    (rec : parser) (depth : nat) (details : schema) (l : locals) (fr : frame)
    (ref : string) (s : schema) (sub : properties) :
  Measure.followed_reference details = Some ref ->
  in_list ref (fr_stack fr) = false ->
  resolve_reference definitions ref = Some (NSchema s) ->
  s_properties s = Some sub ->
  exists k,
    expand key_order definitions rec depth details l fr
    = mbind (rec (NProperties sub) (Measure.passed_required details s) (l_full_name l)
                 (depth + 1) (fr_stack fr ++ [ref])%list (fr_proc fr)) k
    /\ forall m o stack p, Measure.expanded_with l fr m o stack p (k (m, o, stack, p)).
Proof.
  intros Href Hnot Hres Hsub.
  unfold Measure.followed_reference in Href. unfold expand, Measure.passed_required.
  destruct (s_ref details) as [r|].
  - injection Href as ->. unfold expand_ref.
    erewrite follow_recurses; [|exact Hnot|exact Hres|exact Hsub|].
    2:{ intros name fr0. cbn [node_in node_item node_get].
        rewrite schema_field_properties, schema_field_required, Hsub.
        cbn [option_map is_some tryM]. rewrite required_of_schema. reflexivity. }
    eexists. split; [reflexivity|].
    intros m o stack p. cbn beta iota.
    destruct (Py.endswith "emptyDir" (l_full_name l)
              || Py.endswith "EmptyDirVolumeSource" (l_full_name l)).
    + exists (extend (extend l (m ++ o)) [isEmpty_leaf (l_full_name l)]),
             [isEmpty_leaf (l_full_name l)].
      split; [reflexivity|]. split; [|reflexivity].
      cbn. rewrite <- !app_assoc. reflexivity.
    + exists (extend l (m ++ o)), []. split; [reflexivity|]. split; [|reflexivity].
      cbn. rewrite app_nil_r. reflexivity.
  - destruct (s_items details) as [i|].
    + unfold expand_items. rewrite Href.
      erewrite (follow_recurses definitions rec ref l fr s sub
                  (NNames (get_or (s_required s) [])) (l_full_name l) depth _
                  (fun x => ret x));
        [|exact Hnot|exact Hres|exact Hsub|].
      2:{ intros name fr0. cbn [node_in node_item node_get].
          rewrite schema_field_properties, schema_field_required, Hsub.
          cbn [option_map is_some tryM]. rewrite required_of_schema.
          symmetry. apply mbind_ret_r. }
      eexists. split; [reflexivity|].
      intros m o stack p. exists (extend l (m ++ o)), [].
      split; [reflexivity|]. split; [|reflexivity].
      cbn. rewrite app_nil_r. reflexivity.
    + destruct (s_additionalProperties details) as [a|]; [|discriminate].
      unfold expand_additional. rewrite Href.
      erewrite (follow_recurses definitions rec ref l fr s sub (NNames []) (l_full_name l)
                  depth _ (fun x => ret x));
        [|exact Hnot|exact Hres|exact Hsub|].
      2:{ intros name fr0. cbn [node_in node_item node_get].
          rewrite schema_field_properties, Hsub.
          cbn [option_map is_some tryM]. symmetry. apply mbind_ret_r. }
      eexists. split; [reflexivity|].
      intros m o stack p. exists (extend l (m ++ o)), [].
      split; [reflexivity|]. split; [|reflexivity].
      cbn. rewrite app_nil_r. reflexivity.
Qed.

(** Every iteration of a call with enough fuel gives an outcome, and leaves
    the stack as it found it when it completes. *)
Lemma property_step_restores (set_order : gset string -> list string)
    (key_order : schema -> list string) (definitions : properties)
    (props : jnode) (items : list (string * jnode)) (fuel : nat)
    (required : jnode) (parent : string) (depth : nat) (prop : string) (details : jnode)
    (fr : frame) :
  (Measure.enough_fuel definitions props <= S fuel)%nat ->
  items_of key_order definitions props = Ok items ->
  In (prop, details) items ->
  Measure.keeps fr_stack (fr_stack fr)
    (property_step set_order key_order definitions
       (parse_properties set_order key_order definitions fuel)
       required parent depth prop details fr).
Proof.
  intros Hfuel Hitems Hin.
  pose (u := Measure.universe definitions props).
  pose (h := Measure.height definitions props).
  assert (Hu : incl (Measure.prefs definitions) u).
  { intros x Hx. apply nodup_In, in_or_app. right. exact Hx. }
  assert (Hps : incl (Measure.nrefs definitions props) u).
  { intros x Hx. apply nodup_In, in_or_app. left. exact Hx. }
  assert (Hh : (2 * Measure.pdepth definitions <= h)%nat) by (unfold h, Measure.height; lia).
  pose proof (items_of_inner key_order definitions _ _ Hitems) as Hall.
  rewrite List.Forall_forall in Hall. destruct (Hall _ Hin) as [Hw Hr]. cbn [snd] in Hw, Hr.
  apply (property_step_keeps set_order key_order definitions u h Hu Hh _ fuel
           (parse_properties_good set_order key_order definitions u h Hu Hh fuel)).
  - intros x Hx. apply Hps, Hr, Hx.
  - pose proof (fresh_le_length u (fr_stack fr)) as Hf.
    unfold Measure.enough_fuel in Hfuel. fold u h in Hfuel.
    assert (Measure.span definitions props <= h)%nat by (unfold h, Measure.height; lia).
    nia.
Qed.

(** C2: [parse_properties] terminates on every document, cyclic or not,
    and the stack of references is branch-local.
    - With the fuel [enough_fuel], or more, every call gives an outcome (it
      returns, or a Python exception leaves it), and a call that returns
      gives the stack back as it received it.
    - A property whose reference ([$ref], or the [$ref] of its [items] or
      [additionalProperties]) is on the stack is skipped: the iteration
      ends there, nothing is added to the result lists nor to
      [processed_features].
    - In each of the three branches, a reference that is not on the stack
      and resolves to a schema object with properties is pushed: the
      recursive call on these properties receives the stack with the
      reference at its end; when the call returns, its features are added
      to the node and the last element of the stack is removed.
    - Every iteration of a call leaves the stack as it found it when it
      completes: the next property is examined with the same stack,
      whatever the properties before it have followed.
    - In the definition [Node], whose properties [left] and [right] both
      refer to [Node], the two siblings are expanded (each gets its [val]),
      and the occurrences of [left] and [right] inside them are left out;
      likewise in [Tree], which refers to itself through the items of two
      arrays and the values of two maps. *)
Theorem cycle_guard_terminates_and_restores_stack :
  forall (set_order : gset string -> list string) (key_order : schema -> list string)
         (definitions : properties),
    (forall props required parent depth stack p fuel,
        (Measure.enough_fuel definitions props <= fuel)%nat ->
        exists r,
          parse_properties set_order key_order definitions fuel props required parent depth
                           stack p = Some r
          /\ forall m o stack' p', r = Ok (m, o, stack', p') -> stack' = stack)
    /\ (forall rec required parent depth prop details fr l fr1 ref,
           mem (qualify parent (sanitize_name prop)) (processed_features (fr_proc fr)) = false ->
           begin_property fr required prop details (qualify parent (sanitize_name prop))
           = Ok (l, fr1) ->
           Measure.followed_reference details = Some ref ->
           in_list ref (fr_stack fr) = true ->
           property_step set_order key_order definitions rec required parent depth prop
                         (NSchema details) fr = ret fr1
           /\ fr_mandatory fr1 = fr_mandatory fr
           /\ fr_optional fr1 = fr_optional fr
           /\ fr_stack fr1 = fr_stack fr
           /\ processed_features (fr_proc fr1) = processed_features (fr_proc fr))
    /\ (forall rec depth details l fr ref s sub,
           Measure.followed_reference details = Some ref ->
           in_list ref (fr_stack fr) = false ->
           resolve_reference definitions ref = Some (NSchema s) ->
           s_properties s = Some sub ->
           exists k,
             expand key_order definitions rec depth details l fr
             = mbind (rec (NProperties sub) (Measure.passed_required details s) (l_full_name l)
                          (depth + 1) (fr_stack fr ++ [ref])%list (fr_proc fr)) k
             /\ forall m o stack p, Measure.expanded_with l fr m o stack p (k (m, o, stack, p)))
    /\ (forall props items fuel required parent depth prop details fr,
           (Measure.enough_fuel definitions props <= S fuel)%nat ->
           items_of key_order definitions props = Ok items ->
           In (prop, details) items ->
           exists r,
             property_step set_order key_order definitions
               (parse_properties set_order key_order definitions fuel)
               required parent depth prop details fr = Some r
             /\ forall fr', r = Ok fr' -> fr_stack fr' = fr_stack fr)
    /\ match parse_properties set_order key_order tree_node 3
               (NProperties (get_or (s_properties (snd (hd ("", no_schema) tree_node))) []))
               (NNames []) "Node" 0 [] init_proc with
       | Some (Ok (m, o, stack, _)) =>
           all_names (m ++ o)
           = ["Node_left"; "Node_left_val"; "Node_right"; "Node_right_val"; "Node_val"]
           /\ stack = []
       | _ => False
       end
    /\ match parse_properties set_order key_order forest 3
               (NProperties (get_or (s_properties (snd (hd ("", no_schema) forest))) []))
               (NNames []) "Tree" 0 [] init_proc with
       | Some (Ok (m, o, stack, _)) =>
           all_names (m ++ o)
           = ["Tree_kids cardinality [1..*]"; "Tree_kids_val";
              "Tree_more cardinality [1..*]"; "Tree_more_val";
              "Tree_byName cardinality [1..*]"; "Tree_byName_val";
              "Tree_byKind cardinality [1..*]"; "Tree_byKind_val"; "Tree_val"]
           /\ stack = []
       | _ => False
       end.
Proof.
  intros set_order key_order definitions. split; [|split; [|split; [|split; [|split]]]].
  - intros props required parent depth stack p fuel Hfuel.
    pose (u := Measure.universe definitions props).
    pose (h := Measure.height definitions props).
    assert (Hu : incl (Measure.prefs definitions) u).
    { intros x Hx. apply nodup_In, in_or_app. right. exact Hx. }
    assert (Hps : incl (Measure.nrefs definitions props) u).
    { intros x Hx. apply nodup_In, in_or_app. left. exact Hx. }
    assert (Hh : (2 * Measure.pdepth definitions <= h)%nat) by (unfold h, Measure.height; lia).
    destruct (parse_properties_good set_order key_order definitions u h Hu Hh fuel props
                required parent depth stack p Hps) as (r & Hr & Hst).
    + unfold Measure.need. pose proof (fresh_le_length u stack) as Hf.
      unfold Measure.enough_fuel in Hfuel. fold u h in Hfuel.
      assert (Measure.span definitions props <= h)%nat by (unfold h, Measure.height; lia).
      nia.
    + exists r. split; [exact Hr|]. intros m o stack' p' ->. exact (Hst _ eq_refl).
  - intros rec required parent depth prop details fr l fr1 ref Hmem Hbegin Href Hin.
    destruct (begin_property_untouched _ _ _ _ _ _ _ Hbegin) as (Hm & Ho & Hp).
    pose proof (begin_property_stack _ _ _ _ _ _ _ Hbegin) as Hst.
    repeat split; try assumption.
    unfold property_step. rewrite Hmem. unfold iteration. rewrite Hbegin. cbn [tryM].
    rewrite (expand_skips key_order definitions rec depth details l fr1 ref Href)
      by (rewrite Hst; exact Hin).
    reflexivity.
  - intros rec depth details l fr ref s sub. apply expand_recurses.
  - intros props items fuel required parent depth prop details fr Hfuel Hitems Hin.
    destruct (property_step_restores set_order key_order definitions props items fuel required
                parent depth prop details fr Hfuel Hitems Hin) as (r & Hr & Hst).
    exists r. split; [exact Hr|]. intros fr' ->. exact (Hst _ eq_refl).
  - vm_compute. split; reflexivity.
  - vm_compute. split; reflexivity.
Qed.


Lemma cycle_guard_terminates_and_restores_stack_witness :
  (exists r,
      parse_properties listed record_order forest
        (Measure.enough_fuel forest (NProperties forest)) (NProperties forest) (NNames []) "" 0
        [] init_proc = Some r
      /\ forall m o stack' p', r = Ok (m, o, stack', p') -> stack' = [])
  /\ (exists k,
         expand record_order forest (fun _ _ _ _ _ _ => None) 0 (array_of "#/definitions/Tree")
                (Locals (leaf "Tree_kids" optional "" "") "Tree_kids" optional "" None false)
                (Frame init_proc [] [] [] false None)
         = mbind ((fun _ _ _ _ _ _ => None)
                    (NProperties (get_or (s_properties (snd (hd ("", no_schema) forest))) []))
                    (Measure.passed_required (array_of "#/definitions/Tree")
                                             (snd (hd ("", no_schema) forest)))
                    (l_full_name (Locals (leaf "Tree_kids" optional "" "") "Tree_kids" optional
                                         "" None false))
                    (0 + 1)%nat
                    (fr_stack (Frame init_proc [] [] [] false None) ++ ["#/definitions/Tree"])%list
                    (fr_proc (Frame init_proc [] [] [] false None))) k
         /\ forall m o stack p,
              Measure.expanded_with
                (Locals (leaf "Tree_kids" optional "" "") "Tree_kids" optional "" None false)
                (Frame init_proc [] [] [] false None) m o stack p (k (m, o, stack, p))).
Proof.
  destruct (cycle_guard_terminates_and_restores_stack listed record_order forest)
    as (H1 & _ & H3 & _).
  split.
  - apply (H1 (NProperties forest) (NNames []) "" 0%nat [] init_proc
              (Measure.enough_fuel forest (NProperties forest))).
    apply Nat.le_refl.
  - apply (H3 (fun _ _ _ _ _ _ => None) 0%nat (array_of "#/definitions/Tree")
              (Locals (leaf "Tree_kids" optional "" "") "Tree_kids" optional "" None false)
              (Frame init_proc [] [] [] false None) "#/definitions/Tree"
              (snd (hd ("", no_schema) forest))
              (get_or (s_properties (snd (hd ("", no_schema) forest))) [])).
    + reflexivity.
    + reflexivity.
    + vm_compute. reflexivity.
    + reflexivity.
Defined.


(** ** The Boolean override *)











(** ** The enumeration order of the value sets *)

Section Enumeration.
Import Agreement.

Variable so1 so2 : gset string -> list string.
Variable key_order : schema -> list string.
Variable definitions : properties.
Variable exact : bool.
Hypothesis Horder : exact = true -> forall values, so1 values = so2 values.

Lemma same_refl {A : Type} (x : A) : same exact x x.
Proof. intros _. reflexivity. Qed.

Lemma same_map {A B : Type} (g : A -> B) (x y : A) : same exact x y -> same exact (g x) (g y).
Proof. intros H E. rewrite (H E). reflexivity. Qed.

Lemma same_map2 {A B C : Type} (g : A -> B -> C) (x y : A) (u v : B) :
  same exact x y -> same exact u v -> same exact (g x u) (g y v).
Proof. intros H1 H2 E. rewrite (H1 E), (H2 E). reflexivity. Qed.

Lemma agree_ret {A B : Type} (R : A -> B -> Prop) (a : A) (b : B) :
  R a b -> agree exact R (ret a) (ret b).
Proof. intros H. exact H. Qed.

Lemma agree_raise {A B : Type} (R : A -> B -> Prop) (e : string) :
  agree exact R (raise e) (raise e).
Proof. intros _. reflexivity. Qed.

Lemma agree_none {A B : Type} (R : A -> B -> Prop) : agree exact R None None.
Proof. exact I. Qed.

Lemma agree_refl {A : Type} (m : M A) : agree exact eq m m.
Proof. destruct m as [[a|e]|]; cbn; auto. Qed.

Lemma agree_any {A B : Type} (R : A -> B -> Prop) (m : M A) (m' : M B) :
  exact = false ->
  (forall a b, m = Some (Ok a) -> m' = Some (Ok b) -> R a b) ->
  agree exact R m m'.
Proof.
  intros E H. destruct m as [[a|e]|], m' as [[b|e']|]; cbn; try exact E; try exact I.
  - apply H; reflexivity.
  - intros E'. congruence.
Qed.

Lemma agree_bind {A B C D : Type} (R : A -> B -> Prop) (S : C -> D -> Prop)
    (m : M A) (m' : M B) (k : A -> M C) (k' : B -> M D) :
  agree exact R m m' ->
  (forall a b, R a b -> agree exact S (k a) (k' b)) ->
  agree exact S (mbind m k) (mbind m' k').
Proof.
  intros Hm Hk.
  destruct m as [[a|e]|], m' as [[b|e']|]; cbn [mbind]; cbn in Hm.
  - apply Hk. exact Hm.
  - apply agree_any; [exact Hm|]. intros; discriminate.
  - apply agree_any; [exact Hm|]. intros; discriminate.
  - apply agree_any; [exact Hm|]. intros; discriminate.
  - exact Hm.
  - exact Hm.
  - apply agree_any; [exact Hm|]. intros; discriminate.
  - exact Hm.
  - exact I.
Qed.

Lemma tryM_mbind {A B : Type} (r : result A) (k : A -> M B) : tryM r k = mbind (Some r) k.
Proof. destruct r; reflexivity. Qed.

Lemma agree_try {A B C D : Type} (R : A -> B -> Prop) (S : C -> D -> Prop)
    (r : result A) (r' : result B) (k : A -> M C) (k' : B -> M D) :
  agree exact R (Some r) (Some r') ->
  (forall a b, R a b -> agree exact S (k a) (k' b)) ->
  agree exact S (tryM r k) (tryM r' k').
Proof. rewrite !tryM_mbind. apply agree_bind. Qed.

Lemma agree_try_same {A C D : Type} (S : C -> D -> Prop)
    (r : result A) (k : A -> M C) (k' : A -> M D) :
  (forall a, agree exact S (k a) (k' a)) ->
  agree exact S (tryM r k) (tryM r k').
Proof.
  intros Hk. apply (agree_try eq); [apply agree_refl|]. intros a b <-. apply Hk.
Qed.

(** *** The states *)

Lemma frame_agree_refl (fr : frame) : frame_agree exact fr fr.
Proof.
  exists (fr_mandatory fr), (fr_optional fr). split; [apply same_refl|].
  split; [apply same_refl|]. destruct fr; reflexivity.
Qed.

Lemma locals_agree_refl (l : locals) : locals_agree exact l l.
Proof. exists (l_feature l). split; [apply same_refl|]. destruct l; reflexivity. Qed.

Lemma frame_agree_with_proc (fr fr' : frame) (p : proc) :
  frame_agree exact fr fr' -> frame_agree exact (with_proc fr p) (with_proc fr' p).
Proof. intros (m' & o' & Hm & Ho & ->). exists m', o'. repeat split; assumption. Qed.

Lemma frame_agree_with_stack (fr fr' : frame) (st : list string) :
  frame_agree exact fr fr' -> frame_agree exact (with_stack fr st) (with_stack fr' st).
Proof. intros (m' & o' & Hm & Ho & ->). exists m', o'. repeat split; assumption. Qed.

Lemma frame_agree_push (fr fr' : frame) (ref : string) :
  frame_agree exact fr fr' -> frame_agree exact (push fr ref) (push fr' ref).
Proof. intros (m' & o' & Hm & Ho & ->). exists m', o'. repeat split; assumption. Qed.

Lemma frame_agree_pop (fr fr' : frame) :
  frame_agree exact fr fr' -> frame_agree exact (pop fr) (pop fr').
Proof. intros (m' & o' & Hm & Ho & ->). exists m', o'. repeat split; assumption. Qed.

Lemma frame_agree_proc (fr fr' : frame) : frame_agree exact fr fr' -> fr_proc fr' = fr_proc fr.
Proof. intros (m' & o' & Hm & Ho & ->). reflexivity. Qed.

Lemma frame_agree_stack (fr fr' : frame) : frame_agree exact fr fr' -> fr_stack fr' = fr_stack fr.
Proof. intros (m' & o' & Hm & Ho & ->). reflexivity. Qed.

Lemma locals_agree_extend (l l' : locals) (subs subs' : list feature) :
  locals_agree exact l l' -> same exact subs subs' ->
  locals_agree exact (extend l subs) (extend l' subs').
Proof.
  intros (f' & Hf & ->) Hs. exists (add_sub_features f' subs'). split.
  - cbn. apply same_map2; assumption.
  - reflexivity.
Qed.

Lemma locals_agree_with_full_name (l l' : locals) (n : string) :
  locals_agree exact l l' -> locals_agree exact (with_full_name l n) (with_full_name l' n).
Proof. intros (f' & Hf & ->). exists f'. split; [exact Hf|reflexivity]. Qed.

Lemma locals_agree_full_name (l l' : locals) :
  locals_agree exact l l' -> l_full_name l' = l_full_name l.
Proof. intros (f' & Hf & ->). reflexivity. Qed.

Lemma locals_agree_feature_type (l l' : locals) :
  locals_agree exact l l' -> l_feature_type l' = l_feature_type l.
Proof. intros (f' & Hf & ->). reflexivity. Qed.

Lemma locals_agree_added (l l' : locals) :
  locals_agree exact l l' -> l_bool_added_value l' = l_bool_added_value l.
Proof. intros (f' & Hf & ->). reflexivity. Qed.

Lemma locals_agree_description (l l' : locals) :
  locals_agree exact l l' -> l_description l' = l_description l.
Proof. intros (f' & Hf & ->). reflexivity. Qed.

Lemma expanded_agree (l l' : locals) (fr fr' : frame) :
  locals_agree exact l l' -> frame_agree exact fr fr' ->
  agree exact (expansion_agree exact) (ret (Expanded l fr)) (ret (Expanded l' fr')).
Proof. intros Hl Hfr. apply agree_ret. split; assumption. Qed.

Lemma pair_ret_agree (l l' : locals) (fr fr' : frame) :
  locals_agree exact l l' -> frame_agree exact fr fr' ->
  agree exact (pair_agree exact) (ret (l, fr)) (ret (l', fr')).
Proof. intros Hl Hfr. apply agree_ret. split; assumption. Qed.

(** *** The phases of an iteration *)

Section Phases.
Variable rec rec' : parser.
Hypothesis Hrec : parser_agree exact rec rec'.

Lemma recurse_agree (sp sr : jnode) (parent : string) (d : nat) (l l' : locals)
    (fr fr' : frame) :
  locals_agree exact l l' -> frame_agree exact fr fr' ->
  agree exact (pair_agree exact) (recurse rec sp sr parent d l fr)
        (recurse rec' sp sr parent d l' fr').
Proof.
  intros Hl Hfr. unfold recurse.
  rewrite (frame_agree_proc _ _ Hfr), (frame_agree_stack _ _ Hfr).
  apply (agree_bind (result_agree exact)); [apply Hrec|].
  intros [[[m o] st] p] [[[m' o'] st'] p'] (Hm & Ho & Hst & Hp). cbn in Hm, Ho, Hst, Hp.
  subst st' p'. apply pair_ret_agree.
  - apply locals_agree_extend; [exact Hl|]. apply same_map2; assumption.
  - apply frame_agree_with_stack, frame_agree_with_proc. exact Hfr.
Qed.

Lemma follow_agree (ref : string) (l l' : locals) (fr fr' : frame)
    (on on' : jnode -> string -> frame -> M (locals * frame)) :
  (forall v n f f', frame_agree exact f f' ->
                    agree exact (pair_agree exact) (on v n f) (on' v n f')) ->
  locals_agree exact l l' -> frame_agree exact fr fr' ->
  agree exact (expansion_agree exact) (follow definitions ref l fr on)
        (follow definitions ref l' fr' on').
Proof.
  intros Hon Hl Hfr. unfold follow. rewrite (frame_agree_stack _ _ Hfr).
  destruct (in_list ref (fr_stack fr)); [apply agree_ret; exact Hfr|].
  destruct (resolve_reference definitions ref) as [v|].
  - destruct (node_truthy v).
    + apply (agree_bind (pair_agree exact)); [apply Hon, frame_agree_push, Hfr|].
      intros [a fa] [b fb] [Ha Hf]. apply expanded_agree; [exact Ha|].
      apply frame_agree_pop. exact Hf.
    + apply expanded_agree; [exact Hl|]. apply frame_agree_pop, frame_agree_push, Hfr.
  - apply expanded_agree; [exact Hl|]. apply frame_agree_pop, frame_agree_push, Hfr.
Qed.

Ltac same_scrutinee :=
  repeat match goal with
         | |- agree _ _ (tryM ?r _) (tryM ?r _) => apply agree_try_same; intros ?
         | |- agree _ _ (if ?b then _ else _) (if ?b then _ else _) => destruct b
         | |- agree _ _ (let '(_, _) := ?x in _) (let '(_, _) := ?x in _) => destruct x
         | |- agree _ _ (match ?x with _ => _ end) (match ?x with _ => _ end) => destruct x
         | |- agree _ _ (raise ?e) (raise ?e) => apply agree_raise
         end.

Ltac finish_pair Hl Hf :=
  repeat match goal with
         | |- context [if ?b then _ else _] => destruct b
         end;
  (apply pair_ret_agree;
   [ repeat apply locals_agree_extend; try apply locals_agree_with_full_name;
     try exact Hl; apply same_refl
   | try apply frame_agree_with_proc; exact Hf ]).

Lemma expand_ref_agree (d : nat) (ref : string) (l l' : locals) (fr fr' : frame) :
  locals_agree exact l l' -> frame_agree exact fr fr' ->
  agree exact (expansion_agree exact) (expand_ref key_order definitions rec d ref l fr)
        (expand_ref key_order definitions rec' d ref l' fr').
Proof.
  intros Hl Hfr. unfold expand_ref. apply follow_agree; [|exact Hl|exact Hfr].
  intros v n f f' Hf.
  rewrite (locals_agree_full_name _ _ Hl), (locals_agree_feature_type _ _ Hl),
    (frame_agree_proc _ _ Hf).
  same_scrutinee.
  - apply (agree_bind (pair_agree exact)); [apply recurse_agree; assumption|].
    intros [la fa] [lb fb] [Ha Hfa]. finish_pair Ha Hfa.
  - finish_pair Hl Hf.
  - finish_pair Hl Hf.
Qed.

Lemma expand_items_agree (d : nat) (items : schema) (l l' : locals) (fr fr' : frame) :
  locals_agree exact l l' -> frame_agree exact fr fr' ->
  agree exact (expansion_agree exact) (expand_items definitions rec d items l fr)
        (expand_items definitions rec' d items l' fr').
Proof.
  intros Hl Hfr. unfold expand_items. destruct (s_ref items) as [ref|].
  - apply follow_agree; [|exact Hl|exact Hfr].
    intros v n f f' Hf. rewrite (locals_agree_full_name _ _ Hl).
    same_scrutinee.
    + apply recurse_agree; assumption.
    + finish_pair Hl Hf.
  - rewrite (locals_agree_full_name _ _ Hl), (frame_agree_proc _ _ Hfr).
    destruct (s_type items) as [t|]; [|apply expanded_agree; assumption].
    destruct (is_cardinality (fr_proc fr)); [|apply expanded_agree; assumption].
    cbn [l_bool_added_value with_full_name]. rewrite (locals_agree_added _ _ Hl).
    repeat match goal with
           | |- context [if ?b then _ else _] => destruct b
           end;
      apply expanded_agree; try exact Hfr;
      repeat apply locals_agree_extend; try apply locals_agree_with_full_name;
      try exact Hl; apply same_refl.
Qed.

Lemma expand_additional_agree (d : nat) (additional : schema) (l l' : locals)
    (fr fr' : frame) :
  locals_agree exact l l' -> frame_agree exact fr fr' ->
  agree exact (expansion_agree exact)
        (expand_additional key_order definitions rec d additional l fr)
        (expand_additional key_order definitions rec' d additional l' fr').
Proof.
  intros Hl Hfr. unfold expand_additional. destruct (s_ref additional) as [ref|].
  - apply follow_agree; [|exact Hl|exact Hfr].
    intros v n f f' Hf.
    rewrite (locals_agree_full_name _ _ Hl), (locals_agree_feature_type _ _ Hl),
      (frame_agree_proc _ _ Hf).
    same_scrutinee.
    + apply recurse_agree; assumption.
    + finish_pair Hl Hf.
    + finish_pair Hl Hf.
  - rewrite (locals_agree_full_name _ _ Hl), (frame_agree_proc _ _ Hfr).
    cbn [l_bool_added_value l_description with_full_name].
    rewrite (locals_agree_added _ _ Hl), (locals_agree_description _ _ Hl).
    repeat match goal with
           | |- agree _ _ (match ?x with _ => _ end) (match ?x with _ => _ end) => destruct x
           | |- agree _ _ (raise ?e) (raise ?e) => apply agree_raise
           end;
      try (apply expanded_agree; try exact Hfr;
           repeat apply locals_agree_extend; try apply locals_agree_with_full_name;
           try exact Hl; apply same_refl).
Qed.

Lemma expand_agree (d : nat) (details : schema) (l l' : locals) (fr fr' : frame) :
  locals_agree exact l l' -> frame_agree exact fr fr' ->
  agree exact (expansion_agree exact) (expand key_order definitions rec d details l fr)
        (expand key_order definitions rec' d details l' fr').
Proof.
  intros Hl Hfr. unfold expand.
  destruct (s_ref details); [apply expand_ref_agree; assumption|].
  destruct (s_items details); [apply expand_items_agree; assumption|].
  destruct (s_additionalProperties details); [apply expand_additional_agree; assumption|].
  apply expanded_agree; assumption.
Qed.

Lemma expand_map_agree (d : nat) (details : properties) (l l' : locals) (fr fr' : frame) :
  locals_agree exact l l' -> frame_agree exact fr fr' ->
  agree exact (expansion_agree exact) (expand_map key_order definitions rec d details l fr)
        (expand_map key_order definitions rec' d details l' fr').
Proof.
  intros Hl Hfr. unfold expand_map.
  destruct (Analisis.dict_get details "$ref"); [apply agree_raise|].
  destruct (Analisis.dict_get details "items"); [apply expand_items_agree; assumption|].
  destruct (Analisis.dict_get details "additionalProperties");
    [apply expand_additional_agree; assumption|].
  apply expanded_agree; assumption.
Qed.

Lemma nested_properties_agree (d : nat) (details : schema) (l l' : locals) (fr fr' : frame) :
  locals_agree exact l l' -> frame_agree exact fr fr' ->
  agree exact (pair_agree exact) (nested_properties rec d details l fr)
        (nested_properties rec' d details l' fr').
Proof.
  intros Hl Hfr. unfold nested_properties. rewrite (locals_agree_full_name _ _ Hl).
  destruct (s_properties details); [apply recurse_agree; assumption|].
  apply pair_ret_agree; assumption.
Qed.

Lemma nested_map_properties_agree (d : nat) (details : properties) (l l' : locals)
    (fr fr' : frame) :
  locals_agree exact l l' -> frame_agree exact fr fr' ->
  agree exact (pair_agree exact) (nested_map_properties rec d details l fr)
        (nested_map_properties rec' d details l' fr').
Proof.
  intros Hl Hfr. unfold nested_map_properties. rewrite (locals_agree_full_name _ _ Hl).
  destruct (Analisis.dict_get details "properties"); [apply recurse_agree; assumption|].
  apply pair_ret_agree; assumption.
Qed.

(** The one place where the order of a set is read. *)
Lemma add_values_or_scalar_agree (l l' : locals) (fr fr' : frame) :
  locals_agree exact l l' -> frame_agree exact fr fr' ->
  locals_agree exact (add_values_or_scalar so1 l fr) (add_values_or_scalar so2 l' fr').
Proof.
  intros Hl Hfr. unfold add_values_or_scalar.
  rewrite (locals_agree_added _ _ Hl), (locals_agree_full_name _ _ Hl),
    (locals_agree_description _ _ Hl), (frame_agree_proc _ _ Hfr).
  destruct Hl as (f' & Hf & ->).
  destruct (l_bool_added_value l).
  - cbn [l_extracted_values with_full_name with_feature l_feature l_full_name l_feature_type
           l_description l_bool_added_value].
    destruct (l_extracted_values l) as [values|].
    + eexists. split. 2: reflexivity.
      cbn [l_feature extend with_feature]. intros E. rewrite (Hf E), (Horder E values).
      reflexivity.
    + eexists. split. 2: reflexivity.
      cbn [l_feature]. intros E. rewrite (Hf E). reflexivity.
  - repeat match goal with
           | |- context [if ?b then _ else _] => destruct b
           end;
      (eexists; split; [|reflexivity]; [..];
       cbn [l_feature extend with_feature with_full_name];
       intros E; rewrite (Hf E); reflexivity).
Qed.

Lemma finish_property_agree (l l' : locals) (fr fr' : frame) :
  locals_agree exact l l' -> frame_agree exact fr fr' ->
  frame_agree exact (finish_property l fr) (finish_property l' fr').
Proof.
  intros (f' & Hf & ->) (m' & o' & Hm & Ho & ->). unfold finish_property.
  cbn [fr_proc fr_stack fr_mandatory fr_optional fr_abstract_bool fr_cleaned_description
       l_full_name l_feature_type l_feature with_feature].
  destruct (l_feature_type l).
  - exists (m' ++ [f'])%list, o'. split; [|split; [exact Ho|reflexivity]].
    cbn [fr_mandatory]. intros E. rewrite (Hm E), (Hf E). reflexivity.
  - exists m', (o' ++ [f'])%list. split; [exact Hm|]. split; [|reflexivity].
    cbn [fr_optional]. intros E. rewrite (Ho E), (Hf E). reflexivity.
  - exists m', (o' ++ [f'])%list. split; [exact Hm|]. split; [|reflexivity].
    cbn [fr_optional]. intros E. rewrite (Ho E), (Hf E). reflexivity.
Qed.

Lemma iteration_agree (begun begun' : result (locals * frame))
    (branch branch' : locals -> frame -> M expansion)
    (nested nested' : locals -> frame -> M (locals * frame)) :
  agree exact (pair_agree exact) (Some begun) (Some begun') ->
  (forall l l' fr fr', locals_agree exact l l' -> frame_agree exact fr fr' ->
                       agree exact (expansion_agree exact) (branch l fr) (branch' l' fr')) ->
  (forall l l' fr fr', locals_agree exact l l' -> frame_agree exact fr fr' ->
                       agree exact (pair_agree exact) (nested l fr) (nested' l' fr')) ->
  agree exact (frame_agree exact) (iteration so1 begun branch nested)
        (iteration so2 begun' branch' nested').
Proof.
  intros Hbegun Hbranch Hnested. unfold iteration.
  apply (agree_try (pair_agree exact)); [exact Hbegun|].
  intros [l fr] [l' fr'] [Hl Hfr].
  apply (agree_bind (expansion_agree exact)); [apply Hbranch; assumption|].
  intros [f|la fa] [f'|lb fb] He; cbn in He; try contradiction.
  - apply agree_ret. exact He.
  - destruct He as [Ha Hfa].
    apply (agree_bind (pair_agree exact)).
    + apply Hnested; [|exact Hfa]. apply add_values_or_scalar_agree; assumption.
    + intros [lc fc] [ld fd] [Hc Hfc]. apply agree_ret.
      apply finish_property_agree; assumption.
Qed.

Lemma begin_property_agree (fr fr' : frame) (req : jnode) (prop : string) (details : schema)
    (full_name : string) :
  frame_agree exact fr fr' ->
  agree exact (pair_agree exact) (Some (begin_property fr req prop details full_name))
        (Some (begin_property fr' req prop details full_name)).
Proof.
  intros (m' & o' & Hm & Ho & ->). unfold begin_property.
  cbn [fr_proc fr_stack fr_mandatory fr_optional fr_abstract_bool fr_cleaned_description].
  repeat match goal with
         | |- context [let '(_, _) := ?x in _] => destruct x
         end.
  match goal with
  | |- context [bind ?x _] => destruct x
  end; cbn [bind]; [|intros _; reflexivity].
  split; [apply locals_agree_refl|]. exists m', o'. repeat split; assumption.
Qed.

Lemma begin_map_property_agree (fr fr' : frame) (req : jnode) (prop : string)
    (details : properties) (full_name : string) :
  frame_agree exact fr fr' ->
  agree exact (pair_agree exact) (Some (begin_map_property fr req prop details full_name))
        (Some (begin_map_property fr' req prop details full_name)).
Proof.
  intros (m' & o' & Hm & Ho & ->). unfold begin_map_property.
  cbn [fr_proc fr_stack fr_mandatory fr_optional fr_abstract_bool fr_cleaned_description].
  destruct (as_text _) as [description|e]; cbn [bind]; [|intros _; reflexivity].
  destruct (sanitize_type_value _ _) as [t p].
  match goal with
  | |- context [bind ?x _] => destruct x
  end; cbn [bind]; [|intros _; reflexivity].
  repeat match goal with
         | |- context [let '(_, _) := ?x in _] => destruct x
         end.
  match goal with
  | |- context [bind ?x _] => destruct x
  end; cbn [bind]; [|intros _; reflexivity].
  split; [apply locals_agree_refl|]. exists m', o'. repeat split; assumption.
Qed.

Lemma property_step_agree (req : jnode) (parent : string) (d : nat) (prop : string)
    (details : jnode) (fr fr' : frame) :
  frame_agree exact fr fr' ->
  agree exact (frame_agree exact)
        (property_step so1 key_order definitions rec req parent d prop details fr)
        (property_step so2 key_order definitions rec' req parent d prop details fr').
Proof.
  intros Hfr. unfold property_step. rewrite (frame_agree_proc _ _ Hfr).
  destruct (mem _ _); [apply agree_ret; exact Hfr|].
  destruct details; try apply agree_raise.
  - apply iteration_agree.
    + apply begin_map_property_agree. exact Hfr.
    + intros. apply expand_map_agree; assumption.
    + intros. apply nested_map_properties_agree; assumption.
  - apply iteration_agree.
    + apply begin_property_agree. exact Hfr.
    + intros. apply expand_agree; assumption.
    + intros. apply nested_properties_agree; assumption.
  - apply iteration_agree.
    + apply begin_map_property_agree. exact Hfr.
    + intros. apply expand_map_agree; assumption.
    + intros. apply nested_map_properties_agree; assumption.
Qed.

Lemma properties_loop_agree (req : jnode) (parent : string) (d : nat)
    (items : list (string * jnode)) :
  forall fr fr', frame_agree exact fr fr' ->
    agree exact (frame_agree exact)
          (properties_loop so1 key_order definitions rec req parent d items fr)
          (properties_loop so2 key_order definitions rec' req parent d items fr').
Proof.
  induction items as [|[prop details] items IH]; intros fr fr' Hfr; cbn [properties_loop].
  - apply agree_ret. exact Hfr.
  - apply (agree_bind (frame_agree exact)); [apply property_step_agree; exact Hfr|].
    intros a b Hab. apply IH. exact Hab.
Qed.

End Phases.

Lemma parse_properties_agree (fuel : nat) :
  parser_agree exact (parse_properties so1 key_order definitions fuel)
               (parse_properties so2 key_order definitions fuel).
Proof.
  induction fuel as [|fuel IH]; intros ps req parent d st p; cbn [parse_properties].
  - apply agree_none.
  - apply agree_try_same. intros items.
    apply (agree_bind (frame_agree exact)).
    + apply properties_loop_agree; [exact IH|apply frame_agree_refl].
    + intros fr fr' (m' & o' & Hm & Ho & ->). apply agree_ret.
      repeat split; assumption.
Qed.

(** *** The driver *)

Lemma same_result {A : Type} (r r' : result A) :
  (exact = true -> r = r') -> agree exact (same exact) (Some r) (Some r').
Proof.
  intros H. assert (E : exact = true \/ exact = false) by (destruct exact; auto).
  destruct E as [E|E].
  - rewrite (H E). destruct r'; cbn; intros _; reflexivity.
  - apply agree_any; [exact E|]. intros a b _ _ E'. congruence.
Qed.

Lemma schema_step_agree (fuel : nat) (acc acc' : string * proc) (schema_name : string)
    (schema : schema) :
  output_agree exact acc acc' ->
  agree exact (output_agree exact)
        (schema_step so1 key_order fuel definitions acc schema_name schema)
        (schema_step so2 key_order fuel definitions acc' schema_name schema).
Proof.
  destruct acc as [u p], acc' as [u' p']. intros [Hu Hp]. cbn [fst snd] in Hu, Hp. subst p'.
  unfold schema_step.
  apply (agree_bind (result_agree exact)); [apply parse_properties_agree|].
  intros [[[m o] st] q1] [[[m' o'] st'] q2] (Hm & Ho & Hst & Hq).
  cbn [fst snd] in Hm, Ho, Hst, Hq. subst st' q2.
  apply (agree_try (same exact)).
  - apply same_result. intros E. rewrite (Hm E), (Ho E), (Hu E). reflexivity.
  - intros a b Hab.
    destruct (is_nil _); [|apply agree_ret; split; [exact Hab|reflexivity]].
    destruct (s_oneOf schema) as [oneOf|].
    + destruct (process_oneOf _ _ _ _) as [f q3]. apply agree_try_same. intros lines.
      apply agree_ret. split; [|reflexivity]. cbn [fst]. apply same_map2; [exact Hab|].
      apply same_refl.
    + apply agree_ret. split; [|reflexivity]. cbn [fst]. apply same_map2; [exact Hab|].
      apply same_refl.
Qed.

Lemma schemas_loop_agree (fuel : nat) (todo : properties) :
  forall acc acc', output_agree exact acc acc' ->
    agree exact (output_agree exact) (schemas_loop so1 key_order fuel definitions todo acc)
          (schemas_loop so2 key_order fuel definitions todo acc').
Proof.
  induction todo as [|[schema_name schema] todo IH]; intros acc acc' Hacc; cbn [schemas_loop].
  - apply agree_ret. exact Hacc.
  - apply (agree_bind (output_agree exact)); [apply schema_step_agree; exact Hacc|].
    intros a b Hab. apply IH. exact Hab.
Qed.

Lemma runs_agree (fuel : nat) :
  agree exact (run_agree exact) (run so1 key_order fuel definitions)
        (run so2 key_order fuel definitions).
Proof.
  unfold run, generate_uvl_from_definitions.
  apply (agree_bind (output_agree exact)).
  - apply schemas_loop_agree. split; [apply same_refl|reflexivity].
  - intros [u p] [u' p'] [Hu Hp]. cbn [fst snd] in Hu, Hp. subst p'.
    destruct (Analisis.generar_constraintsDef _ _) as [[restrictions count]|e].
    + apply agree_ret. split; [|split; reflexivity]. cbn [fst].
      intros E. rewrite (Hu E). reflexivity.
    + apply agree_raise.
Qed.

End Enumeration.

(** C10, counterexample: the definition [Pod] has one field whose
    description lists the values [Always] and [Never].  With the set of
    the two values enumerated in one order and in the other, the generator
    writes two different models: the two value features are exchanged. *)
Lemma output_depends_on_set_enumeration :
  extract_values ("Valid values are " ++ q ++ "Always" ++ q ++ " and " ++ q ++ "Never" ++ q)
  = Some (list_to_set ["Always"; "Never"])
  /\ listed (list_to_set ["Always"; "Never"]) = ["Always"; "Never"]
  /\ Agreement.backwards (list_to_set ["Always"; "Never"]) = ["Never"; "Always"]
  /\ match run listed record_order 3 restart_policy,
           run Agreement.backwards record_order 3 restart_policy with
     | Some (Ok (uvl1, constraints1, count1)), Some (Ok (uvl2, constraints2, count2)) =>
         uvl1 <> uvl2
         /\ Py.contains ("Pod_restartPolicy_Always {doc 'Specific value: Always'}" ++ nl
                           ++ tabs 7 ++ "Pod_restartPolicy_Never") uvl1 = true
         /\ Py.contains ("Pod_restartPolicy_Never {doc 'Specific value: Never'}" ++ nl
                           ++ tabs 7 ++ "Pod_restartPolicy_Always") uvl2 = true
     | _, _ => False
     end.
Proof.
  split; [vm_compute; reflexivity|]. split; [vm_compute; reflexivity|].
  split; [vm_compute; reflexivity|].
  vm_compute. split; [discriminate|]. split; reflexivity.
Qed.

(** C10, amended.  Two runs on the same document in which every set of
    values is enumerated in the same order have the same outcome: the same
    model and the same constraints, or the same exception.  Whatever the
    two orders are, two runs that both complete emit the same constraints,
    in the same order, and report the same count.  The value features of
    a property are added to its node in the order in which the set of its
    values is enumerated. *)
Theorem runs_differ_by_set_enumeration_only :
  forall (so1 so2 : gset string -> list string) (key_order : schema -> list string)
         (fuel : nat) (definitions : properties),
    ((forall values, so1 values = so2 values) ->
     run so1 key_order fuel definitions = run so2 key_order fuel definitions)
    /\ (forall uvl1 constraints1 count1 uvl2 constraints2 count2,
           run so1 key_order fuel definitions = Some (Ok (uvl1, constraints1, count1)) ->
           run so2 key_order fuel definitions = Some (Ok (uvl2, constraints2, count2)) ->
           constraints1 = constraints2 /\ count1 = count2)
    /\ (forall (l : locals) (fr : frame) (values : gset string),
           l_bool_added_value l = true ->
           l_extracted_values l = Some values ->
           f_sub_features (l_feature (add_values_or_scalar so1 l fr))
           = (f_sub_features (l_feature l)
              ++ flat_map (value_leaf (Py.replace card1 "" (l_full_name l))) (so1 values))%list).
Proof.
  intros so1 so2 key_order fuel definitions. split; [|split].
  - intros Horder.
    pose proof (runs_agree so1 so2 key_order definitions true (fun _ => Horder) fuel) as H.
    destruct (run so1 key_order fuel definitions) as [[[[u1 r1] c1]|e1]|],
             (run so2 key_order fuel definitions) as [[[[u2 r2] c2]|e2]|];
      cbn in H; try discriminate H; try reflexivity.
    + destruct H as (Hu & Hr & Hc). cbn [fst snd] in Hu, Hr, Hc.
      rewrite (Hu eq_refl), Hr, Hc. reflexivity.
    + rewrite (H eq_refl). reflexivity.
  - intros u1 r1 c1 u2 r2 c2 H1 H2.
    assert (Hfalse : false = true -> forall values, so1 values = so2 values)
      by (intros E; discriminate E).
    pose proof (runs_agree so1 so2 key_order definitions false Hfalse fuel) as H.
    rewrite H1, H2 in H. destruct H as (_ & Hr & Hc). split; assumption.
  - intros l fr values Hadded Hvalues. unfold add_values_or_scalar.
    rewrite Hadded. cbn [l_extracted_values with_full_name with_feature]. rewrite Hvalues.
    reflexivity.
Qed.

Lemma runs_differ_by_set_enumeration_only_witness :
  run listed record_order 3 restart_policy
  = run (fun s => rev (Agreement.backwards s)) record_order 3 restart_policy
  /\ match run listed record_order 3 restart_policy,
           run Agreement.backwards record_order 3 restart_policy with
     | Some (Ok (_, constraints1, count1)), Some (Ok (_, constraints2, count2)) =>
         constraints1 = constraints2 /\ count1 = count2
     | _, _ => False
     end.
Proof.
  destruct (runs_differ_by_set_enumeration_only listed (fun s => rev (Agreement.backwards s))
              record_order 3 restart_policy) as (H1 & _ & _).
  destruct (runs_differ_by_set_enumeration_only listed Agreement.backwards
              record_order 3 restart_policy) as (_ & H2 & _).
  split.
  - apply H1. intros values. unfold Agreement.backwards, listed.
    rewrite rev_involutive. reflexivity.
  - destruct (run listed record_order 3 restart_policy) as [[[[u1 r1] c1]|e1]|] eqn:E1;
      try (vm_compute in E1; discriminate E1).
    destruct (run Agreement.backwards record_order 3 restart_policy) as [[[[u2 r2] c2]|e2]|] eqn:E2;
      try (vm_compute in E2; discriminate E2).
    exact (H2 u1 r1 c1 u2 r2 c2 eq_refl eq_refl).
Defined.

(** * Further properties of the code *)


(** ** The description classifier *)

Lemma mem_inserted (key : string) (s : gset string) : mem key ({[key]} ∪ s) = true.
Proof. unfold mem. apply bool_decide_eq_true_2. set_solver. Qed.

Lemma add_description_seen (p : proc) (c : category) (e : description_entry) :
  seen_descriptions (add_description p c e) = seen_descriptions p.
Proof. destruct c; reflexivity. Qed.

Lemma categorize_description_rejects (q : proc) (description feature_name type_data : string) :
  (Py.len feature_name <? 10)%nat = true
  \/ mem (description ++ ":" ++ feature_name) (seen_descriptions q) = true ->
  categorize_description q description feature_name type_data = (false, q).
Proof.
  intros H. unfold categorize_description, is_valid_description.
  destruct (Py.len feature_name <? 10)%nat; [reflexivity|].
  destruct H as [H|H]; [discriminate|]. rewrite H. reflexivity.
Qed.

Lemma categorize_description_marks (p : proc) (description feature_name type_data : string) :
  (Py.len feature_name <? 10)%nat = true
  \/ mem (description ++ ":" ++ feature_name)
         (seen_descriptions (snd (categorize_description p description feature_name type_data)))
     = true.
Proof.
  unfold categorize_description, is_valid_description.
  destruct (Py.len feature_name <? 10)%nat; [left; reflexivity|right].
  destruct (mem (description ++ ":" ++ feature_name) (seen_descriptions p)) eqn:Hseen.
  - cbn [negb snd]. exact Hseen.
  - cbn [negb]. destruct (first_category patterns description) as [c|]; cbn [snd];
      [rewrite add_description_seen|]; apply mem_inserted.
Qed.

(** A second call of [categorize_description] with the same description
    and feature name records nothing: it answers [False] and leaves the
    processor as the first call left it. *)
Theorem categorize_description_repeated :
  forall (p : proc) (description feature_name type_data : string),
    categorize_description
      (snd (categorize_description p description feature_name type_data))
      description feature_name type_data
    = (false, snd (categorize_description p description feature_name type_data)).
Proof.
  intros p description feature_name type_data.
  apply categorize_description_rejects, categorize_description_marks.
Qed.

(** ** The value extractor *)

Lemma select_values_subset (values result : gset string) :
  select_values values = Some result -> result ⊆ values.
Proof.
  unfold select_values.
  destruct (bool_decide (values = ∅) || Nat.eqb (size values) 1); [discriminate|].
  destruct (bool_decide (case_not_none = values)) eqn:E1.
  - intros [= <-]. apply subseteq_difference_l. reflexivity.
  - destruct (bool_decide (case_not_policies = values)) eqn:E2.
    + apply bool_decide_eq_true_1 in E2. subst values. intros [= <-].
      apply subseteq_difference_l. reflexivity.
    + intros [= <-]. reflexivity.
Qed.

(** A value set that [extract_values] returns has at least two elements. *)
Theorem extract_values_at_least_two :
  forall (description : string) (result : gset string),
    extract_values description = Some result -> (2 <= size result)%nat.
Proof.
  intros description result. unfold extract_values.
  destruct (extracted_set description) as [values|]; [|discriminate].
  unfold select_values.
  destruct (bool_decide (values = ∅)) eqn:Hempty; [discriminate|].
  destruct (Nat.eqb (size values) 1) eqn:Hone; [discriminate|]. cbn [orb].
  destruct (bool_decide (case_not_none = values)) eqn:E1.
  - apply bool_decide_eq_true_1 in E1. subst values. intros [= <-]. vm_compute. lia.
  - destruct (bool_decide (case_not_policies = values)) eqn:E2.
    + intros [= <-]. vm_compute. lia.
    + intros [= <-]. apply bool_decide_eq_false_1 in Hempty. apply Nat.eqb_neq in Hone.
      destruct (size values) as [|[|n]] eqn:Hsize; [|congruence|lia].
      apply size_empty_inv in Hsize. apply leibniz_equiv in Hsize. contradiction.
Qed.

Lemma extract_values_at_least_two_witness :
  (2 <= size (case_not_none ∖ {["None"]}))%nat.
Proof.
  apply (extract_values_at_least_two service_type_description).
  vm_compute. reflexivity.
Defined.

Lemma normalize_value_token (default_value : option string) (x v : string) :
  In v (normalize_value default_value x) ->
  exists w, (v = w \/ v = w ++ " {default}") /\ Measure.token w.
Proof.
  unfold normalize_value.
  match goal with
  | |- context [if ?c then _ else _] => destruct c eqn:Hc
  end; [|intros []].
  apply andb_prop in Hc as [Hc Hforbidden]. apply andb_prop in Hc as [Hne Hlen].
  match goal with
  | |- context [if ?c then _ else _] => destruct c eqn:Hlong
  end; [intros []|].
  match goal with
  | |- In v ?l -> _ => set (values := l)
  end.
  match goal with
  | Hne : negb (String.eqb ?w "") = true |- _ =>
      assert (Htoken : Measure.token w)
        by (unfold Measure.token; rewrite Hne, Hlen, Hforbidden; reflexivity);
      intros Hin; exists w; split; [|exact Htoken];
      subst values; destruct default_value as [d|];
        [destruct (String.eqb w d)|]; destruct Hin as [<-|[]]; auto
  end.
Qed.

(** Every value that [extract_values] returns is a token, possibly
    followed by the marker [{default}]: the token is not empty, has at
    most 24 characters and none of the characters [. { } [ ] ; :]. *)
Theorem extracted_values_are_tokens :
  forall (description : string) (result : gset string) (v : string),
    extract_values description = Some result -> v ∈ result ->
    exists w, (v = w \/ v = w ++ " {default}") /\ Measure.token w.
Proof.
  intros description result v. unfold extract_values, extracted_set.
  destruct (_ && _); [discriminate|].
  intros Hsel Hv. apply select_values_subset in Hsel.
  assert (Hin : v ∈ (list_to_set (candidate_values description) : gset string))
    by set_solver.
  apply elem_of_list_to_set in Hin. apply list_elem_of_In in Hin.
  unfold candidate_values in Hin.
  apply in_flat_map in Hin as (pattern & _ & Hin).
  apply in_flat_map in Hin as (mtch & _ & Hin).
  apply in_flat_map in Hin as (x & _ & Hin).
  exact (normalize_value_token _ _ _ Hin).
Qed.

Lemma extracted_values_are_tokens_witness :
  exists w, ("ClusterIP {default}" = w \/ "ClusterIP {default}" = w ++ " {default}")
            /\ Measure.token w.
Proof.
  apply (extracted_values_are_tokens service_type_description
           (case_not_none ∖ {["None"]}) "ClusterIP {default}").
  - vm_compute. reflexivity.
  - assert (H : mem "ClusterIP {default}" (case_not_none ∖ {["None"]}) = true)
      by (vm_compute; reflexivity).
    exact (bool_decide_eq_true_1 _ H).
Defined.


(** ** Names and descriptions *)

Lemma replace_from_chars (old new : string) (s : string) :
  forall (skip : nat) (c : ascii),
    In c (Py.chars (Py.replace_from old new skip s)) ->
    In c (Py.chars s) \/ In c (Py.chars new).
Proof.
  induction s as [|x r IH]; intros skip c; cbn [Py.replace_from].
  - intros [].
  - destruct skip as [|k].
    + destruct (Py.startswith old (String x r)).
      * rewrite chars_append, in_app_iff. intros [H|H]; [right; exact H|].
        destruct (IH _ _ H) as [H'|H']; [left; right; exact H'|right; exact H'].
      * cbn [Py.chars list_ascii_of_string In]. intros [H|H]; [left; left; exact H|].
        destruct (IH _ _ H) as [H'|H']; [left; right; exact H'|right; exact H'].
    + intros H. destruct (IH _ _ H) as [H'|H']; [left; right; exact H'|right; exact H'].
Qed.

(** A replacement does not bring in a character that is neither in the
    string nor in the replacement text. *)
Lemma replace_keeps_absent (b : ascii) (old new s : string) :
  ~ In b (Py.chars new) -> ~ In b (Py.chars s) -> ~ In b (Py.chars (Py.replace old new s)).
Proof.
  intros Hnew Hs H. destruct (replace_from_chars old new s 0 b H); tauto.
Qed.

(** Replacing a character removes it. *)
Lemma replace_removes (b : ascii) (new s : string) :
  ~ In b (Py.chars new) -> ~ In b (Py.chars (Py.replace (String b "") new s)).
Proof.
  intros Hnew. unfold Py.replace. induction s as [|x r IH]; cbn [Py.replace_from].
  - intros [].
  - cbn [Py.startswith]. destruct (Ascii.eqb b x) eqn:E; cbn [andb].
    + cbn [Py.len String.length Nat.sub].
      rewrite chars_append, in_app_iff. tauto.
    + cbn [Py.chars list_ascii_of_string In].
      intros [H|H]; [apply Ascii.eqb_neq in E; congruence|tauto].
Qed.

(** Replacing a character that does not occur changes nothing. *)
Lemma replace_absent (b : ascii) (new s : string) :
  ~ In b (Py.chars s) -> Py.replace (String b "") new s = s.
Proof.
  unfold Py.replace. induction s as [|x r IH]; cbn [Py.replace_from]; [reflexivity|].
  cbn [Py.chars list_ascii_of_string In]. intros H.
  cbn [Py.startswith]. destruct (Ascii.eqb b x) eqn:E.
  - apply Ascii.eqb_eq in E. exfalso. apply H. left. congruence.
  - cbn [andb]. f_equal. apply IH. tauto.
Qed.

Lemma not_in_chars (b : ascii) (s : string) :
  Py.mem_char s b = false -> ~ In b (Py.chars s).
Proof.
  unfold Py.mem_char. intros H Hin.
  assert (existsb (Ascii.eqb b) (Py.chars s) = true) as E.
  { apply existsb_exists. exists b. split; [exact Hin|apply Ascii.eqb_refl]. }
  congruence.
Qed.

(** [sanitize_name] leaves none of the characters [-], [.] and [$] in a
    name, and a sanitized name is unchanged by a second pass. *)
Theorem sanitize_name_clean :
  forall name : string,
    (forall c, In c (Py.chars (sanitize_name name)) ->
               c <> "-"%char /\ c <> "."%char /\ c <> "$"%char)
    /\ sanitize_name (sanitize_name name) = sanitize_name name.
Proof.
  intros name.
  assert (Hdash : ~ In "-"%char (Py.chars (sanitize_name name))).
  { unfold sanitize_name.
    apply replace_keeps_absent; [intros []|].
    apply replace_keeps_absent; [apply not_in_chars; reflexivity|].
    apply replace_removes. apply not_in_chars. reflexivity. }
  assert (Hdot : ~ In "."%char (Py.chars (sanitize_name name))).
  { unfold sanitize_name.
    apply replace_keeps_absent; [intros []|].
    apply replace_removes. apply not_in_chars. reflexivity. }
  assert (Hdollar : ~ In "$"%char (Py.chars (sanitize_name name))).
  { unfold sanitize_name. apply replace_removes. intros []. }
  split.
  - intros c Hc. repeat split; intros ->; tauto.
  - unfold sanitize_name at 1.
    rewrite (replace_absent "-"%char "_" _ Hdash).
    rewrite (replace_absent "."%char "_" _ Hdot).
    apply replace_absent. exact Hdollar.
Qed.




(** ** Reference resolution *)

Lemma schema_field_inside (definitions : properties) (s : schema) (part : string) (n : jnode) :
  Measure.inside definitions s -> schema_field s part = Some n ->
  Measure.node_inside definitions n.
Proof.
  intros Hs. unfold schema_field.
  repeat match goal with
         | |- context [if ?b then _ else _] => destruct b
         end;
    try discriminate;
    try (destruct (s_description s); cbn; intros [= <-]; exact I);
    try (destruct (s_type s); cbn; intros [= <-]; exact I);
    try (destruct (s_ref s); cbn; intros [= <-]; exact I);
    try (destruct (s_required s); cbn; intros [= <-]; exact I);
    try (destruct (s_enum s); cbn; intros [= <-]; exact I);
    try (destruct (s_oneOf s); cbn; intros [= <-]; exact I).
  - destruct (s_items s) as [i|] eqn:E; cbn; intros [= <-].
    exact (Measure.inside_items _ _ _ Hs E).
  - destruct (s_additionalProperties s) as [a|] eqn:E; cbn; intros [= <-].
    exact (Measure.inside_additional _ _ _ Hs E).
  - destruct (s_properties s) as [ps|] eqn:E; cbn; intros [= <-].
    right. exists s. split; [exact Hs|exact E].
Qed.

Lemma node_get_inside (definitions : properties) (n n' : jnode) (part : string) :
  Measure.node_inside definitions n -> node_get definitions n part = Ok (Some n') ->
  Measure.node_inside definitions n'.
Proof.
  destruct n as [|s|ps|t|l|l|l]; cbn [node_get]; try discriminate.
  - intros _. destruct (String.eqb part "definitions"); intros [= <-]. left. reflexivity.
  - intros Hs [= H]. exact (schema_field_inside _ _ _ _ Hs H).
  - intros Hps. destruct (Analisis.dict_get ps part) as [x|] eqn:E; cbn; intros [= <-].
    destruct (dict_get_member _ _ _ E) as [k Hk]. destruct Hps as [->|(s & Hs & Hps)].
    + exact (Measure.inside_definition _ _ _ Hk).
    + exact (Measure.inside_property _ _ _ _ _ Hs Hps Hk).
Qed.

Lemma walk_inside (definitions : properties) (parts : list string) :
  forall n n',
    Measure.node_inside definitions n -> walk definitions n parts = Some n' ->
    Measure.node_inside definitions n' /\ (parts <> [] -> node_truthy n' = true).
Proof.
  induction parts as [|part rest IH]; intros n n' Hn; cbn [walk].
  - intros [= <-]. split; [exact Hn|congruence].
  - destruct (node_get definitions n part) as [[m|]|e] eqn:E; try discriminate.
    destruct (node_truthy m) eqn:Hm; [|discriminate].
    intros Hw. pose proof (node_get_inside _ _ _ _ Hn E) as Hmi.
    destruct (IH _ _ Hmi Hw) as [Hi Ht]. split; [exact Hi|]. intros _.
    destruct rest as [|p r].
    + cbn in Hw. injection Hw as <-. exact Hm.
    + apply Ht. discriminate.
Qed.

Lemma split_from_not_nil (sep s : string) :
  forall skip cur, Py.split_from sep skip cur s <> [].
Proof.
  induction s as [|c r IH]; intros skip cur; cbn [Py.split_from]; [discriminate|].
  destruct skip; [|apply IH]. destruct (Py.startswith sep (String c r)); [discriminate|apply IH].
Qed.

(** A value that [resolve_reference] returns is a value of the document (a
    schema object of the document, the dictionary of the definitions or of
    the properties of one of its objects, a string or a list), and it is
    not empty. *)
Theorem resolved_value_is_inside_and_not_empty :
  forall (definitions : properties) (ref : string) (n : jnode),
    resolve_reference definitions ref = Some n ->
    Measure.node_inside definitions n /\ node_truthy n = true.
Proof.
  intros definitions ref n. unfold resolve_reference. intros E.
  destruct (walk_inside definitions _ NDocument n I E) as [Hi Ht].
  split; [exact Hi|]. apply Ht. apply split_from_not_nil.
Qed.

Lemma resolved_value_is_inside_and_not_empty_witness :
  Measure.node_inside tree_node (NSchema (snd (hd ("", no_schema) tree_node)))
  /\ node_truthy (NSchema (snd (hd ("", no_schema) tree_node))) = true.
Proof.
  apply (resolved_value_is_inside_and_not_empty tree_node "#/definitions/Node").
  vm_compute. reflexivity.
Defined.

(** *** Pointers of the form [#/definitions/Name] *)

Lemma lstrip_by_head (p : ascii -> bool) (c : ascii) (r : list ascii) :
  p c = false -> Py.lstrip_by p (Py.str (c :: r)) = Py.str (c :: r).
Proof. intros H. cbn. rewrite H. reflexivity. Qed.

Lemma lstrip_rev_last (p : ascii -> bool) (l : list ascii) (d : ascii) :
  l <> [] -> p (List.last l d) = false ->
  Py.lstrip_by p (Py.str (rev l)) = Py.str (rev l).
Proof.
  intros Hne Hlast. destruct (exists_last Hne) as (front & x & ->).
  rewrite last_last in Hlast. rewrite rev_app_distr. cbn [rev app].
  apply lstrip_by_head. exact Hlast.
Qed.

Lemma split_from_plain (sep : ascii) (s : string) :
  forall cur,
    ~ In sep (Py.chars s) ->
    Py.split_from (String sep "") 0 cur s = [Py.str (rev cur ++ Py.chars s)].
Proof.
  induction s as [|c r IH]; intros cur Hs; cbn [Py.split_from].
  - cbn [Py.chars list_ascii_of_string]. rewrite app_nil_r. reflexivity.
  - cbn [Py.chars list_ascii_of_string In] in Hs. cbn [Py.startswith].
    destruct (Ascii.eqb sep c) eqn:E;
      [apply Ascii.eqb_eq in E; exfalso; apply Hs; left; congruence|].
    cbn [andb]. rewrite IH by tauto. cbn [rev Py.chars list_ascii_of_string].
    rewrite <- app_assoc. reflexivity.
Qed.

Lemma pointer_parts (name : string) :
  Measure.pointer_name name ->
  Py.split "/" (Py.strip_chars "#/" ("#/definitions/" ++ name)) = ["definitions"; name].
Proof.
  intros (Hne & Hslash & Hlast).
  assert (Hstrip : Py.strip_chars "#/" ("#/definitions/" ++ name) = "definitions/" ++ name).
  { unfold Py.strip_chars, Py.strip_by.
    change (Py.lstrip_by (Py.mem_char "#/") ("#/definitions/" ++ name))
      with ("definitions/" ++ name).
    unfold Py.rev_string at 2.
    rewrite (lstrip_rev_last (Py.mem_char "#/") (Py.chars ("definitions/" ++ name)) "a"%char).
    - unfold Py.rev_string. rewrite chars_str, rev_involutive. apply str_chars.
    - rewrite chars_append. discriminate.
    - rewrite chars_append.
      assert (Hn : Py.chars name <> []) by (destruct name; [congruence|discriminate]).
      destruct (exists_last Hn) as (front & x & Hx). rewrite Hx in *.
      rewrite app_assoc, !last_last in *.
      unfold Py.mem_char. cbn [Py.chars list_ascii_of_string existsb].
      rewrite orb_false_r. apply orb_false_iff. split; apply Ascii.eqb_neq.
      + exact Hlast.
      + intros ->. apply Hslash. apply in_or_app. right. left. reflexivity. }
  rewrite Hstrip. unfold Py.split.
  change (Py.split_from "/" 0 [] ("definitions/" ++ name))
    with ("definitions" :: Py.split_from "/" 0 [] name).
  rewrite (split_from_plain "/"%char name [] Hslash). cbn [rev app]. rewrite str_chars.
  reflexivity.
Qed.

(** Lookup by pointer: for a name that can stand in a pointer,
    [#/definitions/Name] resolves to the definition of that name when
    there is one and it is not the empty object, and to nothing
    otherwise. *)
Theorem resolve_definition_pointer :
  forall (definitions : properties) (name : string),
    Measure.pointer_name name ->
    resolve_reference definitions ("#/definitions/" ++ name)
    = match Analisis.dict_get definitions name with
      | Some s => if schema_truthy s then Some (NSchema s) else None
      | None => None
      end.
Proof.
  intros definitions name Hname. unfold resolve_reference.
  rewrite (pointer_parts name Hname). cbn [walk].
  replace (node_get definitions NDocument "definitions")
    with (@Ok (option jnode) (Some (NProperties definitions))) by reflexivity.
  cbn [node_truthy]. destruct (is_nil definitions) eqn:Hnil; cbn [negb].
  - destruct definitions; [reflexivity|discriminate].
  - cbn [node_get].
    destruct (Analisis.dict_get definitions name) as [s|]; cbn [option_map node_truthy];
      [|reflexivity].
    destruct (schema_truthy s); reflexivity.
Qed.

Lemma resolve_definition_pointer_witness :
  resolve_reference tree_node ("#/definitions/" ++ "Node")
  = match Analisis.dict_get tree_node "Node" with
    | Some s => if schema_truthy s then Some (NSchema s) else None
    | None => None
    end.
Proof.
  apply (resolve_definition_pointer tree_node "Node").
  repeat split; [discriminate| |discriminate].
  cbn. intros [H|[H|[H|[H|[]]]]]; discriminate.
Defined.



(** ** The loop of [generar_constraintsDef] *)

Lemma convert_to_uvl_constraints_count (count count' : nat) (feature_key description type_data : string)
    (rule : option string) :
  Analisis.convert_to_uvl_constraints count feature_key description type_data
  = Ok (rule, count') ->
  (rule = None /\ count' = S count) \/ (exists r, rule = Some r /\ count' = count).
Proof.
  unfold Analisis.convert_to_uvl_constraints.
  destruct (Analisis.extract_bounds description) as [b|e]; cbn [bind]; [|discriminate].
  match goal with
  | |- context [bind ?x _] => destruct x as [[r|]|e]
  end; cbn [bind]; intros H; inversion H; subst; eauto.
Qed.

Lemma constraints_loop_counts (l : list Analisis.restriction) :
  forall (count : nat) (acc rules : list string) (count' : nat),
    Analisis.constraints_loop count acc l = Ok (rules, count') ->
    Forall (fun r => r <> "") acc ->
    Forall (fun r => r <> "") rules
    /\ (count <= count')%nat
    /\ (List.length rules + count' <= List.length acc + count + List.length l)%nat.
Proof.
  induction l as [|x rest IH]; intros count acc rules count'; cbn [Analisis.constraints_loop].
  - intros H Hacc. inversion H. subst. repeat split; [exact Hacc|lia|cbn; lia].
  - destruct (Analisis.convert_to_uvl_constraints count _ _ _) as [[rule c1]|e] eqn:E;
      cbn [bind]; [|discriminate].
    destruct (convert_to_uvl_constraints_count _ _ _ _ _ _ E) as [[-> ->]|(r & -> & ->)].
    + intros H Hacc. destruct (IH _ _ _ _ H Hacc) as (H1 & H2 & H3).
      repeat split; [exact H1|lia|cbn [List.length]; lia].
    + destruct (String.eqb r "") eqn:Hr.
      * intros H Hacc. destruct (IH _ _ _ _ H Hacc) as (H1 & H2 & H3).
        repeat split; [exact H1|lia|cbn [List.length]; lia].
      * intros H Hacc.
        assert (Hacc' : Forall (fun r => r <> "") (acc ++ [r])%list).
        { apply Forall_app. split; [exact Hacc|]. constructor; [|constructor].
          apply String.eqb_neq. exact Hr. }
        destruct (IH _ _ _ _ H Hacc') as (H1 & H2 & H3).
        rewrite length_app in H3. cbn [List.length] in H3.
        repeat split; [exact H1|lia|cbn [List.length]; lia].
Qed.

(** When [generar_constraintsDef] returns, no constraint of its list is
    the empty string, the counter has not decreased, and the constraints
    and the increase of the counter together do not exceed the number of
    records: a record gives at most one constraint or one count. *)
Theorem generar_constraintsDef_accounts :
  forall (count : nat) (restrictions : list Analisis.restriction)
         (rules : list string) (count' : nat),
    Analisis.generar_constraintsDef count restrictions = Ok (rules, count') ->
    Forall (fun r => r <> "") rules
    /\ (count <= count')%nat
    /\ (List.length rules + (count' - count) <= List.length restrictions)%nat.
Proof.
  intros count restrictions rules count' H.
  destruct (constraints_loop_counts restrictions count [] rules count' H (List.Forall_nil _))
    as (H1 & H2 & H3).
  cbn [List.length] in H3. repeat split; [exact H1|exact H2|lia].
Qed.

Lemma generar_constraintsDef_accounts_witness :
  Forall (fun r => r <> "") ["spec_port > 1024"]
  /\ (0 <= 1)%nat
  /\ (List.length ["spec_port > 1024"] + (1 - 0)
      <= List.length [Analisis.Restriction "spec_port" "Minimum value is 1024" "Integer";
                      Analisis.Restriction "spec_name" "The name of the port" "Integer"])%nat.
Proof.
  apply (generar_constraintsDef_accounts 0
           [Analisis.Restriction "spec_port" "Minimum value is 1024" "Integer";
            Analisis.Restriction "spec_name" "The name of the port" "Integer"]).
  vm_compute. reflexivity.
Defined.

(** ** [process_oneOf] *)

Lemma process_oneOf_fold (full_name : string) (oneOf : list schema) :
  forall (acc : list feature) (p : proc),
    let r := fold_left (fun (acc : list feature * proc) (option_ : schema) =>
      let '(subs, p) := acc in
      match s_type option_ with
      | Some t =>
          let option_type_data := Py.capitalize t in
          let sanitized_name := Py.replace card1 "" full_name in
          let sanitized_name :=
            if Py.contains " {default " sanitized_name then strip_annotations sanitized_name
            else sanitized_name in
          let aux_description_sub_feature := "Sub-feature added of type " ++ option_type_data in
          let '(td, p) := sanitize_type_data p option_type_data in
          ((subs ++ [leaf (sanitized_name ++ "_as" ++ option_type_data
                             ++ doc aux_description_sub_feature)
                          alternative aux_description_sub_feature td])%list, p)
      | None => (subs, p)
      end) oneOf (acc, p) in
    exists more,
      fst r = (acc ++ more)%list
      /\ List.length more = List.length (List.filter (fun o => is_some (s_type o)) oneOf)
      /\ Forall (fun x => f_type x = alternative /\ f_sub_features x = []) more.
Proof.
  induction oneOf as [|o rest IH]; intros acc p; cbn zeta; cbn [fold_left List.filter].
  - exists []. rewrite app_nil_r. repeat split. constructor.
  - destruct (s_type o) as [t|]; cbn [is_some].
    + destruct (sanitize_type_data p (Py.capitalize t)) as [td p'].
      match goal with
      | |- context [fold_left _ rest (?a, p')] =>
          destruct (IH a p') as (more & H1 & H2 & H3)
      end.
      cbn zeta in H1. eexists (_ :: more). split; [|split].
      * etransitivity; [exact H1|]. rewrite <- app_assoc. reflexivity.
      * cbn [List.length]. congruence.
      * constructor; [split; reflexivity|exact H3].
    + exact (IH acc p).
Qed.

(** [process_oneOf] gives the feature of the given name and kind, typed
    Boolean, with one sub-feature for each option that has a ['type'] and
    none for the others; every sub-feature is an [alternative] without
    children. *)
Theorem process_oneOf_alternatives :
  forall (p : proc) (oneOf : list schema) (full_name : string) (type_feature : kind),
    let f := fst (process_oneOf p oneOf full_name type_feature) in
    f_name f = full_name /\ f_type f = type_feature /\ f_type_data f = NText "Boolean"
    /\ List.length (f_sub_features f)
       = List.length (List.filter (fun o => is_some (s_type o)) oneOf)
    /\ Forall (fun x => f_type x = alternative /\ f_sub_features x = []) (f_sub_features f).
Proof.
  intros p oneOf full_name type_feature. unfold process_oneOf.
  destruct (process_oneOf_fold full_name oneOf [] p) as (more & H1 & H2 & H3).
  cbn zeta in H1.
  match goal with
  | H1 : fst ?x = _ |- _ => destruct x as [subs p']
  end.
  cbn [fst app] in H1. subst subs. cbn. repeat split; assumption.
Qed.

(** ** The bounds of a description *)


(** When the phrase [Minimum value is] is followed by digits and occurs
    for the first time, [extract_minimum_value] gives the rule
    [feature > N], whatever else the description says. *)
Theorem extract_minimum_value_first_phrase :
  forall (feature_key pre N post : string),
    Phrase.number N ->
    Phrase.over_or (fun c => negb (Py.is_digit c)) post ->
    Phrase.first_at false "Minimum value is" (pre ++ "Minimum value is " ++ N ++ post)
                    (String.length pre) ->
    Analisis.extract_minimum_value (pre ++ "Minimum value is " ++ N ++ post) feature_key
    = Ok (feature_key ++ " > " ++ N).
Proof.
  intros feature_key pre N post HN Hpost Hfirst.
  destruct (isdigit_chars _ HN) as [HNne HNd].
  destruct (minimum_attempt (rev (Py.chars pre)) (Py.chars N) (Py.chars post))
    as (e & He & Hg); [exact HNne|exact HNd|destruct post; [exact I|exact Hpost]|].
  assert (Hmin : Re.search false Analisis.value_minimum_pattern
                   (pre ++ "Minimum value is " ++ N ++ post)
                 = Some (Re.mk_match
                           (Re.State (rev (Py.chars (pre ++ "Minimum value is ")))
                                     (Py.chars (N ++ post)) []) e)).
  { apply (search_at_behind false "Minimum value is" Re.space
             (Re.Grp 1 (Re.plus Re.digit)) 17 pre "Minimum value is " (N ++ post) e Hfirst);
      [reflexivity|].
    rewrite (chars_append pre), rev_app_distr, (chars_append N). exact He. }
  unfold Analisis.extract_minimum_value. rewrite Hmin.
  rewrite (group_str_of 1 _ e (Py.chars N)) by (rewrite Hg; reflexivity).
  rewrite str_chars. reflexivity.
Qed.

Lemma extract_minimum_value_first_phrase_witness :
  Analisis.extract_minimum_value
    ("The port. " ++ "Minimum value is " ++ "1024" ++ ". Must be less than or equal to 2000.")
    "spec_port"
  = Ok ("spec_port" ++ " > " ++ "1024").
Proof.
  refine (extract_minimum_value_first_phrase "spec_port" "The port. " "1024"
            ". Must be less than or equal to 2000." _ _ _).
  - reflexivity.
  - reflexivity.
  - eexists. split; vm_compute; reflexivity.
Defined.

